(** * ndfr-media-helper: a shallow embedding of [ndfr-media-helper.c]

    The helper talks to MPRIS media players over the D-Bus session bus.
    The bus is outside the program, so it is modelled as a value of type
    [Bus]: what [ListNames] replies, for which names a proxy can be
    created, which cached properties a proxy holds and which method calls
    come back without an error.  One [Bus] value is the bus as one run of a
    command sees it; the [listen] loop sees one per tick.

    Every function of the source becomes a computation in the monad
    [Run], which records the bus operations and the text written to stdout
    and stderr in program order.  A run stops with a fault where the C
    program leaves defined behaviour: a NULL string handed to [strcmp], or
    an iteration over a value that is no dictionary.

    The C library and GLib are modelled as they behave on the platform
    the helper is written for (glibc, x86-64): [atoll] saturates, 64-bit
    arithmetic wraps around, a [double] that does not fit converts to the
    smallest [gint64], [%s] prints a NULL pointer as [(null)], and a
    [GVariant] getter applied to a value of another type returns NULL,
    FALSE or 0.  Strings are the character sequences before the
    terminating NUL. *)

From Stdlib Require Import ZArith List String Ascii Bool Lia.
From Stdlib Require Import DecimalString DecimalPos SpecFloat.
Import ListNotations.

Set Warnings "-register-all".

Local Open Scope string_scope.
Local Open Scope Z_scope.
Local Open Scope list_scope.

Notation "a +++ b" := (String.append a b)
  (at level 60, right associativity) : string_scope.

(** ** C strings *)

(** A [char*] that may be NULL is an [option string]; [gchar*] values that
    the source never leaves NULL are plain strings. *)

Definition g_str_has_prefix (str prefix : string) : bool :=
  String.prefix prefix str.

(** [strcmp (a, b) == 0] *)
Definition streq (a b : string) : bool := String.eqb a b.

(** [g_strcmp0 (a, b) != 0]; NULL compares equal to NULL only. *)
Definition g_strcmp0_ne (a b : option string) : bool :=
  match a, b with
  | None, None => false
  | Some x, Some y => negb (String.eqb x y)
  | _, _ => true
  end.

(** [p == NULL] *)
Definition is_null {A : Type} (p : option A) : bool :=
  match p with
  | None => true
  | Some _ => false
  end.

(** Pointer arithmetic [s + n] on a string at least [n] characters long. *)
Fixpoint str_skip (n : nat) (s : string) : string :=
  match n, s with
  | O, _ => s
  | S n', String _ s' => str_skip n' s'
  | S _, EmptyString => EmptyString
  end.

Definition dquote : string := String (ascii_of_nat 34) EmptyString.
Definition newline : string := String (ascii_of_nat 10) EmptyString.

(** ** 64-bit integers *)

Module Int64.

Definition min_signed : Z := - 2 ^ 63.
Definition max_signed : Z := 2 ^ 63 - 1.
Definition modulus : Z := 2 ^ 64.

Definition in_range (z : Z) : bool :=
  (min_signed <=? z) && (z <=? max_signed).

(** Reduction of an integer to the signed 64-bit value with the same low
    64 bits (two's complement).  ISO C leaves signed overflow undefined;
    this is what the machine instruction computes. *)
Definition wrap (z : Z) : Z :=
  (z + 2 ^ 63) mod modulus - 2 ^ 63.

(** [a - b] on [gint64]. *)
Definition sub (a b : Z) : Z := wrap (a - b).

(** [(gint64) u] for a [guint64] [u]. *)
Definition of_uint64 (u : Z) : Z := wrap u.

(** Clamping to the range, as [strtoll] does on overflow. *)
Definition saturate (z : Z) : Z :=
  if z <? min_signed then min_signed
  else if max_signed <? z then max_signed
  else z.

End Int64.

(** [%lld] *)
Definition fmt_lld (z : Z) : string := NilZero.string_of_int (Z.to_int z).

(** [%s]; glibc prints a NULL argument as [(null)]. *)
Definition fmt_s (s : option string) : string :=
  match s with
  | Some x => x
  | None => "(null)"
  end.

(** ** [double] *)

(** IEEE 754 binary64 with round-to-nearest-even, on the specification
    floats of the standard library. *)
Module Double.

Definition t : Type := spec_float.

Definition prec : Z := 53.
Definition emax : Z := 1024.

Definition zero : t := S754_zero false.

(** [(double) z] for an integer [z]. *)
Definition of_Z (z : Z) : t := binary_normalize prec emax z 0 false.

(** The correctly rounded value of [m * 2 ^ e]. *)
Definition of_scaled (m e : Z) (neg : bool) : t :=
  binary_normalize prec emax (if neg then - m else m) e neg.

(** The correctly rounded value of the quotient [n / d] of two positive
    integers, with the given sign. *)
Definition of_ratio (neg : bool) (n d : Z) : t :=
  let '(q, e, l) := SFdiv_core_binary prec emax n 0 d 0 in
  binary_round_aux prec emax neg q e l.

Definition mul : t -> t -> t := SFmul prec emax.
Definition div : t -> t -> t := SFdiv prec emax.
Definition ltb : t -> t -> bool := SFltb.

(** The integer part of a finite value, rounded toward zero. *)
Definition truncate (x : t) : option Z :=
  match x with
  | S754_zero _ => Some 0
  | S754_finite s m e =>
      let a := match e with
               | Zneg k => Z.shiftr (Zpos m) (Zpos k)
               | _ => Z.shiftl (Zpos m) e
               end in
      Some (if s then - a else a)
  | S754_infinity _ | S754_nan => None
  end.

(** [(gint64) x].  Where the integer part does not fit, and for NaN, ISO C
    leaves the conversion undefined; x86-64 yields the smallest value. *)
Definition to_int64 (x : t) : Z :=
  match truncate x with
  | Some z => if Int64.in_range z then z else Int64.min_signed
  | None => Int64.min_signed
  end.

End Double.

(** ** [atoll] and [atof] *)

(** Both are the C library's: [atoll s] is [strtoll (s, NULL, 10)] and
    [atof s] is [strtod (s, NULL)], in the C locale. *)

Definition char_code (c : ascii) : Z := Z.of_N (N_of_ascii c).

Definition isspace (c : ascii) : bool :=
  let n := char_code c in
  (n =? 32) || ((9 <=? n) && (n <=? 13)).

Definition tolower (c : ascii) : ascii :=
  let n := char_code c in
  if (65 <=? n) && (n <=? 90) then ascii_of_N (Z.to_N (n + 32)) else c.

Definition digit_value (hex : bool) (c : ascii) : option Z :=
  let n := char_code c in
  if (48 <=? n) && (n <=? 57) then Some (n - 48)
  else if hex && (97 <=? n) && (n <=? 102) then Some (n - 87)
  else if hex && (65 <=? n) && (n <=? 70) then Some (n - 55)
  else None.

Fixpoint skip_space (s : string) : string :=
  match s with
  | String c rest => if isspace c then skip_space rest else s
  | EmptyString => s
  end.

(** An optional sign: whether it is [-], and what follows. *)
Definition read_sign (s : string) : bool * string :=
  match s with
  | String "-" rest => (true, rest)
  | String "+" rest => (false, rest)
  | _ => (false, s)
  end.

(** The longest run of digits at the head of [s], read onto the value
    [acc]: the value, the number of digits and what follows. *)
Fixpoint read_digits (hex : bool) (s : string) (acc count : Z)
  : Z * Z * string :=
  match s with
  | String c rest =>
      match digit_value hex c with
      | Some d =>
          read_digits hex rest ((if hex then 16 else 10) * acc + d) (count + 1)
      | None => (acc, count, s)
      end
  | EmptyString => (acc, count, s)
  end.

(** The integer at the head of [s], if there is one. *)
Definition parse_integer (nptr : string) : option Z :=
  let '(neg, s) := read_sign (skip_space nptr) in
  let '(n, count, _) := read_digits false s 0 0 in
  if count =? 0 then None else Some (if neg then - n else n).

Definition atoll (nptr : string) : Z :=
  match parse_integer nptr with
  | Some v => Int64.saturate v
  | None => 0
  end.

(** Whether [s] starts with [word], letter case ignored. *)
Fixpoint has_prefix_nocase (word s : string) : bool :=
  match word, s with
  | EmptyString, _ => true
  | String w word', String c s' =>
      Ascii.eqb w (tolower c) && has_prefix_nocase word' s'
  | String _ _, EmptyString => false
  end.

(** Digits with an optional radix point: the digits read as one integer,
    how many digits there are, how many of them follow the point, and
    what follows. *)
Definition read_mantissa (hex : bool) (s : string) : Z * Z * Z * string :=
  let '(ip, ni, r1) := read_digits hex s 0 0 in
  match r1 with
  | String "." r1' =>
      let '(m, nf, r2) := read_digits hex r1' ip 0 in
      if ni + nf =? 0 then (0, 0, 0, s) else (m, ni + nf, nf, r2)
  | _ => (ip, ni, 0, r1)
  end.

(** An optional exponent part introduced by [mark] (lower case): its
    value, 0 when there is none. *)
Definition read_exponent (mark : ascii) (s : string) : Z :=
  match s with
  | String c rest =>
      if Ascii.eqb (tolower c) mark then
        let '(neg, r) := read_sign rest in
        let '(x, count, _) := read_digits false r 0 0 in
        if count =? 0 then 0 else if neg then - x else x
      else 0
  | EmptyString => 0
  end.

(** The value of the digits [m] scaled by [10 ^ e10]. *)
Definition decimal_value (neg : bool) (m e10 : Z) : Double.t :=
  if m =? 0 then S754_zero neg
  else if 0 <=? e10 then Double.of_scaled (m * 10 ^ e10) 0 neg
  else Double.of_ratio neg m (10 ^ (- e10)).

(** The value of the digits [m] scaled by [2 ^ e2]. *)
Definition binary_value (neg : bool) (m e2 : Z) : Double.t :=
  if m =? 0 then S754_zero neg else Double.of_scaled m e2 neg.

(** The floating-point number at the head of [s], if there is one. *)
Definition parse_double (nptr : string) : option Double.t :=
  let '(neg, s) := read_sign (skip_space nptr) in
  if has_prefix_nocase "inf" s then Some (S754_infinity neg)
  else if has_prefix_nocase "nan" s then Some S754_nan
  else
    let hexadecimal :=
      if has_prefix_nocase "0x" s then
        let '(m, n, nf, rest) := read_mantissa true (str_skip 2 s) in
        if n =? 0 then None
        else Some (binary_value neg m (read_exponent "p" rest - 4 * nf))
      else None in
    match hexadecimal with
    | Some x => Some x
    | None =>
        let '(m, n, nf, rest) := read_mantissa false s in
        if n =? 0 then None
        else Some (decimal_value neg m (read_exponent "e" rest - nf))
    end.

Definition atof (nptr : string) : Double.t :=
  match parse_double nptr with
  | Some x => x
  | None => Double.zero
  end.

(** ** GVariant values *)

(** The D-Bus values the program tells apart.  [VString] is any value
    that [g_variant_get_string] reads (a string, an object path or a
    signature); [VDict] is [a{sv}] with the inner variants already unboxed,
    in wire order (duplicates are kept); [VOther] stands for a value of any
    other type. *)
Inductive GVariant : Type :=
| VString (s : string)
| VBool (b : bool)
| VInt64 (x : Z)
| VUInt64 (t : Z)
| VStrv (l : list string)
| VDict (entries : list (string * GVariant))
| VOther.

(** The types the source tests for; [G_VARIANT_TYPE_STRING_ARRAY] is
    [G_VARIANT_TYPE ("as")]. *)
Inductive GVariantType : Type :=
| G_VARIANT_TYPE_INT64
| G_VARIANT_TYPE_UINT64
| G_VARIANT_TYPE_STRING_ARRAY.

Definition g_variant_is_of_type (v : GVariant) (t : GVariantType) : bool :=
  match v, t with
  | VInt64 _, G_VARIANT_TYPE_INT64 => true
  | VUInt64 _, G_VARIANT_TYPE_UINT64 => true
  | VStrv _, G_VARIANT_TYPE_STRING_ARRAY => true
  | _, _ => false
  end.

(** The typed getters.  On a value of another type GLib's precondition
    check fails and the getter returns its fallback: NULL, FALSE or 0. *)
Definition g_variant_get_string (v : GVariant) : option string :=
  match v with
  | VString s => Some s
  | _ => None
  end.

Definition g_variant_get_boolean (v : GVariant) : bool :=
  match v with
  | VBool b => b
  | _ => false
  end.

Definition g_variant_get_int64 (v : GVariant) : Z :=
  match v with
  | VInt64 x => x
  | _ => 0
  end.

Definition g_variant_get_uint64 (v : GVariant) : Z :=
  match v with
  | VUInt64 t => t
  | _ => 0
  end.

Definition g_variant_get_strv (v : GVariant) : list string :=
  match v with
  | VStrv l => l
  | _ => []
  end.

(** [g_variant_lookup_value (dict, key, expected_type)]: the value of the
    first entry with that key, or NULL when there is none, when it has
    another type, or when [dict] is not a dictionary. *)
Fixpoint lookup_entry (key : string) (entries : list (string * GVariant))
  : option GVariant :=
  match entries with
  | [] => None
  | (k, v) :: rest => if streq k key then Some v else lookup_entry key rest
  end.

Definition g_variant_lookup_value (dict : GVariant) (key : string)
    (expected : GVariantType) : option GVariant :=
  match dict with
  | VDict entries =>
      match lookup_entry key entries with
      | Some v => if g_variant_is_of_type v expected then Some v else None
      | None => None
      end
  | _ => None
  end.

(** ** The session bus and the run monad *)

Record Bus : Type := {
  (** reply of [org.freedesktop.DBus.ListNames]; [None] when the call
      sets [error] *)
  bus_names : option (list string);
  (** whether [g_dbus_proxy_new_for_bus_sync] succeeds for a name *)
  bus_proxy : string -> bool;
  (** cached property of the player interface of a name *)
  bus_property : string -> string -> option GVariant;
  (** whether a method call on the player interface of a name, with the
      given [gint64] arguments, returns without an error *)
  bus_call : string -> string -> list Z -> bool
}.

Inductive Event : Type :=
| EvListNames
| EvProxyNew (name : string)
| EvCall (dest method : string) (args : list Z)
| EvStdout (text : string)
| EvStderr (text : string).

(** A run yields a value, or [None] when the process faults, together
    with the events up to that point. *)
Definition Run (A : Type) : Type := (option A * list Event)%type.

Definition ret {A : Type} (a : A) : Run A := (Some a, []).

Definition bind {A B : Type} (m : Run A) (k : A -> Run B) : Run B :=
  match m with
  | (Some a, log) => let (r, log') := k a in (r, log ++ log')
  | (None, log) => (None, log)
  end.

Definition emit (e : Event) : Run unit := (Some tt, [e]).

Definition fault {A : Type} : Run A := (None, []).

Declare Scope run_scope.
Delimit Scope run_scope with run.
Notation "x <- m ;; k" := (bind m (fun x => k))
  (at level 61, m at next level, right associativity) : run_scope.
Notation "m ;;; k" := (bind m (fun _ => k))
  (at level 61, right associativity) : run_scope.
Local Open Scope run_scope.

Definition value {A : Type} (r : Run A) : option A := fst r.
Definition events {A : Type} (r : Run A) : list Event := snd r.

(** A proxy is identified by the bus name it was created for; the object
    path and the interface are the same at every call site. *)
Definition GDBusProxy : Type := string.

Definition list_names (bus : Bus) : Run (option (list string)) :=
  emit EvListNames ;;; ret (bus_names bus).

Definition g_dbus_proxy_new_for_bus_sync (bus : Bus) (name : string)
  : Run (option GDBusProxy) :=
  emit (EvProxyNew name) ;;;
  ret (if bus_proxy bus name then Some name else None).

Definition g_dbus_proxy_get_cached_property (bus : Bus) (proxy : GDBusProxy)
    (property : string) : option GVariant :=
  bus_property bus proxy property.

(** A synchronous method call; the result says whether it succeeded. *)
Definition call_sync (bus : Bus) (dest method : string) (args : list Z)
  : Run bool :=
  emit (EvCall dest method args) ;;; ret (bus_call bus dest method args).

(** ** [find_players] *)

Definition mpris_prefix : string := "org.mpris.MediaPlayer2.".

(** The [for] loop over [names]; [playing] and [paused] are the two
    [GList]s, extended with [g_list_append]. *)
Fixpoint find_players_loop (bus : Bus) (names : list string)
    (playing_players paused_players : list string)
  : Run (list string * list string) :=
  match names with
  | [] => ret (playing_players, paused_players)
  | name :: rest =>
      if g_str_has_prefix name mpris_prefix then
        proxy <- g_dbus_proxy_new_for_bus_sync bus name ;;
        match proxy with
        | None => find_players_loop bus rest playing_players paused_players
        | Some proxy =>
            match g_dbus_proxy_get_cached_property bus proxy "PlaybackStatus" with
            | Some status_variant =>
                match g_variant_get_string status_variant with
                | None => fault
                | Some status =>
                    if streq status "Playing" then
                      find_players_loop bus rest
                        (playing_players ++ [name]) paused_players
                    else if streq status "Paused" then
                      find_players_loop bus rest
                        playing_players (paused_players ++ [name])
                    else
                      find_players_loop bus rest playing_players paused_players
                end
            | None => find_players_loop bus rest playing_players paused_players
            end
        end
      else find_players_loop bus rest playing_players paused_players
  end.

(** The empty list is the NULL [GList*]. *)
Definition find_players (bus : Bus) : Run (list string) :=
  reply <- list_names bus ;;
  match reply with
  | None => ret []
  | Some names =>
      buckets <- find_players_loop bus names [] [] ;;
      ret (fst buckets ++ snd buckets)
  end.

(** ** [get_players_json] *)

(** The values passed to the [printf] of one player: the record that the
    loop body assembles from the cached properties. *)
Record PlayerState : Type := {
  player_id : string;
  status : option string;
  position : Z;
  length : Z;
  title : option string;
  artist : string;
  icon : string
}.

(** The locals that the [Metadata] loop assigns. *)
Record Metadata : Type := {
  md_length : Z;
  md_title : option string;
  md_artist : option string
}.

(** One turn of the [while] loop over the entries of [Metadata]. *)
Definition metadata_entry (md : Metadata) (entry : string * GVariant)
  : Metadata :=
  let (key, value) := entry in
  if streq key "mpris:length" then
    if g_variant_is_of_type value G_VARIANT_TYPE_INT64 then
      {| md_length := g_variant_get_int64 value;
         md_title := md_title md; md_artist := md_artist md |}
    else if g_variant_is_of_type value G_VARIANT_TYPE_UINT64 then
      {| md_length := Int64.of_uint64 (g_variant_get_uint64 value);
         md_title := md_title md; md_artist := md_artist md |}
    else md
  else if streq key "xesam:title" then
    {| md_length := md_length md;
       md_title := g_variant_get_string value; md_artist := md_artist md |}
  else if streq key "xesam:artist" then
    if g_variant_is_of_type value G_VARIANT_TYPE_STRING_ARRAY then
      match g_variant_get_strv value with
      | first :: _ =>
          {| md_length := md_length md;
             md_title := md_title md; md_artist := Some first |}
      | [] => md
      end
    else md
  else md.

(** The body of the [for] loop over the players, up to the [printf]:
    [None] where the source takes [continue].  Iterating a [Metadata]
    value that is not an [a{sv}] dictionary is undefined in GLib. *)
Definition aggregate (bus : Bus) (player_name : string)
  : Run (option PlayerState) :=
  player_proxy <- g_dbus_proxy_new_for_bus_sync bus player_name ;;
  match player_proxy with
  | None => ret None
  | Some player_proxy =>
      let status :=
        match g_dbus_proxy_get_cached_property bus player_proxy
                "PlaybackStatus" with
        | Some prop => g_variant_get_string prop
        | None => Some ""
        end in
      let position :=
        match g_dbus_proxy_get_cached_property bus player_proxy "Position" with
        | Some prop =>
            if g_variant_is_of_type prop G_VARIANT_TYPE_INT64 then
              g_variant_get_int64 prop
            else if g_variant_is_of_type prop G_VARIANT_TYPE_UINT64 then
              Int64.of_uint64 (g_variant_get_uint64 prop)
            else 0
        | None => 0
        end in
      let md0 :=
        {| md_length := 0; md_title := Some ""; md_artist := None |} in
      md <- match g_dbus_proxy_get_cached_property bus player_proxy
                    "Metadata" with
            | Some (VDict entries) => ret (fold_left metadata_entry entries md0)
            | Some _ => fault
            | None => ret md0
            end ;;
      let icon_name :=
        if g_str_has_prefix player_name mpris_prefix
        then str_skip (String.length mpris_prefix) player_name
        else "" in
      ret (Some {| player_id := player_name;
                   status := status;
                   position := position;
                   length := md_length md;
                   title := md_title md;
                   artist := match md_artist md with
                             | Some a => a
                             | None => ""
                             end;
                   icon := icon_name |})
  end.

Definition json_string (key value : string) : string :=
  dquote +++ key +++ dquote +++ ":" +++ dquote +++ value +++ dquote.

Definition json_number (key : string) (value : Z) : string :=
  dquote +++ key +++ dquote +++ ":" +++ fmt_lld value.

(** The format string of [g_string_append_printf]. *)
Definition player_json (st : PlayerState) : string :=
  "{" +++ json_string "player_id" (player_id st) +++
  "," +++ json_string "status" (fmt_s (status st)) +++
  "," +++ json_number "position" (position st) +++
  "," +++ json_number "length" (length st) +++
  "," +++ json_string "title" (fmt_s (title st)) +++
  "," +++ json_string "artist" (artist st) +++
  "," +++ json_string "icon" (icon st) +++ "}".

(** The [for] loop over the list of players; [json_str] is the [GString]
    being built. *)
Fixpoint get_players_json_loop (bus : Bus) (l : list string)
    (json_str : string) : Run string :=
  match l with
  | [] => ret json_str
  | player_name :: next =>
      st <- aggregate bus player_name ;;
      match st with
      | None => get_players_json_loop bus next json_str
      | Some st =>
          let json_str := json_str +++ player_json st in
          let json_str :=
            match next with
            | _ :: _ => json_str +++ ","
            | [] => json_str
            end in
          get_players_json_loop bus next json_str
      end
  end.

(** Discovery and the loop read the same [bus]: the bus is taken not to
    change while one snapshot is built.  [get_players_json_loop] and
    [aggregate] take any list of players and any bus, so what the loop does
    with a player that has left since discovery, or whose status has
    changed, is stated on them. *)
Definition get_players_json (bus : Bus) : Run string :=
  players <- find_players bus ;;
  match players with
  | [] => ret ("[" +++ "]")
  | _ :: _ =>
      json_str <- get_players_json_loop bus players "[" ;;
      ret (json_str +++ "]")
  end.

(** ** The commands *)

Definition handle_get (bus : Bus) : Run Z :=
  json_data <- get_players_json bus ;;
  emit (EvStdout (json_data +++ newline)) ;;;
  ret 0.

(** The reply and the error of the [PlayPause] call are dropped. *)
Definition handle_play_pause (bus : Bus) (player_id : option string) : Run Z :=
  match player_id with
  | None => ret 1
  | Some player_id =>
      call_sync bus player_id "PlayPause" [] ;;;
      ret 0
  end.

Definition handle_set_position (bus : Bus) (player_id : option string)
    (pos_str : string) : Run Z :=
  match player_id with
  | None => ret 1
  | Some player_id =>
      proxy <- g_dbus_proxy_new_for_bus_sync bus player_id ;;
      match proxy with
      | None => ret 1
      | Some proxy =>
          match g_dbus_proxy_get_cached_property bus proxy "CanSeek" with
          | None => ret 1
          | Some can_seek_variant =>
              if negb (g_variant_get_boolean can_seek_variant) then ret 1
              else
                match g_dbus_proxy_get_cached_property bus proxy "Position" with
                | None => ret 1
                | Some pos_variant =>
                    let current_pos := g_variant_get_int64 pos_variant in
                    let offset := Int64.sub (atoll pos_str) current_pos in
                    ok <- call_sync bus proxy "Seek" [offset] ;;
                    if ok then ret 0 else ret 1
                end
          end
      end
  end.

Definition handle_set_position_percent (bus : Bus) (player_id : option string)
    (percent_str : string) : Run Z :=
  match player_id with
  | None => ret 1
  | Some player_id =>
      proxy <- g_dbus_proxy_new_for_bus_sync bus player_id ;;
      match proxy with
      | None => ret 1
      | Some proxy =>
          match g_dbus_proxy_get_cached_property bus proxy "CanSeek" with
          | None => ret 1
          | Some can_seek_variant =>
              if negb (g_variant_get_boolean can_seek_variant) then ret 1
              else
                let percentage := atof percent_str in
                if Double.ltb percentage Double.zero
                   || Double.ltb (Double.of_Z 100) percentage
                then ret 1
                else
                  match g_dbus_proxy_get_cached_property bus proxy
                          "Metadata" with
                  | None => ret 1
                  | Some metadata =>
                      match g_variant_lookup_value metadata "mpris:length"
                              G_VARIANT_TYPE_INT64 with
                      | None => ret 1
                      | Some length_variant =>
                          let track_length :=
                            g_variant_get_int64 length_variant in
                          if track_length <=? 0 then ret 1
                          else
                            match g_dbus_proxy_get_cached_property bus proxy
                                    "Position" with
                            | None => ret 1
                            | Some pos_variant =>
                                let current_pos :=
                                  g_variant_get_int64 pos_variant in
                                let desired_pos :=
                                  Double.to_int64
                                    (Double.mul
                                       (Double.div percentage
                                                   (Double.of_Z 100))
                                       (Double.of_Z track_length)) in
                                let offset :=
                                  Int64.sub desired_pos current_pos in
                                ok <- call_sync bus proxy "Seek" [offset] ;;
                                if ok then ret 0 else ret 1
                            end
                      end
                  end
          end
      end
  end.

(** ** The [listen] command *)

(** [previous_json] is the function's static variable, passed in and
    handed back together with the returned [gboolean]. *)
Definition high_frequency_poll (previous_json : option string)
    (user_data : Bus) : Run (bool * option string) :=
  current_json <- get_players_json user_data ;;
  if is_null previous_json || g_strcmp0_ne previous_json (Some current_json)
  then
    emit (EvStdout (current_json +++ newline)) ;;;
    ret (true, Some current_json)
  else ret (true, previous_json).

(** The main loop with its one timeout source.  [ticks] holds the state of
    the bus at each expiry of the 200 ms timer, up to the moment the
    process is killed; the source stays installed while the callback
    returns [G_SOURCE_CONTINUE]. *)
Fixpoint g_main_loop_run (ticks : list Bus) (previous_json : option string)
  : Run (option string) :=
  match ticks with
  | [] => ret previous_json
  | bus_now :: later =>
      r <- high_frequency_poll previous_json bus_now ;;
      if fst r then g_main_loop_run later (snd r) else ret (snd r)
  end.

(** How the process ends: [main] returns, or the main loop is still
    running when the process is terminated from outside. *)
Inductive Exit : Type :=
| Exited (code : Z)
| Killed.

(** Nothing quits the loop, so the [return 0] after it is never reached. *)
Definition handle_listen (ticks : list Bus) : Run Exit :=
  g_main_loop_run ticks None ;;; ret Killed.

(** ** [main] *)

Definition usage (argv0 : string) : Run unit :=
  emit (EvStderr ("Usage: " +++ argv0 +++
                  " <command> [player_id] [args...]" +++ newline)) ;;;
  emit (EvStderr ("Commands:" +++ newline +++ "  get" +++ newline +++
                  "  listen" +++ newline +++
                  "  play-pause [player_id]" +++ newline +++
                  "  set-position [player_id] <usecs>" +++ newline +++
                  "  set-position-percent [player_id] <%>" +++ newline)).

Definition arg (argv : list string) (i : nat) : string := nth i argv "".

(** [session] is what [g_bus_get_sync] returns; [ticks] is only used by
    [listen]. *)
Definition main (session : option Bus) (ticks : list Bus)
    (argv : list string) : Run Exit :=
  let argc := Z.of_nat (List.length argv) in
  if argc <? 2 then
    usage (fmt_s (nth_error argv 0)) ;;; ret (Exited 1)
  else
    match session with
    | None => ret (Exited 1)
    | Some bus =>
        let command := arg argv 1 in
        if streq command "get" then
          result <- handle_get bus ;; ret (Exited result)
        else if streq command "listen" then
          handle_listen ticks
        else if streq command "play-pause" then
          player <- (if 2 <? argc then ret (Some (arg argv 2))
                     else players <- find_players bus ;;
                          ret (hd_error players)) ;;
          result <- match player with
                    | Some player => handle_play_pause bus (Some player)
                    | None => ret 1
                    end ;;
          ret (Exited result)
        else if streq command "set-position" then
          result <- (if 3 <? argc then
                       handle_set_position bus (Some (arg argv 2)) (arg argv 3)
                     else if 2 <? argc then
                       players <- find_players bus ;;
                       match players with
                       | first :: _ =>
                           handle_set_position bus (Some first) (arg argv 2)
                       | [] => ret 1
                       end
                     else ret 1) ;;
          ret (Exited result)
        else if streq command "set-position-percent" then
          result <- (if 3 <? argc then
                       handle_set_position_percent bus (Some (arg argv 2))
                                                   (arg argv 3)
                     else if 2 <? argc then
                       players <- find_players bus ;;
                       match players with
                       | first :: _ =>
                           handle_set_position_percent bus (Some first)
                                                       (arg argv 2)
                       | [] => ret 1
                       end
                     else ret 1) ;;
          ret (Exited result)
        else ret (Exited 1)
    end.

(** ** Vocabulary of the statements *)

(** What a run wrote to stdout, and the bus operations it performed. *)
Fixpoint stdout_of (log : list Event) : list string :=
  match log with
  | [] => []
  | EvStdout text :: rest => text :: stdout_of rest
  | _ :: rest => stdout_of rest
  end.

Definition is_bus_operation (e : Event) : bool :=
  match e with
  | EvListNames | EvProxyNew _ | EvCall _ _ _ => true
  | EvStdout _ | EvStderr _ => false
  end.

Definition bus_operations (log : list Event) : list Event :=
  filter is_bus_operation log.

(** The method calls made on players: destination, method, arguments. *)
Fixpoint method_calls (log : list Event)
  : list (string * string * list Z) :=
  match log with
  | [] => []
  | EvCall dest method args :: rest => (dest, method, args) :: method_calls rest
  | _ :: rest => method_calls rest
  end.

(** A log without output and without method calls: it only lists names
    and creates proxies. *)
Definition quiet (log : list Event) : Prop :=
  stdout_of log = [] /\ method_calls log = [].

Section Discovery.

Variable bus : Bus.

(** The string value of the cached [PlaybackStatus] of a name. *)
Definition playback_status (name : string) : option string :=
  match bus_property bus name "PlaybackStatus" with
  | Some (VString s) => Some s
  | _ => None
  end.

(** A name that [find_players] classifies: it has the MPRIS prefix and a
    proxy can be created for it. *)
Definition candidate (name : string) : bool :=
  g_str_has_prefix name mpris_prefix && bus_proxy bus name.

Definition has_status (s : string) (name : string) : bool :=
  candidate name &&
  match playback_status name with
  | Some t => streq t s
  | None => false
  end.

(** The cached [PlaybackStatus], when there is one, is a D-Bus string. *)
Definition status_typed (name : string) : bool :=
  match bus_property bus name "PlaybackStatus" with
  | Some (VString _) | None => true
  | Some _ => false
  end.

Definition statuses_typed (names : list string) : Prop :=
  forall n, In n names -> candidate n = true -> status_typed n = true.

End Discovery.

(** The payloads that a change notifier holding [held] emits for a
    sequence of payloads, one per tick: a payload is emitted when nothing
    is held yet or when it differs from the held one, and then becomes the
    held one. *)
Fixpoint emissions (held : option string) (payloads : list string)
  : list string :=
  match payloads with
  | [] => []
  | p :: rest =>
      match held with
      | Some h =>
          if String.eqb h p then emissions held rest
          else p :: emissions (Some p) rest
      | None => p :: emissions (Some p) rest
      end
  end.

(** The payload held after those ticks: the last one emitted, if any. *)
Definition held_after (held : option string) (payloads : list string)
  : option string :=
  last (map Some (emissions held payloads)) held.

(** [z] is the value [x] rounded toward zero: it has the sign of [x], and
    its magnitude is the largest integer not above the magnitude
    [m * 2 ^ e] of [x]. *)
Definition rounded_toward_zero (x : Double.t) (z : Z) : Prop :=
  match x with
  | S754_zero _ => z = 0
  | S754_finite s m e =>
      (if s then z <= 0 else 0 <= z) /\
      (0 <= e -> Z.abs z = Zpos m * 2 ^ e) /\
      (e < 0 -> Z.abs z * 2 ^ (- e) <= Zpos m < (Z.abs z + 1) * 2 ^ (- e))
  | S754_infinity _ | S754_nan => False
  end.

(** A percentage that lies in the closed interval from 0 to 100; NaN does
    not. *)
Definition in_percent_range (percentage : Double.t) : bool :=
  SFleb Double.zero percentage && SFleb percentage (Double.of_Z 100).

(** A percentage below 0 or above 100. *)
Definition out_of_percent_range (percentage : Double.t) : bool :=
  Double.ltb percentage Double.zero ||
  Double.ltb (Double.of_Z 100) percentage.

(** The [mpris:length] that [handle_set_position_percent] reads from the
    cached [Metadata] of a player: a signed 64-bit entry. *)
Definition track_length_is (bus : Bus) (name : string) (len : Z) : Prop :=
  exists entries,
    bus_property bus name "Metadata" = Some (VDict entries) /\
    lookup_entry "mpris:length" entries = Some (VInt64 len).

(** The target as the specification words it, for a whole percentage [n]:
    [(n / 100) * len] in exact arithmetic, rounded toward zero. *)
Definition exact_percent_target (n len : Z) : Z := Z.quot (n * len) 100.

(** The quotient [n / 100.0] is a positive normal number [m * 2 ^ e] whose
    mantissa has 53 bits and lies within half a unit in the last place of
    [n / 100]. *)
Definition hundredth_ok (n : Z) : bool :=
  match Double.div (Double.of_Z n) (Double.of_Z 100) with
  | S754_finite false m e =>
      (2 ^ 52 <=? Zpos m) && (Zpos m <? 2 ^ 53) &&
      (-59 <=? e) && (e <=? -52) &&
      (Z.abs (100 * Zpos m - n * 2 ^ (- e)) <=? 50)
  | _ => false
  end.

(** ** Buses for the examples *)

(** A bus given by the reply of [ListNames], the cached properties of each
    player and the calls that fail; every proxy can be created. *)
Definition lookup_player (name : string)
    (players : list (string * list (string * GVariant)))
  : option (list (string * GVariant)) :=
  match find (fun p => streq (fst p) name) players with
  | Some p => Some (snd p)
  | None => None
  end.

Definition make_bus (names : option (list string))
    (players : list (string * list (string * GVariant)))
    (failing : list string) : Bus :=
  {| bus_names := names;
     bus_proxy := fun _ => true;
     bus_property := fun name property =>
       match lookup_player name players with
       | Some props => lookup_entry property props
       | None => None
       end;
     bus_call := fun dest _ _ => negb (existsb (streq dest) failing) |}.

Definition P1 : string := "org.mpris.MediaPlayer2.vlc".
Definition P2 : string := "org.mpris.MediaPlayer2.spotify".
Definition P3 : string := "org.mpris.MediaPlayer2.firefox.instance_1_42".
Definition P4 : string := "org.mpris.MediaPlayer2.mpv".

(** P1 paused, P2 and P3 playing, P4 stopped, among other bus names. *)
Definition three_players : Bus :=
  make_bus
    (Some ["org.freedesktop.DBus"; ":1.7"; P1; "org.gnome.Shell"; P2; P4; P3])
    [(P1, [("PlaybackStatus", VString "Paused"); ("CanSeek", VBool true);
           ("Position", VInt64 5000000);
           ("Metadata", VDict [("mpris:length", VInt64 200000000);
                               ("xesam:title", VString "Intro");
                               ("xesam:artist", VStrv ["A"; "B"])])]);
     (P2, [("PlaybackStatus", VString "Playing"); ("CanSeek", VBool false)]);
     (P3, [("PlaybackStatus", VString "Playing")]);
     (P4, [("PlaybackStatus", VString "Stopped"); ("CanSeek", VBool true);
           ("Position", VInt64 0)])]
    [].

(** One seekable player, 10 s into a track of 200 s. *)
Definition one_player : Bus :=
  make_bus
    (Some ["org.freedesktop.DBus"; P1])
    [(P1, [("PlaybackStatus", VString "Playing"); ("CanSeek", VBool true);
           ("Position", VInt64 10000000);
           ("Metadata", VDict [("mpris:length", VInt64 200000000)])])]
    [].

(** A seekable player at the start of a track of 100 s. *)
Definition hundred_second_player : Bus :=
  make_bus
    (Some ["org.freedesktop.DBus"; P1])
    [(P1, [("PlaybackStatus", VString "Playing"); ("CanSeek", VBool true);
           ("Position", VInt64 0);
           ("Metadata", VDict [("mpris:length", VInt64 100000000)])])]
    [].

(** The same player, refusing every method call. *)
Definition deaf_player : Bus :=
  make_bus
    (Some ["org.freedesktop.DBus"; P1])
    [(P1, [("PlaybackStatus", VString "Playing"); ("CanSeek", VBool true);
           ("Position", VInt64 10000000);
           ("Metadata", VDict [("mpris:length", VInt64 200000000)])])]
    [P1].

(** A bus without media players, and one whose [ListNames] fails. *)
Definition no_players : Bus :=
  make_bus (Some ["org.freedesktop.DBus"; ":1.7"; "org.gnome.Shell"]) [] [].

Definition broken_bus : Bus := make_bus None [] [].

(** A player that exposes no property at all. *)
Definition bare_player : Bus := make_bus (Some [P4]) [] [].

(** ** Vocabulary of the further properties *)

(** The bus traffic of discovery: the name listing, and proxies for names
    with the MPRIS prefix. *)
Definition discovery_event (e : Event) : bool :=
  match e with
  | EvListNames => true
  | EvProxyNew name => g_str_has_prefix name mpris_prefix
  | EvCall _ _ _ | EvStdout _ | EvStderr _ => false
  end.

(** The first listed name classified Playing, or else the first one
    classified Paused. *)
Definition default_player (bus : Bus) (names : list string) : option string :=
  match find (has_status bus "Playing") names with
  | Some p => Some p
  | None => find (has_status bus "Paused") names
  end.

(** The cached [Metadata], when there is one, is an [a{sv}] dictionary. *)
Definition metadata_typed (bus : Bus) (name : string) : bool :=
  match bus_property bus name "Metadata" with
  | Some (VDict _) | None => true
  | Some _ => false
  end.

(** No element equals its successor. *)
Fixpoint distinct_neighbours (l : list string) : Prop :=
  match l with
  | a :: (b :: _) as rest => a <> b /\ distinct_neighbours rest
  | _ => True
  end.

(** What the loop over the entries leaves in the three locals, for a
    dictionary without repeated keys, by the entry found under each key. *)
Definition length_of_entry (found : option GVariant) (before : Z) : Z :=
  match found with
  | Some (VInt64 x) => x
  | Some (VUInt64 t) => Int64.of_uint64 t
  | _ => before
  end.

Definition title_of_entry (found : option GVariant) (before : option string)
  : option string :=
  match found with
  | Some v => g_variant_get_string v
  | None => before
  end.

Definition artist_of_entry (found : option GVariant) (before : option string)
  : option string :=
  match found with
  | Some (VStrv (first :: _)) => Some first
  | _ => before
  end.

(** The bus [bus] with the proxies of the names in [dead] failing. *)
Definition with_unreachable (bus : Bus) (dead : list string) : Bus :=
  {| bus_names := bus_names bus;
     bus_proxy := fun name =>
       negb (existsb (streq name) dead) && bus_proxy bus name;
     bus_property := bus_property bus;
     bus_call := bus_call bus |}.

(** A seekable player whose track length is published as an unsigned
    64-bit value. *)
Definition unsigned_length_player : Bus :=
  make_bus
    (Some [P1])
    [(P1, [("PlaybackStatus", VString "Playing"); ("CanSeek", VBool true);
           ("Position", VUInt64 10000000);
           ("Metadata", VDict [("mpris:length", VUInt64 200000000)])])]
    [].

(** A seekable player whose track length is 0. *)
Definition zero_length_player : Bus :=
  make_bus
    (Some [P1])
    [(P1, [("PlaybackStatus", VString "Playing"); ("CanSeek", VBool true);
           ("Position", VInt64 0);
           ("Metadata", VDict [("mpris:length", VInt64 0)])])]
    [].

(** The five commands of [main]. *)
Definition is_command (command : string) : bool :=
  existsb (streq command)
          ["get"; "listen"; "play-pause"; "set-position";
           "set-position-percent"].

(** The text does not go on with a decimal digit. *)
Definition no_digit_ahead (rest : string) : Prop :=
  match rest with
  | String c _ => digit_value false c = None
  | EmptyString => True
  end.

(** A name in the MPRIS namespace, and an event of discovery. *)
Definition prefixed (name : string) : Prop :=
  g_str_has_prefix name mpris_prefix = true.

Definition discovery (e : Event) : Prop := discovery_event e = true.

(** * Properties *)

(** ** The run monad *)

Lemma bind_value {A B : Type} (m : Run A) (k : A -> Run B) :
  value (bind m k) =
  match value m with
  | Some a => value (k a)
  | None => None
  end.
Proof.
  destruct m as [[a|] log]; cbn; [destruct (k a)|]; reflexivity.
Qed.

Lemma bind_events {A B : Type} (m : Run A) (k : A -> Run B) :
  events (bind m k) =
  match value m with
  | Some a => events m ++ events (k a)
  | None => events m
  end.
Proof.
  destruct m as [[a|] log]; cbn; [destruct (k a)|]; reflexivity.
Qed.

Lemma run_eta {A : Type} (r : Run A) : r = (value r, events r).
Proof. destruct r; reflexivity. Qed.

Lemma stdout_of_app (l1 l2 : list Event) :
  stdout_of (l1 ++ l2) = stdout_of l1 ++ stdout_of l2.
Proof.
  induction l1 as [|e l1 IH]; [reflexivity|].
  destruct e; cbn; rewrite IH; reflexivity.
Qed.

Lemma method_calls_app (l1 l2 : list Event) :
  method_calls (l1 ++ l2) = method_calls l1 ++ method_calls l2.
Proof.
  induction l1 as [|e l1 IH]; [reflexivity|].
  destruct e; cbn; rewrite IH; reflexivity.
Qed.

Lemma quiet_nil : quiet [].
Proof. split; reflexivity. Qed.

Lemma quiet_app (l1 l2 : list Event) : quiet l1 -> quiet l2 -> quiet (l1 ++ l2).
Proof.
  intros [H1 H2] [H3 H4]. split.
  - rewrite stdout_of_app, H1, H3. reflexivity.
  - rewrite method_calls_app, H2, H4. reflexivity.
Qed.

Lemma quiet_bind {A B : Type} (m : Run A) (k : A -> Run B) :
  quiet (events m) -> (forall a, quiet (events (k a))) ->
  quiet (events (bind m k)).
Proof.
  intros Hm Hk. rewrite bind_events.
  destruct (value m); [apply quiet_app|]; auto.
Qed.

Lemma quiet_proxy_new (bus : Bus) (name : string) :
  quiet (events (g_dbus_proxy_new_for_bus_sync bus name)).
Proof. split; reflexivity. Qed.

(** Splits a run along its binds and closes the parts that are plainly
    quiet; the case analyses of the code are left to the proof. *)
Ltac quiet_run :=
  repeat first
    [ apply quiet_nil
    | apply quiet_proxy_new
    | apply quiet_bind; [|intros ?] ].

(** ** 64-bit arithmetic *)

Lemma wrap_in_range (z : Z) : Int64.in_range z = true -> Int64.wrap z = z.
Proof.
  unfold Int64.in_range, Int64.wrap, Int64.min_signed, Int64.max_signed,
    Int64.modulus.
  intros H. apply andb_prop in H. destruct H as [H1 H2].
  apply Z.leb_le in H1. apply Z.leb_le in H2.
  rewrite Z.mod_small; lia.
Qed.

(** ** Discovery *)

Section DiscoveryFacts.

Variable bus : Bus.

Lemma statuses_typed_tail (n : string) (names : list string) :
  statuses_typed bus (n :: names) -> statuses_typed bus names.
Proof. intros H m Hm. apply H. now right. Qed.

Lemma find_players_loop_spec (names : list string) :
  statuses_typed bus names ->
  forall playing paused,
    find_players_loop bus names playing paused =
    (Some (playing ++ filter (has_status bus "Playing") names,
           paused ++ filter (has_status bus "Paused") names),
     map EvProxyNew
         (filter (fun n => g_str_has_prefix n mpris_prefix) names)).
Proof.
  induction names as [|name rest IH]; intros Hty playing paused.
  - simpl. unfold ret. now rewrite !app_nil_r.
  - specialize (IH (statuses_typed_tail _ _ Hty)).
    pose proof (Hty name (or_introl eq_refl)) as Hname.
    cbn [find_players_loop filter].
    unfold has_status, candidate, playback_status, status_typed in *.
    unfold g_dbus_proxy_get_cached_property.
    destruct (g_str_has_prefix name mpris_prefix) eqn:Hp; cbn [andb].
    2: { apply IH. }
    unfold g_dbus_proxy_new_for_bus_sync.
    destruct (bus_proxy bus name) eqn:Hx; cbn [andb].
    2: { cbn. rewrite IH. reflexivity. }
    specialize (Hname eq_refl).
    destruct (bus_property bus name "PlaybackStatus") as [v|] eqn:Hv.
    2: { cbn. rewrite Hv. rewrite IH. reflexivity. }
    destruct v; try discriminate Hname.
    cbn. rewrite Hv. cbn.
    destruct (streq s "Playing") eqn:E1.
    + apply String.eqb_eq in E1. subst s. cbn.
      rewrite IH. now rewrite <- !app_assoc.
    + destruct (streq s "Paused") eqn:E2.
      * rewrite IH. now rewrite <- !app_assoc.
      * rewrite IH. reflexivity.
Qed.

Lemma find_players_spec (names : list string) :
  bus_names bus = Some names ->
  statuses_typed bus names ->
  find_players bus =
  (Some (filter (has_status bus "Playing") names ++
         filter (has_status bus "Paused") names),
   EvListNames ::
   map EvProxyNew
       (filter (fun n => g_str_has_prefix n mpris_prefix) names)).
Proof.
  intros Hn Hty. unfold find_players, list_names. cbn. rewrite Hn.
  rewrite (find_players_loop_spec names Hty). cbn.
  now rewrite app_nil_r.
Qed.

Lemma find_players_error :
  bus_names bus = None -> find_players bus = (Some [], [EvListNames]).
Proof.
  intros Hn. unfold find_players, list_names. cbn. now rewrite Hn.
Qed.

Lemma find_players_loop_quiet (names : list string) :
  forall playing paused,
    quiet (events (find_players_loop bus names playing paused)).
Proof.
  induction names as [|name rest IH]; intros playing paused.
  - quiet_run.
  - cbn [find_players_loop].
    destruct (g_str_has_prefix name mpris_prefix); [|apply IH].
    quiet_run.
    destruct a as [proxy|]; [|apply IH].
    destruct (g_dbus_proxy_get_cached_property bus proxy "PlaybackStatus")
      as [v|]; [|apply IH].
    destruct (g_variant_get_string v) as [s|]; [|quiet_run].
    destruct (streq s "Playing"); [apply IH|].
    destruct (streq s "Paused"); apply IH.
Qed.

Lemma find_players_quiet : quiet (events (find_players bus)).
Proof.
  unfold find_players. apply quiet_bind; [split; reflexivity|].
  intros [names|]; [|quiet_run].
  apply quiet_bind; [apply find_players_loop_quiet|intros; quiet_run].
Qed.

Lemma has_status_inv (s name : string) :
  has_status bus s name = true ->
  g_str_has_prefix name mpris_prefix = true /\
  bus_proxy bus name = true /\
  bus_property bus name "PlaybackStatus" = Some (VString s).
Proof.
  unfold has_status, candidate, playback_status. intros H.
  apply andb_prop in H. destruct H as [Hc Hs].
  apply andb_prop in Hc. destruct Hc as [Hp Hx].
  repeat split; trivial.
  destruct (bus_property bus name "PlaybackStatus") as [[]|];
    try discriminate Hs.
  apply String.eqb_eq in Hs. now subst.
Qed.

End DiscoveryFacts.

Lemma filter_none {A : Type} (f : A -> bool) (l : list A) :
  (forall x, In x l -> f x = false) -> filter f l = [].
Proof.
  induction l as [|a l IH]; intros H; [reflexivity|].
  cbn. rewrite (H a (or_introl eq_refl)). apply IH.
  intros x Hx. apply H. now right.
Qed.

(** Discharges [statuses_typed] on a bus whose names are given. *)
Ltac typed_statuses :=
  let n := fresh "n" in
  let H := fresh "H" in
  intros n H _; cbn in H;
  repeat (destruct H as [<-|H]; [reflexivity|]);
  contradiction.

(** C1: when name listing returns [names] (each cached status being a
    string), [find_players] yields the names classified Playing, in
    discovery order, followed by the names classified Paused, in discovery
    order; every name it yields carries the MPRIS prefix and has status
    Playing or Paused, and a name whose status is anything else, or absent,
    is not in the result. *)
Theorem find_players_ranking (bus : Bus) (names : list string) :
  bus_names bus = Some names ->
  statuses_typed bus names ->
  exists players,
    value (find_players bus) = Some players /\
    players = filter (has_status bus "Playing") names ++
              filter (has_status bus "Paused") names /\
    (forall p, In p players ->
       In p names /\
       g_str_has_prefix p mpris_prefix = true /\
       (bus_property bus p "PlaybackStatus" = Some (VString "Playing") \/
        bus_property bus p "PlaybackStatus" = Some (VString "Paused"))) /\
    (forall n,
       bus_property bus n "PlaybackStatus" <> Some (VString "Playing") ->
       bus_property bus n "PlaybackStatus" <> Some (VString "Paused") ->
       ~ In n players).
Proof.
  intros Hn Hty.
  assert (Hin : forall p,
    In p (filter (has_status bus "Playing") names ++
          filter (has_status bus "Paused") names) ->
    In p names /\
    g_str_has_prefix p mpris_prefix = true /\
    (bus_property bus p "PlaybackStatus" = Some (VString "Playing") \/
     bus_property bus p "PlaybackStatus" = Some (VString "Paused"))).
  { intros p Hp. apply in_app_or in Hp.
    destruct Hp as [Hp|Hp]; apply filter_In in Hp; destruct Hp as [Hp Hs];
      apply has_status_inv in Hs; destruct Hs as (Hpre & _ & Hs); auto. }
  eexists. split; [|split; [reflexivity|split]].
  - rewrite (find_players_spec bus names Hn Hty). reflexivity.
  - exact Hin.
  - intros n H1 H2 Hp. apply Hin in Hp.
    destruct Hp as (_ & _ & [H|H]); contradiction.
Qed.

(** The ranking of P1 (paused), P2 (playing), P3 (playing), discovered in
    that order among other names, is P2, P3, P1. *)
Lemma find_players_ranking_witness :
  value (find_players three_players) = Some [P2; P3; P1].
Proof.
  destruct (find_players_ranking three_players
              ["org.freedesktop.DBus"; ":1.7"; P1; "org.gnome.Shell"; P2; P4; P3]
              eq_refl ltac:(typed_statuses))
    as (players & Hv & Hp & _).
  rewrite Hv, Hp. reflexivity.
Defined.

(** ** Snapshots *)

Lemma get_players_json_empty (bus : Bus) :
  value (find_players bus) = Some [] ->
  get_players_json bus = (Some "[]", events (find_players bus)).
Proof.
  intros H. unfold get_players_json.
  rewrite (run_eta (find_players bus)), H. cbn.
  now rewrite app_nil_r.
Qed.

Lemma main_get (bus : Bus) (ticks : list Bus) (argv0 : string) :
  main (Some bus) ticks [argv0; "get"] =
  bind (handle_get bus) (fun result => ret (Exited result)).
Proof. reflexivity. Qed.

(** C8: [find_players] returns the empty list, without failing, when the
    name listing fails and when no listed name qualifies; [get] then prints
    exactly the line [[]] and exits with 0. *)
Theorem no_players_empty_array (bus : Bus) :
  (bus_names bus = None \/
   exists names,
     bus_names bus = Some names /\
     statuses_typed bus names /\
     forall n, In n names ->
       has_status bus "Playing" n = false /\
       has_status bus "Paused" n = false) ->
  value (find_players bus) = Some [] /\
  value (get_players_json bus) = Some "[]" /\
  value (handle_get bus) = Some 0 /\
  stdout_of (events (handle_get bus)) = ["[]" +++ newline] /\
  forall ticks argv0,
    value (main (Some bus) ticks [argv0; "get"]) = Some (Exited 0) /\
    stdout_of (events (main (Some bus) ticks [argv0; "get"])) =
    ["[]" +++ newline].
Proof.
  intros H.
  assert (Hf : value (find_players bus) = Some []).
  { destruct H as [H|(names & Hn & Hty & Hq)].
    - now rewrite (find_players_error bus H).
    - rewrite (find_players_spec bus names Hn Hty). cbn.
      rewrite !filter_none; [reflexivity| |]; intros x Hx; now apply Hq. }
  pose proof (get_players_json_empty bus Hf) as Hj.
  destruct (find_players_quiet bus) as [Hq _].
  assert (Hg : handle_get bus =
               (Some 0, events (find_players bus) ++ [EvStdout ("[]" +++ newline)])).
  { unfold handle_get. rewrite Hj. reflexivity. }
  repeat split.
  - exact Hf.
  - now rewrite Hj.
  - now rewrite Hg.
  - rewrite Hg. cbn [events snd]. rewrite stdout_of_app, Hq. reflexivity.
  - rewrite main_get, Hg. reflexivity.
  - rewrite main_get, Hg. cbn [bind ret events snd].
    rewrite !stdout_of_app, Hq. reflexivity.
Qed.

(** With no media player on the bus, and with a failing [ListNames], [get]
    prints [[]]. *)
Lemma no_players_empty_array_witness :
  stdout_of (events (main (Some no_players) [] ["ndfr-media-helper"; "get"])) =
    ["[]" +++ newline] /\
  stdout_of (events (main (Some broken_bus) [] ["ndfr-media-helper"; "get"])) =
    ["[]" +++ newline].
Proof.
  split.
  - refine (proj2 (proj2 (proj2 (proj2 (proj2
      (no_players_empty_array no_players (or_intror _))))) [] _)).
    exists ["org.freedesktop.DBus"; ":1.7"; "org.gnome.Shell"].
    split; [reflexivity|split; [typed_statuses|]].
    intros n Hn. cbn in Hn.
    repeat (destruct Hn as [<-|Hn]; [split; reflexivity|]).
    contradiction.
  - exact (proj2 (proj2 (proj2 (proj2 (proj2
      (no_players_empty_array broken_bus (or_introl eq_refl))))) [] _)).
Defined.

Lemma aggregate_quiet (bus : Bus) (name : string) :
  quiet (events (aggregate bus name)).
Proof.
  unfold aggregate. quiet_run.
  destruct a as [proxy|]; quiet_run.
  destruct (g_dbus_proxy_get_cached_property bus proxy "Metadata") as [[]|];
    quiet_run.
Qed.

Lemma get_players_json_loop_quiet (bus : Bus) (l : list string) :
  forall json_str, quiet (events (get_players_json_loop bus l json_str)).
Proof.
  induction l as [|name next IH]; intros json_str; [quiet_run|].
  cbn [get_players_json_loop].
  apply quiet_bind; [apply aggregate_quiet|].
  intros [st|]; apply IH.
Qed.

Lemma get_players_json_quiet (bus : Bus) :
  quiet (events (get_players_json bus)).
Proof.
  unfold get_players_json. apply quiet_bind; [apply find_players_quiet|].
  intros [|p players]; [quiet_run|].
  apply quiet_bind; [apply get_players_json_loop_quiet|intros; quiet_run].
Qed.

(** ** The change notifier *)

Lemma high_frequency_poll_step (held : option string) (bus : Bus)
    (cur : string) :
  value (get_players_json bus) = Some cur ->
  high_frequency_poll held bus =
  if is_null held || g_strcmp0_ne held (Some cur)
  then (Some (true, Some cur),
        events (get_players_json bus) ++ [EvStdout (cur +++ newline)])
  else (Some (true, held), events (get_players_json bus)).
Proof.
  intros H. unfold high_frequency_poll.
  rewrite (run_eta (get_players_json bus)), H. cbn [bind].
  destruct (is_null held || g_strcmp0_ne held (Some cur)); cbn.
  - reflexivity.
  - now rewrite app_nil_r.
Qed.

Lemma last_cons_default {A : Type} (x d : A) (l : list A) :
  last (x :: l) d = last l x.
Proof.
  revert x d. induction l as [|y l IH]; intros x d; [reflexivity|].
  change (last (x :: y :: l) d) with (last (y :: l) d).
  now rewrite !IH.
Qed.

Lemma g_main_loop_run_spec (ticks : list Bus) (payloads : list string) :
  Forall2 (fun bus p => value (get_players_json bus) = Some p)
          ticks payloads ->
  forall held,
    value (g_main_loop_run ticks held) = Some (held_after held payloads) /\
    stdout_of (events (g_main_loop_run ticks held)) =
    map (fun p => p +++ newline) (emissions held payloads).
Proof.
  induction 1 as [|bus p ticks payloads Hp _ IH]; intros held.
  - split; reflexivity.
  - cbn [g_main_loop_run].
    rewrite (high_frequency_poll_step held bus p Hp).
    destruct (get_players_json_quiet bus) as [Hq _].
    assert (Hstep : forall next out,
      value (bind (Some (true, next), events (get_players_json bus) ++ out)
                  (fun r => if fst r then g_main_loop_run ticks (snd r)
                            else ret (snd r))) =
        value (g_main_loop_run ticks next) /\
      stdout_of (events
        (bind (Some (true, next), events (get_players_json bus) ++ out)
              (fun r => if fst r then g_main_loop_run ticks (snd r)
                        else ret (snd r)))) =
        stdout_of out ++ stdout_of (events (g_main_loop_run ticks next))).
    { intros next out. rewrite bind_value, bind_events. cbn.
      rewrite !stdout_of_app, Hq. split; reflexivity. }
    unfold held_after in *.
    destruct held as [h|]; cbn [is_null orb g_strcmp0_ne emissions].
    + destruct (String.eqb h p) eqn:E; cbn [negb].
      * specialize (Hstep (Some h) []). rewrite app_nil_r in Hstep.
        destruct Hstep as [-> ->]. apply IH.
      * destruct (Hstep (Some p) [EvStdout (p +++ newline)]) as [-> ->].
        destruct (IH (Some p)) as [-> ->]. cbn [map].
        rewrite last_cons_default. split; reflexivity.
    + destruct (Hstep (Some p) [EvStdout (p +++ newline)]) as [-> ->].
      destruct (IH (Some p)) as [-> ->]. cbn [map].
      rewrite last_cons_default. split; reflexivity.
Qed.

(** C2: a tick with nothing held emits the serialized snapshot and holds
    it; a tick with a payload held emits the new one exactly when it
    differs from the held one, which it then replaces; so a run of the loop
    from its initial state prints the first payload and then every payload
    that differs from the last one printed.  Payloads A, A, B with A
    different from B give the two emissions A, B. *)
Theorem change_notifier_emissions :
  (forall bus cur,
     value (get_players_json bus) = Some cur ->
     value (high_frequency_poll None bus) = Some (true, Some cur) /\
     stdout_of (events (high_frequency_poll None bus)) = [cur +++ newline]) /\
  (forall bus held cur,
     value (get_players_json bus) = Some cur ->
     (cur <> held ->
      value (high_frequency_poll (Some held) bus) = Some (true, Some cur) /\
      stdout_of (events (high_frequency_poll (Some held) bus)) =
      [cur +++ newline]) /\
     (cur = held ->
      value (high_frequency_poll (Some held) bus) = Some (true, Some held) /\
      stdout_of (events (high_frequency_poll (Some held) bus)) = [])) /\
  (forall ticks payloads,
     Forall2 (fun bus p => value (get_players_json bus) = Some p)
             ticks payloads ->
     value (g_main_loop_run ticks None) = Some (held_after None payloads) /\
     stdout_of (events (g_main_loop_run ticks None)) =
     map (fun p => p +++ newline) (emissions None payloads)) /\
  (forall a b, a <> b -> emissions None [a; a; b] = [a; b]).
Proof.
  split; [|split; [|split]].
  - intros bus cur H. rewrite (high_frequency_poll_step None bus cur H).
    destruct (get_players_json_quiet bus) as [Hq _]. cbn.
    rewrite stdout_of_app, Hq. split; reflexivity.
  - intros bus held cur H.
    rewrite (high_frequency_poll_step (Some held) bus cur H).
    destruct (get_players_json_quiet bus) as [Hq _].
    cbn [is_null orb g_strcmp0_ne].
    split; intros Hc.
    + assert (E : String.eqb held cur = false)
        by (apply String.eqb_neq; congruence).
      rewrite E. cbn. rewrite stdout_of_app, Hq. split; reflexivity.
    + subst cur. rewrite String.eqb_refl. cbn. split; [reflexivity|exact Hq].
  - intros ticks payloads H. now apply g_main_loop_run_spec.
  - intros a b Hab. cbn. rewrite String.eqb_refl.
    apply String.eqb_neq in Hab. now rewrite Hab.
Qed.

(** Three ticks that see no player, no player and then one player: two
    lines are printed. *)
Lemma change_notifier_emissions_witness :
  stdout_of (events (g_main_loop_run [no_players; no_players; one_player] None))
  = ["[]" +++ newline;
     ("[" +++ player_json {| player_id := P1; status := Some "Playing";
                             position := 10000000; length := 200000000;
                             title := Some ""; artist := ""; icon := "vlc" |}
          +++ "]") +++ newline].
Proof.
  destruct change_notifier_emissions as (_ & _ & Hrun & _).
  destruct (Hrun [no_players; no_players; one_player]
                 ["[]"; "[]";
                  "[" +++ player_json
                    {| player_id := P1; status := Some "Playing";
                       position := 10000000; length := 200000000;
                       title := Some ""; artist := ""; icon := "vlc" |}
                      +++ "]"]) as [_ Hout].
  - repeat (apply Forall2_cons; [reflexivity|]). apply Forall2_nil.
  - rewrite Hout. reflexivity.
Defined.

(** ** Conversion of 64-bit integers to [double] *)

Lemma shr_1_bounds (mrs : shr_record) :
  0 <= shr_m mrs -> 0 <= shr_m (shr_1 mrs) <= shr_m mrs.
Proof.
  destruct mrs as [m r s]. cbn.
  destruct m as [|[p|p|]|[p|p|]]; cbn; lia.
Qed.

Lemma iter_shr_1_bounds (n : positive) :
  forall mrs, 0 <= shr_m mrs ->
              0 <= shr_m (iter_pos shr_1 n mrs) <= shr_m mrs.
Proof.
  induction n as [n IH|n IH|]; intros mrs H; cbn [iter_pos].
  - pose proof (shr_1_bounds mrs H) as H1.
    pose proof (IH _ (proj1 H1)) as H2.
    pose proof (IH _ (proj1 H2)) as H3. lia.
  - pose proof (IH _ H) as H1.
    pose proof (IH _ (proj1 H1)) as H2. lia.
  - now apply shr_1_bounds.
Qed.

Lemma shr_fexp_bounds (m e : Z) (l : location) :
  0 <= m ->
  0 <= shr_m (fst (shr_fexp Double.prec Double.emax m e l)) <= m /\
  snd (shr_fexp Double.prec Double.emax m e l) <=
  Z.max e (fexp Double.prec Double.emax (Zdigits2 m + e)).
Proof.
  intros Hm. unfold shr_fexp, shr.
  assert (Hrec : shr_m (shr_record_of_loc m l) = m)
    by (destruct l as [|[]]; reflexivity).
  destruct (fexp Double.prec Double.emax (Zdigits2 m + e) - e) as [|n|n] eqn:E;
    cbn [fst snd].
  - rewrite Hrec. lia.
  - pose proof (iter_shr_1_bounds n (shr_record_of_loc m l)) as H.
    rewrite Hrec in H. specialize (H Hm). lia.
  - rewrite Hrec. lia.
Qed.

Lemma digits2_pos_lower (p : positive) :
  2 ^ (Zpos (digits2_pos p) - 1) <= Zpos p.
Proof.
  induction p as [p IH|p IH|]; cbn [digits2_pos].
  - rewrite Pos2Z.inj_succ.
    replace (Z.succ (Zpos (digits2_pos p)) - 1)
      with (Z.succ (Zpos (digits2_pos p) - 1)) by lia.
    rewrite Z.pow_succ_r by lia. lia.
  - rewrite Pos2Z.inj_succ.
    replace (Z.succ (Zpos (digits2_pos p)) - 1)
      with (Z.succ (Zpos (digits2_pos p) - 1)) by lia.
    rewrite Z.pow_succ_r by lia. lia.
  - cbn. lia.
Qed.

Lemma digits2_pos_upper (p : positive) :
  Zpos p < 2 ^ Zpos (digits2_pos p).
Proof.
  induction p as [p IH|p IH|]; cbn [digits2_pos].
  - rewrite Pos2Z.inj_succ, Z.pow_succ_r by lia. lia.
  - rewrite Pos2Z.inj_succ, Z.pow_succ_r by lia. lia.
  - cbn. lia.
Qed.

Lemma Zdigits2_bound (m k : Z) : 0 <= m < 2 ^ k -> 0 <= k -> Zdigits2 m <= k.
Proof.
  intros [H0 Hk] Hk0. destruct m as [|p|p]; cbn [Zdigits2]; try lia.
  pose proof (digits2_pos_lower p) as Hl.
  assert (Hlt : 2 ^ (Zpos (digits2_pos p) - 1) < 2 ^ k) by lia.
  apply Z.pow_lt_mono_r_iff in Hlt; lia.
Qed.

Lemma round_nearest_even_bounds (m : Z) (l : location) :
  m <= round_nearest_even m l <= m + 1.
Proof.
  destruct l as [|[]]; cbn; try lia.
  destruct (Z.even m); lia.
Qed.

Lemma binary_round_aux_finite (s : bool) (m e : Z) (l : location) :
  0 <= m < 2 ^ 64 -> e <= 0 ->
  match binary_round_aux Double.prec Double.emax s m e l with
  | S754_zero _ | S754_finite _ _ _ => True
  | S754_infinity _ | S754_nan => False
  end.
Proof.
  intros Hm He. unfold binary_round_aux.
  pose proof (shr_fexp_bounds m e l (proj1 Hm)) as [Hm1 He1].
  destruct (shr_fexp Double.prec Double.emax m e l) as [mrs1 e1].
  cbn [fst snd] in Hm1, He1.
  pose proof (round_nearest_even_bounds (shr_m mrs1) (loc_of_shr_record mrs1))
    as Hr.
  set (m2 := round_nearest_even (shr_m mrs1) (loc_of_shr_record mrs1)) in *.
  assert (Hm2 : 0 <= m2) by lia.
  pose proof (shr_fexp_bounds m2 e1 loc_Exact Hm2) as [Hm3 He3].
  destruct (shr_fexp Double.prec Double.emax m2 e1 loc_Exact) as [mrs3 e3].
  cbn [fst snd] in Hm3, He3.
  assert (Hd1 : Zdigits2 m <= 64) by (apply Zdigits2_bound; lia).
  assert (Hd2 : Zdigits2 m2 <= 65).
  { apply Zdigits2_bound; [|lia].
    change (2 ^ 65) with (2 * 2 ^ 64). lia. }
  unfold fexp, emin, Double.prec, Double.emax in *.
  destruct (shr_m mrs3) as [|p|p]; [exact I| |lia].
  destruct (Z.leb_spec e3 (1024 - 53)); [exact I|lia].
Qed.

Lemma iter_xO_mul (p n : positive) :
  Zpos (Pos.iter xO p n) = Zpos p * 2 ^ Zpos n.
Proof.
  rewrite <- (Z.shiftl_mul_pow2 (Zpos p) (Zpos n)) by lia.
  cbn [Z.shiftl].
  apply (Pos.iter_swap_gen _ _ Zpos xO (Z.mul 2)). reflexivity.
Qed.

(** A positive [gint64] converts to a [double] that is neither infinite
    nor NaN. *)
Lemma of_Z_regular (len : Z) :
  0 < len <= Int64.max_signed ->
  match Double.of_Z len with
  | S754_zero _ | S754_finite _ _ _ => True
  | S754_infinity _ | S754_nan => False
  end.
Proof.
  intros [H0 Hmax]. destruct len as [|p|p]; try lia.
  unfold Double.of_Z, binary_normalize, binary_round.
  assert (Hp : Zpos p < 2 ^ 63) by (unfold Int64.max_signed in Hmax; lia).
  destruct (shl_align p 0 _) as [mz ez] eqn:Hsh.
  assert (Hb : 0 <= Zpos mz < 2 ^ 64 /\ ez <= 0).
  { unfold shl_align in Hsh.
    set (x := fexp Double.prec Double.emax (Zpos (digits2_pos p) + 0)) in *.
    destruct (x - 0) as [|d|d] eqn:Hx; injection Hsh as <- <-.
    - lia.
    - lia.
    - rewrite iter_xO_mul.
      pose proof (digits2_pos_upper p) as Hu.
      assert (Hd : Zpos d = 53 - Zpos (digits2_pos p)).
      { unfold x, fexp, emin, Double.prec, Double.emax in Hx. lia. }
      assert (Hpow : 2 ^ Zpos (digits2_pos p) * 2 ^ Zpos d = 2 ^ 53).
      { rewrite <- Z.pow_add_r by lia. f_equal. lia. }
      assert (0 < 2 ^ Zpos d) by (apply Z.pow_pos_nonneg; lia).
      split; [|lia]. split; [lia|].
      apply Z.lt_trans with (2 ^ 53); [|reflexivity]. nia. }
  destruct Hb as [Hmz Hez].
  exact (binary_round_aux_finite false (Zpos mz) ez loc_Exact Hmz Hez).
Qed.

(** Zero percent of a track is position 0. *)
Lemma zero_percent_target (len : Z) :
  0 < len <= Int64.max_signed ->
  Double.to_int64
    (Double.mul (Double.div Double.zero (Double.of_Z 100)) (Double.of_Z len))
  = 0.
Proof.
  intros H. pose proof (of_Z_regular len H) as Hr.
  change (Double.div Double.zero (Double.of_Z 100)) with (S754_zero false).
  destruct (Double.of_Z len); try contradiction; reflexivity.
Qed.

Lemma digits2_pos_iter_xO (p d : positive) :
  Zpos (digits2_pos (Pos.iter xO p d)) = Zpos (digits2_pos p) + Zpos d.
Proof.
  induction d as [|d IH] using Pos.peano_ind.
  - cbn [Pos.iter digits2_pos]. lia.
  - rewrite Pos.iter_succ. cbn [digits2_pos]. lia.
Qed.

Lemma iter_shr_1_exact (n : positive) :
  forall m : positive,
    iter_pos shr_1 n
      {| shr_m := Zpos (Pos.iter xO m n); shr_r := false; shr_s := false |} =
    {| shr_m := Zpos m; shr_r := false; shr_s := false |}.
Proof.
  induction n as [n IH|n IH|]; intros m; cbn [iter_pos Pos.iter].
  - cbn [shr_1 orb]. now rewrite !IH.
  - now rewrite !IH.
  - reflexivity.
Qed.

(** Rounding a mantissa of 53 bits followed by [n] zero bits is exact. *)
Lemma binary_round_aux_exact (s : bool) (m : positive) (e : Z) (n : positive) :
  Zpos (digits2_pos m) = 53 ->
  -1074 <= e <= 971 ->
  binary_round_aux Double.prec Double.emax s
    (Zpos (Pos.iter xO m n)) (e - Zpos n) loc_Exact =
  S754_finite s m e.
Proof.
  intros Hd He. unfold binary_round_aux.
  assert (H1 : shr_fexp Double.prec Double.emax
                 (Zpos (Pos.iter xO m n)) (e - Zpos n) loc_Exact =
               ({| shr_m := Zpos m; shr_r := false; shr_s := false |}, e)).
  { unfold shr_fexp, shr. cbn [Zdigits2 shr_record_of_loc].
    rewrite digits2_pos_iter_xO, Hd.
    replace (fexp Double.prec Double.emax (53 + Zpos n + (e - Zpos n))
             - (e - Zpos n)) with (Zpos n)
      by (unfold fexp, emin, Double.prec, Double.emax; lia).
    rewrite iter_shr_1_exact. f_equal. lia. }
  rewrite H1. cbn [shr_m loc_of_shr_record round_nearest_even].
  assert (H2 : shr_fexp Double.prec Double.emax (Zpos m) e loc_Exact =
               ({| shr_m := Zpos m; shr_r := false; shr_s := false |}, e)).
  { unfold shr_fexp, shr. cbn [Zdigits2 shr_record_of_loc]. rewrite Hd.
    replace (fexp Double.prec Double.emax (53 + e) - e) with 0
      by (unfold fexp, emin, Double.prec, Double.emax; lia).
    reflexivity. }
  rewrite H2. cbn [shr_m].
  destruct (Z.leb_spec e (Double.emax - Double.prec)); [reflexivity|].
  unfold Double.emax, Double.prec in *. lia.
Qed.

Lemma binary_round_aux_canonical (s : bool) (m : positive) (e : Z) :
  Zpos (digits2_pos m) = 53 ->
  -1074 <= e <= 971 ->
  binary_round_aux Double.prec Double.emax s (Zpos m) e loc_Exact =
  S754_finite s m e.
Proof.
  intros Hd He. unfold binary_round_aux.
  assert (H2 : shr_fexp Double.prec Double.emax (Zpos m) e loc_Exact =
               ({| shr_m := Zpos m; shr_r := false; shr_s := false |}, e)).
  { unfold shr_fexp, shr. cbn [Zdigits2 shr_record_of_loc]. rewrite Hd.
    replace (fexp Double.prec Double.emax (53 + e) - e) with 0
      by (unfold fexp, emin, Double.prec, Double.emax; lia).
    reflexivity. }
  rewrite H2. cbn [shr_m loc_of_shr_record round_nearest_even].
  rewrite H2. cbn [shr_m].
  destruct (Z.leb_spec e (Double.emax - Double.prec)); [reflexivity|].
  unfold Double.emax, Double.prec in *. lia.
Qed.

(** An integer below 2^53 converts to [double] without rounding: the
    mantissa is the integer shifted up to 53 bits. *)
Lemma of_Z_exact (len : Z) :
  0 < len < 2 ^ 53 ->
  exists (m : positive) (d : Z),
    Double.of_Z len = S754_finite false m (- d) /\
    Zpos (digits2_pos m) = 53 /\
    0 <= d <= 52 /\
    Zpos m = len * 2 ^ d.
Proof.
  intros [H0 Hmax]. destruct len as [|p|p]; try lia.
  pose proof (digits2_pos_lower p) as Hlo.
  assert (Hdig : Zpos (digits2_pos p) <= 53).
  { assert (H : 2 ^ (Zpos (digits2_pos p) - 1) < 2 ^ 53) by lia.
    apply Z.pow_lt_mono_r_iff in H; lia. }
  unfold Double.of_Z, binary_normalize, binary_round, shl_align.
  replace (fexp Double.prec Double.emax (Zpos (digits2_pos p) + 0) - 0)
    with (Zpos (digits2_pos p) - 53)
    by (unfold fexp, emin, Double.prec, Double.emax; lia).
  destruct (Zpos (digits2_pos p) - 53) as [|k|k] eqn:Hk; try lia.
  - exists p, 0. rewrite binary_round_aux_canonical by lia.
    repeat split; try lia.
  - exists (Pos.iter xO p k), (Zpos k).
    replace (fexp Double.prec Double.emax (Zpos (digits2_pos p) + 0))
      with (- Zpos k)
      by (unfold fexp, emin, Double.prec, Double.emax; lia).
    assert (Hd : Zpos (digits2_pos (Pos.iter xO p k)) = 53)
      by (rewrite digits2_pos_iter_xO; lia).
    rewrite binary_round_aux_canonical by lia.
    repeat split; try lia.
    apply iter_xO_mul.
Qed.

(** ** Rounding of a product *)

Lemma shr_1_half (mrs : shr_record) :
  0 <= shr_m mrs -> shr_m (shr_1 mrs) = shr_m mrs / 2.
Proof.
  destruct mrs as [m r s]. cbn [shr_m]. intros H.
  rewrite <- Z.div2_div.
  destruct m as [|[p|p|]|p]; try reflexivity; lia.
Qed.

Lemma iter_shr_1_div (n : positive) :
  forall mrs, 0 <= shr_m mrs ->
    shr_m (iter_pos shr_1 n mrs) = shr_m mrs / 2 ^ Zpos n.
Proof.
  induction n as [n IH|n IH|]; intros mrs H; cbn [iter_pos].
  - pose proof (shr_1_bounds mrs H) as H1.
    pose proof (iter_shr_1_bounds n _ (proj1 H1)) as H2.
    rewrite IH by lia. rewrite IH by lia. rewrite shr_1_half by lia.
    assert (Hp : 0 < 2 ^ Zpos n) by (apply Z.pow_pos_nonneg; lia).
    rewrite !Z.div_div by lia. f_equal.
    replace (Zpos n~1) with (Zpos n + Zpos n + 1) by lia.
    rewrite !Z.pow_add_r by lia. change (2 ^ 1) with 2. lia.
  - pose proof (iter_shr_1_bounds n _ H) as H2.
    rewrite IH by lia. rewrite IH by lia.
    assert (Hp : 0 < 2 ^ Zpos n) by (apply Z.pow_pos_nonneg; lia).
    rewrite !Z.div_div by lia. f_equal.
    replace (Zpos n~0) with (Zpos n + Zpos n) by lia.
    rewrite Z.pow_add_r by lia. reflexivity.
  - rewrite shr_1_half by lia. reflexivity.
Qed.

Lemma Zdigits2_eq (m k : Z) :
  2 ^ (k - 1) <= m < 2 ^ k -> 0 < k -> Zdigits2 m = k.
Proof.
  intros [Hlo Hhi] Hk.
  assert (H0 : 0 < 2 ^ (k - 1)) by (apply Z.pow_pos_nonneg; lia).
  destruct m as [|p|p]; try lia. cbn [Zdigits2].
  pose proof (digits2_pos_lower p) as Hl.
  pose proof (digits2_pos_upper p) as Hu.
  assert (H1 : 2 ^ (Zpos (digits2_pos p) - 1) < 2 ^ k) by lia.
  assert (H2 : 2 ^ (k - 1) < 2 ^ Zpos (digits2_pos p)) by lia.
  apply Z.pow_lt_mono_r_iff in H1; [|lia|lia].
  apply Z.pow_lt_mono_r_iff in H2; lia.
Qed.

(** Rounding a mantissa of [53 + n] bits keeps its first 53 bits, or adds
    one in the last place. *)
Lemma binary_round_aux_long (s : bool) (p : positive) (e : Z) (n : positive) :
  2 ^ (52 + Zpos n) <= Zpos p < 2 ^ (53 + Zpos n) ->
  -1074 <= e + Zpos n <= 970 ->
  exists m2 : positive,
    Zpos p / 2 ^ Zpos n <= Zpos m2 <= Zpos p / 2 ^ Zpos n + 1 /\
    2 ^ 52 <= Zpos m2 <= 2 ^ 53 /\
    binary_round_aux Double.prec Double.emax s (Zpos p) e loc_Exact =
    (if Zpos m2 <? 2 ^ 53 then S754_finite s m2 (e + Zpos n)
     else S754_finite s 4503599627370496 (e + Zpos n + 1)).
Proof.
  intros Hp He. unfold binary_round_aux.
  assert (Hpow : 0 < 2 ^ Zpos n) by (apply Z.pow_pos_nonneg; lia).
  assert (H52 : 2 ^ (52 + Zpos n) = 2 ^ 52 * 2 ^ Zpos n)
    by (apply Z.pow_add_r; lia).
  assert (H53 : 2 ^ (53 + Zpos n) = 2 ^ 53 * 2 ^ Zpos n)
    by (apply Z.pow_add_r; lia).
  set (mrs1 := iter_pos shr_1 n
                 {| shr_m := Zpos p; shr_r := false; shr_s := false |}).
  assert (H1 : shr_fexp Double.prec Double.emax (Zpos p) e loc_Exact =
               (mrs1, e + Zpos n)).
  { unfold shr_fexp, shr.
    rewrite (Zdigits2_eq (Zpos p) (53 + Zpos n))
      by (try lia; replace (53 + Zpos n - 1) with (52 + Zpos n) by lia;
          exact Hp).
    replace (fexp Double.prec Double.emax (53 + Zpos n + e) - e)
      with (Zpos n)
      by (unfold fexp, emin, Double.prec, Double.emax; lia).
    reflexivity. }
  rewrite H1.
  assert (Hm1 : shr_m mrs1 = Zpos p / 2 ^ Zpos n)
    by (unfold mrs1; rewrite iter_shr_1_div; cbn [shr_m]; [reflexivity|lia]).
  assert (Hb1 : 2 ^ 52 <= Zpos p / 2 ^ Zpos n < 2 ^ 53).
  { split.
    - apply Z.div_le_lower_bound; lia.
    - apply Z.div_lt_upper_bound; lia. }
  pose proof (round_nearest_even_bounds (shr_m mrs1) (loc_of_shr_record mrs1))
    as Hr.
  destruct (round_nearest_even (shr_m mrs1) (loc_of_shr_record mrs1))
    as [|q|q] eqn:Hq; rewrite Hm1 in Hr; try lia.
  exists q. split; [exact Hr|]. split; [lia|].
  destruct (Z.ltb_spec (Zpos q) (2 ^ 53)) as [Hlt|Hge].
  - assert (H2 : shr_fexp Double.prec Double.emax (Zpos q) (e + Zpos n)
                   loc_Exact =
                 ({| shr_m := Zpos q; shr_r := false; shr_s := false |},
                  e + Zpos n)).
    { unfold shr_fexp, shr.
      rewrite (Zdigits2_eq (Zpos q) 53) by (change (2 ^ (53 - 1)) with (2 ^ 52); lia).
      replace (fexp Double.prec Double.emax (53 + (e + Zpos n))
               - (e + Zpos n)) with 0
        by (unfold fexp, emin, Double.prec, Double.emax; lia).
      reflexivity. }
    rewrite H2. cbn [shr_m].
    destruct (Z.leb_spec (e + Zpos n) (Double.emax - Double.prec));
      [reflexivity|].
    unfold Double.emax, Double.prec in *. lia.
  - assert (Hq53 : q = 9007199254740992%positive).
    { change (2 ^ 53) with 9007199254740992 in *. lia. }
    subst q.
    assert (H2 : shr_fexp Double.prec Double.emax 9007199254740992
                   (e + Zpos n) loc_Exact =
                 ({| shr_m := 4503599627370496; shr_r := false;
                     shr_s := false |}, e + Zpos n + 1)).
    { unfold shr_fexp, shr.
      change (Zdigits2 9007199254740992) with 54.
      replace (fexp Double.prec Double.emax (54 + (e + Zpos n))
               - (e + Zpos n)) with 1
        by (unfold fexp, emin, Double.prec, Double.emax; lia).
      reflexivity. }
    rewrite H2. cbn [shr_m].
    destruct (Z.leb_spec (e + Zpos n + 1) (Double.emax - Double.prec));
      [reflexivity|].
    unfold Double.emax, Double.prec in *. lia.
Qed.

(** The integer arithmetic of [(n / 100.0) * len]: [mq / S] is the
    rounded hundredth, [len * D] the mantissa of the length, [N] the bits
    dropped from their product and [m2] the rounded mantissa, which
    [K] turns into the integer part. *)
Lemma percent_arith (n len mq S D N K m2 : Z) :
  1 <= n <= 100 ->
  0 < len < 17592186044416 ->
  4503599627370496 <= S ->
  Z.abs (100 * mq - n * S) <= 50 ->
  len * D < 9007199254740992 ->
  512 <= D ->
  0 < N <= 9007199254740992 ->
  0 < K ->
  K * N = S * D ->
  (mq * (len * D)) / N <= m2 <= (mq * (len * D)) / N + 1 ->
  m2 / K = n * len / 100 \/
  (m2 / K = n * len / 100 - 1 /\ (n * len) mod 100 = 0).
Proof.
  intros Hn Hlen HS Hq HlenD HD HN HK HKN Hm2.
  set (M := mq * (len * D)) in *.
  set (m1 := M / N) in *.
  set (T := m2 / K).
  assert (Hm1 : N * m1 <= M < N * m1 + N).
  { pose proof (Z.mul_div_le M N ltac:(lia)).
    pose proof (Z.mul_succ_div_gt M N ltac:(lia)). unfold m1. lia. }
  assert (HT : K * T <= m2 < K * T + K).
  { pose proof (Z.mul_div_le m2 K HK).
    pose proof (Z.mul_succ_div_gt m2 K HK). unfold T. lia. }
  assert (HSD : S * D * T = N * (K * T)) by (rewrite <- HKN; ring).
  assert (HSD1 : S * D * (T + 1) = N * (K * T + K)) by (rewrite <- HKN; ring).
  assert (Hup : S * D * T <= M + N).
  { rewrite HSD. assert (N * (K * T) <= N * (m1 + 1)) by nia. lia. }
  assert (Hlo : M < S * D * (T + 1)).
  { rewrite HSD1. assert (N * (m1 + 1) <= N * (K * T + K)) by nia. lia. }
  assert (Hq1 : n * S - 50 <= 100 * mq <= n * S + 50) by lia.
  assert (HlD : 0 < len * D) by nia.
  assert (H100M : (n * S - 50) * (len * D) <= 100 * M <=
                  (n * S + 50) * (len * D)).
  { unfold M. split.
    - replace (100 * (mq * (len * D))) with ((100 * mq) * (len * D)) by ring.
      apply Z.mul_le_mono_nonneg_r; lia.
    - replace (100 * (mq * (len * D))) with ((100 * mq) * (len * D)) by ring.
      apply Z.mul_le_mono_nonneg_r; lia. }
  assert (HSDlow : 4503599627370496 * 512 <= S * D) by nia.
  assert (Hle : 100 * T <= n * len).
  { destruct (Z.le_gt_cases (100 * T) (n * len)) as [H|H]; [exact H|exfalso].
    assert (H1 : S * D * (n * len + 1) <= S * D * (100 * T)) by
        (apply Z.mul_le_mono_nonneg_l; nia).
    assert (H2 : S * D * (100 * T) = 100 * (S * D * T)) by ring.
    assert (H3 : (n * S + 50) * (len * D) =
                 S * D * (n * len) + 50 * (len * D)) by ring.
    nia. }
  assert (Hge : n * len <= 100 * T + 100).
  { destruct (Z.le_gt_cases (n * len) (100 * T + 100)) as [H|H];
      [exact H|exfalso].
    assert (H0 : mq * len < S * (T + 1)).
    { assert (D * (mq * len) < D * (S * (T + 1))) by
          (unfold M in Hlo; nia).
      nia. }
    assert (H1 : (n * S - 50) * len <= 100 * mq * len) by
        (apply Z.mul_le_mono_nonneg_r; lia).
    assert (H2 : S * (100 * (T + 1) + 1) <= S * (n * len)) by
        (apply Z.mul_le_mono_nonneg_l; lia).
    nia. }
  fold T. Z.div_mod_to_equations. lia.
Qed.

(** The integer part of a rounded product below 2^53. *)
Lemma to_int64_long (m2 : positive) (k : Z) :
  0 < k ->
  2 ^ 52 <= Zpos m2 <= 2 ^ 53 ->
  Double.to_int64
    (if Zpos m2 <? 2 ^ 53 then S754_finite false m2 (- k)
     else S754_finite false 4503599627370496 (- k + 1)) =
  Zpos m2 / 2 ^ k.
Proof.
  intros Hk Hm.
  assert (Hpow : 0 < 2 ^ k) by (apply Z.pow_pos_nonneg; lia).
  assert (Hq : Double.truncate
                 (if Zpos m2 <? 2 ^ 53 then S754_finite false m2 (- k)
                  else S754_finite false 4503599627370496 (- k + 1)) =
               Some (Zpos m2 / 2 ^ k)).
  { destruct (Z.ltb_spec (Zpos m2) (2 ^ 53)) as [Hlt|Hge].
    - destruct k as [|kp|kp]; try lia. cbn [Double.truncate Z.opp].
      now rewrite Z.shiftr_div_pow2 by lia.
    - assert (Hm2 : Zpos m2 = 2 ^ 53) by lia. rewrite Hm2.
      unfold Double.truncate. f_equal.
      assert (Hk2 : 2 ^ k = 2 ^ (k - 1) * 2).
      { replace k with ((k - 1) + 1) at 1 by lia.
        rewrite Z.pow_add_r by lia. reflexivity. }
      rewrite Hk2.
      change (2 ^ 53) with (4503599627370496 * 2).
      assert (0 < 2 ^ (k - 1)) by (apply Z.pow_pos_nonneg; lia).
      rewrite Z.div_mul_cancel_r by lia.
      destruct (- k + 1) as [|e|e] eqn:He; try lia.
      + replace (k - 1) with 0 by lia. reflexivity.
      + rewrite Z.shiftr_div_pow2 by lia.
        replace (k - 1) with (Zpos e) by lia. reflexivity. }
  unfold Double.to_int64. rewrite Hq.
  assert (Hr : Int64.in_range (Zpos m2 / 2 ^ k) = true).
  { pose proof (Z.div_pos (Zpos m2) (2 ^ k) ltac:(lia) Hpow).
    assert (Zpos m2 / 2 ^ k <= Zpos m2) by (apply Z.div_le_upper_bound; nia).
    change (2 ^ 53) with 9007199254740992 in Hm.
    unfold Int64.in_range, Int64.min_signed, Int64.max_signed.
    apply andb_true_intro. split; apply Z.leb_le; lia. }
  now rewrite Hr.
Qed.

Lemma digits_53_bounds (m : positive) :
  Zpos (digits2_pos m) = 53 -> 2 ^ 52 <= Zpos m < 2 ^ 53.
Proof.
  intros H. pose proof (digits2_pos_lower m) as Hl.
  pose proof (digits2_pos_upper m) as Hu. rewrite H in Hl, Hu.
  change (53 - 1) with 52 in Hl. lia.
Qed.

(** The target of a whole percentage: with [mq * 2 ^ - s] the [double]
    nearest to [n / 100], the product with a length below 2^44, converted
    to an integer, is [n * len / 100] rounded down, or one less where
    [n * len / 100] is an integer. *)
Lemma percent_product (n len : Z) (mq : positive) (s : Z) :
  1 <= n <= 100 ->
  0 < len < 2 ^ 44 ->
  2 ^ 52 <= Zpos mq < 2 ^ 53 ->
  52 <= s <= 59 ->
  Z.abs (100 * Zpos mq - n * 2 ^ s) <= 50 ->
  let target :=
    Double.to_int64
      (Double.mul (S754_finite false mq (- s)) (Double.of_Z len)) in
  target = n * len / 100 \/
  (target = n * len / 100 - 1 /\ (n * len) mod 100 = 0).
Proof.
  intros Hn Hlen Hmq Hs Hq target.
  assert (Hlen53 : 0 < len < 2 ^ 53).
  { change (2 ^ 44) with 17592186044416 in Hlen.
    change (2 ^ 53) with 9007199254740992. lia. }
  destruct (of_Z_exact len Hlen53) as (m & d & Hof & Hd & Hdr & Hm).
  pose proof (digits_53_bounds m Hd) as Hmb.
  assert (H2d : 0 < 2 ^ d) by (apply Z.pow_pos_nonneg; lia).
  assert (H2s : 0 < 2 ^ s) by (apply Z.pow_pos_nonneg; lia).
  assert (Hd9 : 9 <= d).
  { destruct (Z.le_gt_cases 9 d) as [H|H]; [exact H|exfalso].
    assert (2 ^ d <= 2 ^ 8) by (apply Z.pow_le_mono_r; lia).
    change (2 ^ 8) with 256 in *. change (2 ^ 44) with 17592186044416 in *.
    change (2 ^ 52) with 4503599627370496 in *. nia. }
  assert (HD : 512 <= 2 ^ d).
  { change 512 with (2 ^ 9). apply Z.pow_le_mono_r; lia. }
  assert (HS : 4503599627370496 <= 2 ^ s).
  { change 4503599627370496 with (2 ^ 52). apply Z.pow_le_mono_r; lia. }
  assert (HM : 2 ^ 104 <= Zpos (mq * m) < 2 ^ 106).
  { rewrite Pos2Z.inj_mul.
    change (2 ^ 104) with (2 ^ 52 * 2 ^ 52).
    change (2 ^ 106) with (2 ^ 53 * 2 ^ 53).
    split; [apply Z.mul_le_mono_nonneg; lia|].
    apply Z.mul_lt_mono_nonneg; lia. }
  assert (Hn1 : exists n1 : positive,
             (n1 = 52 \/ n1 = 53)%positive /\
             2 ^ (52 + Zpos n1) <= Zpos (mq * m) < 2 ^ (53 + Zpos n1)).
  { destruct (Z.lt_ge_cases (Zpos (mq * m)) (2 ^ 105)) as [H|H].
    - exists 52%positive. split; [now left|].
      change (2 ^ (52 + 52)) with (2 ^ 104).
      change (2 ^ (53 + 52)) with (2 ^ 105). lia.
    - exists 53%positive. split; [now right|].
      change (2 ^ (52 + 53)) with (2 ^ 105).
      change (2 ^ (53 + 53)) with (2 ^ 106). lia. }
  destruct Hn1 as (n1 & Hn1 & HMn).
  set (k := s + d - Zpos n1).
  assert (Hk : 8 <= k <= 59) by (unfold k; destruct Hn1; subst n1; lia).
  destruct (binary_round_aux_long false (mq * m) (- s + - d) n1 HMn
              ltac:(unfold k in Hk; lia))
    as (m2 & Hm2 & Hm2b & Hround).
  assert (Htarget : target = Zpos m2 / 2 ^ k).
  { unfold target. rewrite Hof. unfold Double.mul, SFmul. cbn [xorb].
    rewrite Hround.
    replace (- s + - d + Zpos n1) with (- k) by (unfold k; lia).
    apply to_int64_long; lia. }
  rewrite Htarget.
  assert (H2k : 0 < 2 ^ k) by (apply Z.pow_pos_nonneg; lia).
  assert (H2n : 0 < 2 ^ Zpos n1 <= 9007199254740992).
  { split; [apply Z.pow_pos_nonneg; lia|].
    change 9007199254740992 with (2 ^ 53).
    apply Z.pow_le_mono_r; destruct Hn1; subst n1; lia. }
  assert (A1 : 0 < len < 17592186044416)
    by (change (2 ^ 44) with 17592186044416 in Hlen; lia).
  assert (A2 : len * 2 ^ d < 9007199254740992)
    by (rewrite <- Hm; change (2 ^ 53) with 9007199254740992 in Hmb; lia).
  assert (A3 : 2 ^ k * 2 ^ Zpos n1 = 2 ^ s * 2 ^ d)
    by (rewrite <- !Z.pow_add_r by lia; f_equal; unfold k; lia).
  assert (A4 : Zpos mq * (len * 2 ^ d) / 2 ^ Zpos n1 <= Zpos m2 <=
               Zpos mq * (len * 2 ^ d) / 2 ^ Zpos n1 + 1)
    by (rewrite <- Hm, <- Pos2Z.inj_mul; exact Hm2).
  exact (percent_arith n len (Zpos mq) (2 ^ s) (2 ^ d) (2 ^ Zpos n1)
           (2 ^ k) (Zpos m2) Hn A1 HS Hq A2 HD H2n H2k A3 A4).
Qed.

Lemma hundredth_table (n : Z) : 1 <= n <= 100 -> hundredth_ok n = true.
Proof.
  intros Hn.
  assert (Hall : forallb hundredth_ok (map Z.of_nat (seq 1 100)) = true)
    by (vm_compute; reflexivity).
  rewrite forallb_forall in Hall. apply Hall.
  apply in_map_iff. exists (Z.to_nat n). split; [lia|].
  apply in_seq. lia.
Qed.

(** The target of a whole percentage of a track shorter than 2^44
    microseconds is the exact value rounded down, or one less where the
    exact value is an integer. *)
Lemma whole_percent_target (n len : Z) :
  0 <= n <= 100 ->
  0 < len < 2 ^ 44 ->
  let target :=
    Double.to_int64
      (Double.mul (Double.div (Double.of_Z n) (Double.of_Z 100))
                  (Double.of_Z len)) in
  target = exact_percent_target n len \/
  (target = exact_percent_target n len - 1 /\ (n * len) mod 100 = 0).
Proof.
  intros Hn Hlen target. unfold exact_percent_target.
  rewrite Z.quot_div_nonneg by nia.
  destruct (Z.eq_dec n 0) as [->|Hn0].
  - left. unfold target. change (Double.of_Z 0) with Double.zero.
    rewrite zero_percent_target; [reflexivity|].
    change (2 ^ 44) with 17592186044416 in Hlen.
    unfold Int64.max_signed. lia.
  - pose proof (hundredth_table n ltac:(lia)) as Hok.
    unfold hundredth_ok in Hok. unfold target.
    destruct (Double.div (Double.of_Z n) (Double.of_Z 100))
      as [?|?| |[] m e]; try discriminate.
    apply andb_prop in Hok. destruct Hok as [Hok H5].
    apply andb_prop in Hok. destruct Hok as [Hok H4].
    apply andb_prop in Hok. destruct Hok as [Hok H3].
    apply andb_prop in Hok. destruct Hok as [H1 H2].
    apply Z.leb_le in H1, H3, H4, H5. apply Z.ltb_lt in H2.
    replace e with (- (- e)) by lia.
    apply percent_product; try lia.
Qed.

(** ** Seeking *)

Lemma compare_cont_swap (p q : positive) :
  Pos.compare_cont Eq q p = CompOpp (Pos.compare_cont Eq p q).
Proof. now rewrite Pos.compare_cont_antisym. Qed.

Lemma SFleb_not_ltb (a b : spec_float) : SFleb a b = true -> SFltb b a = false.
Proof.
  unfold SFleb, SFltb.
  destruct a as [sa|sa| |sa ma ea], b as [sb|sb| |sb mb eb]; cbn;
    try destruct sa; try destruct sb; cbn;
    try discriminate; try reflexivity;
    rewrite (Z.compare_antisym ea eb);
    destruct (ea ?= eb); cbn; try discriminate; try reflexivity;
    rewrite (compare_cont_swap ma mb);
    destruct (Pos.compare_cont Eq ma mb); cbn; try discriminate; reflexivity.
Qed.

Lemma in_range_not_out (p : Double.t) :
  in_percent_range p = true -> out_of_percent_range p = false.
Proof.
  unfold in_percent_range, out_of_percent_range, Double.ltb. intros H.
  apply andb_prop in H. destruct H as [H0 H100].
  now rewrite (SFleb_not_ltb _ _ H0), (SFleb_not_ltb _ _ H100).
Qed.

(** [Double.truncate] rounds toward zero. *)
Lemma truncate_toward_zero (x : Double.t) (z : Z) :
  Double.truncate x = Some z -> rounded_toward_zero x z.
Proof.
  destruct x as [s|s| |s m e]; try discriminate.
  { cbn. now intros [= <-]. }
  unfold rounded_toward_zero.
  unfold Double.truncate. intros H. injection H as <-.
  assert (Hup : forall k, 0 <= k -> Z.shiftl (Zpos m) k = Zpos m * 2 ^ k)
    by (intros; now apply Z.shiftl_mul_pow2).
  destruct e as [|k|k].
  - rewrite (Hup 0) by lia. rewrite Z.pow_0_r.
    destruct s; repeat split; lia.
  - rewrite (Hup (Zpos k)) by lia.
    assert (0 < 2 ^ Zpos k) by (apply Z.pow_pos_nonneg; lia).
    destruct s; repeat split; try nia; try lia.
  - assert (Hs : Z.shiftr (Zpos m) (Zpos k) = Zpos m / 2 ^ Zpos k)
      by (apply Z.shiftr_div_pow2; lia).
    rewrite Hs. change (- Zneg k) with (Zpos k).
    assert (Hpow : 0 < 2 ^ Zpos k) by (apply Z.pow_pos_nonneg; lia).
    pose proof (Z.div_pos (Zpos m) (2 ^ Zpos k) ltac:(lia) Hpow) as Hq.
    pose proof (Z.mul_div_le (Zpos m) (2 ^ Zpos k) Hpow) as Hle.
    pose proof (Z.mul_succ_div_gt (Zpos m) (2 ^ Zpos k) Hpow) as Hgt.
    destruct s.
    + rewrite Z.abs_opp, Z.abs_eq by lia. repeat split; try lia; nia.
    + rewrite Z.abs_eq by lia. repeat split; try lia; nia.
Qed.

Lemma main_set_position (bus : Bus) (ticks : list Bus)
    (argv0 id pos_str : string) :
  main (Some bus) ticks [argv0; "set-position"; id; pos_str] =
  bind (handle_set_position bus (Some id) pos_str)
       (fun result => ret (Exited result)).
Proof. reflexivity. Qed.

Lemma main_set_position_percent (bus : Bus) (ticks : list Bus)
    (argv0 id percent_str : string) :
  main (Some bus) ticks [argv0; "set-position-percent"; id; percent_str] =
  bind (handle_set_position_percent bus (Some id) percent_str)
       (fun result => ret (Exited result)).
Proof. reflexivity. Qed.

Lemma main_set_position_default (bus : Bus) (ticks : list Bus)
    (argv0 pos_str id : string) (rest : list string) (log : list Event) :
  find_players bus = (Some (id :: rest), log) ->
  main (Some bus) ticks [argv0; "set-position"; pos_str] =
  bind (Some tt, log)
       (fun _ => bind (handle_set_position bus (Some id) pos_str)
                      (fun result => ret (Exited result))).
Proof.
  intros Hf. unfold main. cbn -[handle_set_position find_players].
  rewrite Hf. cbn -[handle_set_position].
  destruct (handle_set_position bus (Some id) pos_str) as [[r|] l];
    cbn; rewrite ?app_nil_r, ?app_assoc; reflexivity.
Qed.

Lemma main_set_position_percent_default (bus : Bus) (ticks : list Bus)
    (argv0 percent_str id : string) (rest : list string) (log : list Event) :
  find_players bus = (Some (id :: rest), log) ->
  main (Some bus) ticks [argv0; "set-position-percent"; percent_str] =
  bind (Some tt, log)
       (fun _ => bind (handle_set_position_percent bus (Some id) percent_str)
                      (fun result => ret (Exited result))).
Proof.
  intros Hf. unfold main. cbn -[handle_set_position_percent find_players].
  rewrite Hf. cbn -[handle_set_position_percent].
  destruct (handle_set_position_percent bus (Some id) percent_str)
    as [[r|] l]; cbn; rewrite ?app_nil_r, ?app_assoc; reflexivity.
Qed.

Lemma find_players_calls (bus : Bus) (players : list string)
    (log : list Event) :
  find_players bus = (Some players, log) -> method_calls log = [].
Proof.
  intros Hf. destruct (find_players_quiet bus) as [_ Hq].
  now rewrite Hf in Hq.
Qed.

Lemma handle_set_position_seek (bus : Bus) (id pos_str : string) (cur : Z) :
  bus_proxy bus id = true ->
  bus_property bus id "CanSeek" = Some (VBool true) ->
  bus_property bus id "Position" = Some (VInt64 cur) ->
  handle_set_position bus (Some id) pos_str =
  (Some (if bus_call bus id "Seek" [Int64.sub (atoll pos_str) cur]
         then 0 else 1),
   [EvProxyNew id; EvCall id "Seek" [Int64.sub (atoll pos_str) cur]]).
Proof.
  intros Hx Hs Hp.
  unfold handle_set_position, g_dbus_proxy_new_for_bus_sync,
    g_dbus_proxy_get_cached_property, call_sync.
  rewrite Hx. cbn. rewrite Hs. cbn. rewrite Hp. cbn.
  destruct (bus_call bus id "Seek" _); reflexivity.
Qed.

(** C3: on a player whose proxy can be created, whose [CanSeek] is true
    and whose [Position] is the 64-bit integer [cur], [set-position] calls
    [Seek] once, with the offset [target - cur] computed on [gint64], where
    [target] is the parsed argument; the offset is the exact difference
    whenever that fits in 64 bits.  The exit code tells whether the call
    succeeded. *)
Theorem set_position_offset (bus : Bus) (id pos_str : string) (cur : Z) :
  bus_proxy bus id = true ->
  bus_property bus id "CanSeek" = Some (VBool true) ->
  bus_property bus id "Position" = Some (VInt64 cur) ->
  let target := atoll pos_str in
  let offset := Int64.sub target cur in
  handle_set_position bus (Some id) pos_str =
    (Some (if bus_call bus id "Seek" [offset] then 0 else 1),
     [EvProxyNew id; EvCall id "Seek" [offset]]) /\
  (forall ticks argv0,
     method_calls
       (events (main (Some bus) ticks [argv0; "set-position"; id; pos_str])) =
     [(id, "Seek", [offset])]) /\
  (forall ticks argv0 rest log,
     find_players bus = (Some (id :: rest), log) ->
     method_calls
       (events (main (Some bus) ticks [argv0; "set-position"; pos_str])) =
     [(id, "Seek", [offset])]) /\
  (Int64.in_range (target - cur) = true -> offset = target - cur).
Proof.
  intros Hx Hs Hp target offset.
  pose proof (handle_set_position_seek bus id pos_str cur Hx Hs Hp) as H.
  fold target in H. fold offset in H.
  split; [exact H|split; [|split]].
  - intros ticks argv0. rewrite main_set_position, H. reflexivity.
  - intros ticks argv0 rest log Hf.
    rewrite (main_set_position_default bus ticks argv0 pos_str id rest log Hf).
    rewrite H. cbn. rewrite method_calls_app.
    now rewrite (find_players_calls bus _ log Hf).
  - intros Hr. unfold offset, Int64.sub. now apply wrap_in_range.
Qed.

(** Position 5,000,000 and target 8,000,000 give the offset 3,000,000. *)
Lemma set_position_offset_witness :
  handle_set_position three_players (Some P1) "8000000" =
  (Some 0, [EvProxyNew P1; EvCall P1 "Seek" [3000000]]).
Proof.
  exact (proj1 (set_position_offset three_players P1 "8000000" 5000000
                  eq_refl eq_refl eq_refl)).
Defined.

Lemma handle_set_position_percent_seek (bus : Bus) (id percent_str : string)
    (len cur : Z) :
  bus_proxy bus id = true ->
  bus_property bus id "CanSeek" = Some (VBool true) ->
  out_of_percent_range (atof percent_str) = false ->
  track_length_is bus id len ->
  0 < len ->
  bus_property bus id "Position" = Some (VInt64 cur) ->
  let offset :=
    Int64.sub
      (Double.to_int64
         (Double.mul (Double.div (atof percent_str) (Double.of_Z 100))
                     (Double.of_Z len)))
      cur in
  handle_set_position_percent bus (Some id) percent_str =
  (Some (if bus_call bus id "Seek" [offset] then 0 else 1),
   [EvProxyNew id; EvCall id "Seek" [offset]]).
Proof.
  intros Hx Hs Hr (entries & Hm & Hl) Hlen Hp offset.
  unfold handle_set_position_percent, g_dbus_proxy_new_for_bus_sync,
    g_dbus_proxy_get_cached_property, call_sync.
  rewrite Hx. cbn [bind emit ret]. rewrite Hs. cbn [g_variant_get_boolean negb].
  unfold out_of_percent_range in Hr. rewrite Hr.
  rewrite Hm. unfold g_variant_lookup_value. rewrite Hl.
  cbn [g_variant_is_of_type g_variant_get_int64].
  destruct (Z.leb_spec len 0) as [Hle|_]; [lia|].
  rewrite Hp. cbn [g_variant_get_int64]. fold offset.
  destruct (bus_call bus id "Seek" [offset]); reflexivity.
Qed.

(** C4, as the code has it: on a player whose proxy can be created, whose
    [CanSeek] is true, whose metadata give the positive length [len] and
    whose [Position] is [cur], [set-position-percent] with a percentage
    between 0 and 100 calls [Seek] once with the offset [target - cur],
    where [target] is the [double] product [(percentage / 100.0) * len],
    quotient and product each rounded to the nearest [double], converted to
    [gint64]: when its integer part fits in 64 bits, [target] is that
    product rounded toward zero.  For a whole percentage [n] and a length
    below 2^44 microseconds, [target] is the exact [n * len / 100] rounded
    toward zero, or one less where [n * len / 100] is an integer. *)
Theorem set_position_percent_offset (bus : Bus) (id percent_str : string)
    (len cur : Z) :
  bus_proxy bus id = true ->
  bus_property bus id "CanSeek" = Some (VBool true) ->
  in_percent_range (atof percent_str) = true ->
  track_length_is bus id len ->
  0 < len ->
  bus_property bus id "Position" = Some (VInt64 cur) ->
  let percentage := atof percent_str in
  let product :=
    Double.mul (Double.div percentage (Double.of_Z 100)) (Double.of_Z len) in
  let target := Double.to_int64 product in
  let offset := Int64.sub target cur in
  handle_set_position_percent bus (Some id) percent_str =
    (Some (if bus_call bus id "Seek" [offset] then 0 else 1),
     [EvProxyNew id; EvCall id "Seek" [offset]]) /\
  (forall ticks argv0,
     method_calls
       (events (main (Some bus) ticks
                     [argv0; "set-position-percent"; id; percent_str])) =
     [(id, "Seek", [offset])]) /\
  (forall ticks argv0 rest log,
     find_players bus = (Some (id :: rest), log) ->
     method_calls
       (events (main (Some bus) ticks
                     [argv0; "set-position-percent"; percent_str])) =
     [(id, "Seek", [offset])]) /\
  (forall z, Double.truncate product = Some z ->
             Int64.in_range z = true ->
             target = z /\ rounded_toward_zero product z) /\
  (Int64.in_range (target - cur) = true -> offset = target - cur) /\
  (forall n, 0 <= n <= 100 -> percentage = Double.of_Z n -> len < 2 ^ 44 ->
     target = exact_percent_target n len \/
     (target = exact_percent_target n len - 1 /\ (n * len) mod 100 = 0)).
Proof.
  intros Hx Hs Hr Hlen Hpos Hp percentage product target offset.
  pose proof (handle_set_position_percent_seek bus id percent_str len cur
                Hx Hs (in_range_not_out _ Hr) Hlen Hpos Hp) as H.
  cbv zeta in H. fold percentage in H. fold product in H.
  fold target in H. fold offset in H.
  split; [exact H|split; [|split; [|split; [|split]]]].
  - intros ticks argv0. rewrite main_set_position_percent, H. reflexivity.
  - intros ticks argv0 rest log Hf.
    rewrite (main_set_position_percent_default bus ticks argv0 percent_str
               id rest log Hf).
    rewrite H. cbn. rewrite method_calls_app.
    now rewrite (find_players_calls bus _ log Hf).
  - intros z Hz Hin. split; [|now apply truncate_toward_zero].
    unfold target, Double.to_int64. now rewrite Hz, Hin.
  - intros Hin. unfold offset, Int64.sub. now apply wrap_in_range.
  - intros n Hn Hwhole Hshort. unfold target, product. rewrite Hwhole.
    apply whole_percent_target; lia.
Qed.

(** Length 200,000,000, percentage 50.0 and position 10,000,000 give the
    target 100,000,000 and the offset 90,000,000. *)
Lemma set_position_percent_offset_witness :
  Double.to_int64
    (Double.mul (Double.div (atof "50.0") (Double.of_Z 100))
                (Double.of_Z 200000000)) = 100000000 /\
  handle_set_position_percent one_player (Some P1) "50.0" =
  (Some 0, [EvProxyNew P1; EvCall P1 "Seek" [90000000]]).
Proof.
  split; [reflexivity|].
  refine (proj1 (set_position_percent_offset one_player P1 "50.0"
                   200000000 10000000 eq_refl eq_refl eq_refl _ eq_refl
                   eq_refl)).
  eexists. split; reflexivity.
Defined.

(** C4 as worded fails.  29 percent of a track of 100,000,000 microseconds
    is 29,000,000 exactly; the [double] nearest to 0.29 lies below 0.29,
    the product comes out below 29,000,000 and [Seek] is called with
    28,999,999. *)
Lemma percent_target_counterexample :
  bus_proxy hundred_second_player P1 = true /\
  bus_property hundred_second_player P1 "CanSeek" = Some (VBool true) /\
  in_percent_range (atof "29") = true /\
  atof "29" = Double.of_Z 29 /\
  track_length_is hundred_second_player P1 100000000 /\
  bus_property hundred_second_player P1 "Position" = Some (VInt64 0) /\
  exact_percent_target 29 100000000 = 29000000 /\
  handle_set_position_percent hundred_second_player (Some P1) "29" =
    (Some 0, [EvProxyNew P1; EvCall P1 "Seek" [28999999]]) /\
  method_calls
    (events (main (Some hundred_second_player) []
                  ["ndfr-media-helper"; "set-position-percent"; P1; "29"])) =
    [(P1, "Seek", [28999999])] /\
  28999999 <> exact_percent_target 29 100000000 - 0.
Proof.
  repeat split; try reflexivity.
  - eexists. split; reflexivity.
  - discriminate.
Qed.

Lemma handle_set_position_percent_rejects (bus : Bus)
    (player_id : option string) (percent_str : string) :
  out_of_percent_range (atof percent_str) = true ->
  handle_set_position_percent bus player_id percent_str =
  (Some 1, match player_id with
           | Some id => [EvProxyNew id]
           | None => []
           end).
Proof.
  intros Hr. unfold out_of_percent_range in Hr.
  unfold handle_set_position_percent, g_dbus_proxy_new_for_bus_sync,
    g_dbus_proxy_get_cached_property.
  destruct player_id as [id|]; [|reflexivity].
  destruct (bus_proxy bus id); cbn [bind emit ret]; [|reflexivity].
  destruct (bus_property bus id "CanSeek") as [v|]; [|reflexivity].
  destruct (negb (g_variant_get_boolean v)); [reflexivity|].
  rewrite Hr. reflexivity.
Qed.

(** C5, as the code has it: a percentage below 0 or above 100 makes
    [set-position-percent] fail with exit code 1 without any method call
    on a player; the only bus operation of the handler is the creation of
    the proxy, which comes before the range check. *)
Theorem percent_out_of_range_fails (bus : Bus) (player_id : option string)
    (percent_str : string) :
  out_of_percent_range (atof percent_str) = true ->
  value (handle_set_position_percent bus player_id percent_str) = Some 1 /\
  method_calls
    (events (handle_set_position_percent bus player_id percent_str)) = [] /\
  (forall id, player_id = Some id ->
     events (handle_set_position_percent bus player_id percent_str) =
     [EvProxyNew id]) /\
  (forall ticks argv0 id,
     main (Some bus) ticks [argv0; "set-position-percent"; id; percent_str] =
     (Some (Exited 1), [EvProxyNew id])).
Proof.
  intros Hr. split; [|split; [|split]].
  - now rewrite (handle_set_position_percent_rejects bus player_id _ Hr).
  - rewrite (handle_set_position_percent_rejects bus player_id _ Hr).
    destruct player_id; reflexivity.
  - intros id ->.
    now rewrite (handle_set_position_percent_rejects bus (Some id) _ Hr).
  - intros ticks argv0 id.
    rewrite main_set_position_percent.
    now rewrite (handle_set_position_percent_rejects bus (Some id) _ Hr).
Qed.

(** The percentages -1 and 101 on a seekable player. *)
Lemma percent_out_of_range_fails_witness :
  main (Some one_player) [] ["ndfr-media-helper"; "set-position-percent"; P1; "-1"] =
    (Some (Exited 1), [EvProxyNew P1]) /\
  main (Some one_player) [] ["ndfr-media-helper"; "set-position-percent"; P1; "101"] =
    (Some (Exited 1), [EvProxyNew P1]).
Proof.
  split.
  - exact (proj2 (proj2 (proj2
      (percent_out_of_range_fails one_player (Some P1) "-1" eq_refl))) [] _ P1).
  - exact (proj2 (proj2 (proj2
      (percent_out_of_range_fails one_player (Some P1) "101" eq_refl))) [] _ P1).
Defined.

(** The claim as worded asks for no bus call at all; with the percentage
    101 the handler has already created the proxy of the player, and
    without an explicit player the program has also listed the names. *)
Lemma percent_out_of_range_counterexample :
  out_of_percent_range (atof "101") = true /\
  bus_operations
    (events (handle_set_position_percent one_player (Some P1) "101")) <> [] /\
  bus_operations
    (events (main (Some one_player) []
                  ["ndfr-media-helper"; "set-position-percent"; "101"])) =
    [EvListNames; EvProxyNew P1; EvProxyNew P1].
Proof.
  split; [reflexivity|split; [|reflexivity]].
  change (bus_operations
            (events (handle_set_position_percent one_player (Some P1) "101")))
    with [EvProxyNew P1].
  discriminate.
Qed.

Lemma handle_set_position_no_seek (bus : Bus) (id pos_str : string) :
  bus_property bus id "CanSeek" = None \/
  bus_property bus id "CanSeek" = Some (VBool false) ->
  handle_set_position bus (Some id) pos_str = (Some 1, [EvProxyNew id]).
Proof.
  intros Hs.
  unfold handle_set_position, g_dbus_proxy_new_for_bus_sync,
    g_dbus_proxy_get_cached_property.
  destruct (bus_proxy bus id); cbn [bind emit ret]; [|reflexivity].
  destruct Hs as [-> | ->]; reflexivity.
Qed.

Lemma handle_set_position_percent_no_seek (bus : Bus) (id percent_str : string) :
  bus_property bus id "CanSeek" = None \/
  bus_property bus id "CanSeek" = Some (VBool false) ->
  handle_set_position_percent bus (Some id) percent_str =
  (Some 1, [EvProxyNew id]).
Proof.
  intros Hs.
  unfold handle_set_position_percent, g_dbus_proxy_new_for_bus_sync,
    g_dbus_proxy_get_cached_property.
  destruct (bus_proxy bus id); cbn [bind emit ret]; [|reflexivity].
  destruct Hs as [-> | ->]; reflexivity.
Qed.

(** C6: on a player whose [CanSeek] property is absent or false, both
    seek commands return 1 after creating the proxy and call no method;
    so does the program, with the player named on the command line or
    taken from the head of the ranking. *)
Theorem seek_requires_can_seek (bus : Bus) (id str : string) :
  bus_property bus id "CanSeek" = None \/
  bus_property bus id "CanSeek" = Some (VBool false) ->
  handle_set_position bus (Some id) str = (Some 1, [EvProxyNew id]) /\
  handle_set_position_percent bus (Some id) str = (Some 1, [EvProxyNew id]) /\
  (forall ticks argv0,
     main (Some bus) ticks [argv0; "set-position"; id; str] =
       (Some (Exited 1), [EvProxyNew id]) /\
     main (Some bus) ticks [argv0; "set-position-percent"; id; str] =
       (Some (Exited 1), [EvProxyNew id])) /\
  (forall ticks argv0 rest log,
     find_players bus = (Some (id :: rest), log) ->
     main (Some bus) ticks [argv0; "set-position"; str] =
       (Some (Exited 1), log ++ [EvProxyNew id]) /\
     main (Some bus) ticks [argv0; "set-position-percent"; str] =
       (Some (Exited 1), log ++ [EvProxyNew id]) /\
     method_calls (log ++ [EvProxyNew id]) = []).
Proof.
  intros Hs.
  pose proof (handle_set_position_no_seek bus id str Hs) as H1.
  pose proof (handle_set_position_percent_no_seek bus id str Hs) as H2.
  split; [exact H1|split; [exact H2|split]].
  - intros ticks argv0.
    rewrite main_set_position, main_set_position_percent, H1, H2.
    split; reflexivity.
  - intros ticks argv0 rest log Hf.
    rewrite (main_set_position_default bus ticks argv0 str id rest log Hf).
    rewrite (main_set_position_percent_default bus ticks argv0 str id rest log Hf).
    rewrite H1, H2. repeat split.
    rewrite method_calls_app.
    now rewrite (find_players_calls bus _ log Hf).
Qed.

(** P2 has [CanSeek] false and P3 has no [CanSeek] at all. *)
Lemma seek_requires_can_seek_witness :
  handle_set_position three_players (Some P2) "8000000" =
    (Some 1, [EvProxyNew P2]) /\
  handle_set_position_percent three_players (Some P3) "50.0" =
    (Some 1, [EvProxyNew P3]).
Proof.
  split.
  - exact (proj1 (seek_requires_can_seek three_players P2 "8000000"
                    (or_intror eq_refl))).
  - exact (proj1 (proj2 (seek_requires_can_seek three_players P3 "50.0"
                           (or_introl eq_refl)))).
Defined.

(** ** Play/pause *)

Lemma main_play_pause_explicit (bus : Bus) (ticks : list Bus)
    (argv0 id : string) :
  main (Some bus) ticks [argv0; "play-pause"; id] =
  (Some (Exited 0), [EvCall id "PlayPause" []]).
Proof. reflexivity. Qed.

Lemma main_play_pause_default (bus : Bus) (ticks : list Bus)
    (argv0 : string) (players : list string) (log : list Event) :
  find_players bus = (Some players, log) ->
  main (Some bus) ticks [argv0; "play-pause"] =
  match players with
  | id :: _ => (Some (Exited 0), log ++ [EvCall id "PlayPause" []])
  | [] => (Some (Exited 1), log)
  end.
Proof.
  intros Hf. unfold main. cbn -[find_players].
  rewrite Hf. destruct players as [|id rest]; cbn;
    rewrite ?app_nil_r; reflexivity.
Qed.

(** C9, as the code has it: [play-pause] exits with 0 as soon as a target
    player is resolved, named on the command line or taken from the head
    of the ranking, whatever becomes of the [PlayPause] call, whose reply
    and error are discarded; it exits with 1 when no player is named and
    none is ranked. *)
Theorem play_pause_exit_code (bus : Bus) (ticks : list Bus) (argv0 : string) :
  (forall id,
     main (Some bus) ticks [argv0; "play-pause"; id] =
     (Some (Exited 0), [EvCall id "PlayPause" []])) /\
  (forall log,
     find_players bus = (Some [], log) ->
     main (Some bus) ticks [argv0; "play-pause"] = (Some (Exited 1), log) /\
     method_calls log = []) /\
  (forall id rest log,
     find_players bus = (Some (id :: rest), log) ->
     main (Some bus) ticks [argv0; "play-pause"] =
     (Some (Exited 0), log ++ [EvCall id "PlayPause" []])).
Proof.
  split; [|split].
  - intros id. apply main_play_pause_explicit.
  - intros log Hf.
    rewrite (main_play_pause_default bus ticks argv0 [] log Hf).
    split; [reflexivity|]. exact (find_players_calls bus _ log Hf).
  - intros id rest log Hf.
    now rewrite (main_play_pause_default bus ticks argv0 (id :: rest) log Hf).
Qed.

(** Without a player on the bus the exit code is 1; with the playing
    player P2 ranked first, the call goes to P2 and the exit code is 0. *)
Lemma play_pause_exit_code_witness :
  main (Some no_players) [] ["ndfr-media-helper"; "play-pause"] =
    (Some (Exited 1), [EvListNames]) /\
  value (main (Some three_players) [] ["ndfr-media-helper"; "play-pause"]) =
    Some (Exited 0) /\
  method_calls
    (events (main (Some three_players) [] ["ndfr-media-helper"; "play-pause"]))
    = [(P2, "PlayPause", [])].
Proof.
  destruct (play_pause_exit_code no_players [] "ndfr-media-helper")
    as (_ & Hnone & _).
  destruct (play_pause_exit_code three_players [] "ndfr-media-helper")
    as (_ & _ & Hsome).
  split; [exact (proj1 (Hnone [EvListNames] eq_refl))|].
  rewrite (Hsome P2 [P3; P1] _ eq_refl). split; reflexivity.
Defined.

(** The claim as worded has exit code 1 when the toggle fails; here the
    [PlayPause] call on P1 returns an error and the exit code is 0. *)
Lemma play_pause_failure_counterexample :
  bus_call deaf_player P1 "PlayPause" [] = false /\
  main (Some deaf_player) [] ["ndfr-media-helper"; "play-pause"; P1] =
    (Some (Exited 0), [EvCall P1 "PlayPause" []]) /\
  value (main (Some deaf_player) [] ["ndfr-media-helper"; "play-pause"; P1])
    <> Some (Exited 1).
Proof.
  split; [reflexivity|split; [reflexivity|]].
  rewrite main_play_pause_explicit. discriminate.
Qed.

(** ** Arguments that are not numbers *)

Lemma atoll_unparsable (s : string) : parse_integer s = None -> atoll s = 0.
Proof. unfold atoll. now intros ->. Qed.

Lemma atof_unparsable (s : string) :
  parse_double s = None -> atof s = Double.zero.
Proof. unfold atof. now intros ->. Qed.

(** C10: an argument in which the C library finds no number reads as 0.
    [set-position] then calls [Seek] with the offset [0 - cur], and
    [set-position-percent] takes the percentage 0.0, which is within
    range, and calls [Seek] as for 0 percent, that is, with the offset
    [0 - cur] again; either command exits with 0 when the call succeeds. *)
Theorem unparsable_argument_is_zero (bus : Bus) (id str : string) (cur : Z) :
  bus_proxy bus id = true ->
  bus_property bus id "CanSeek" = Some (VBool true) ->
  bus_property bus id "Position" = Some (VInt64 cur) ->
  (parse_integer str = None ->
   atoll str = 0 /\
   handle_set_position bus (Some id) str =
     (Some (if bus_call bus id "Seek" [Int64.sub 0 cur] then 0 else 1),
      [EvProxyNew id; EvCall id "Seek" [Int64.sub 0 cur]]) /\
   (bus_call bus id "Seek" [Int64.sub 0 cur] = true ->
    forall ticks argv0,
      value (main (Some bus) ticks [argv0; "set-position"; id; str]) =
      Some (Exited 0))) /\
  (parse_double str = None ->
   atof str = Double.zero /\
   in_percent_range (atof str) = true /\
   forall len,
     track_length_is bus id len ->
     0 < len ->
     let offset :=
       Int64.sub
         (Double.to_int64
            (Double.mul (Double.div Double.zero (Double.of_Z 100))
                        (Double.of_Z len)))
         cur in
     handle_set_position_percent bus (Some id) str =
       (Some (if bus_call bus id "Seek" [offset] then 0 else 1),
        [EvProxyNew id; EvCall id "Seek" [offset]]) /\
     (bus_call bus id "Seek" [offset] = true ->
      forall ticks argv0,
        value (main (Some bus) ticks
                    [argv0; "set-position-percent"; id; str]) =
        Some (Exited 0)) /\
     (len <= Int64.max_signed -> offset = Int64.sub 0 cur)).
Proof.
  intros Hx Hs Hp. split.
  - intros Hn.
    pose proof (handle_set_position_seek bus id str cur Hx Hs Hp) as H.
    rewrite (atoll_unparsable str Hn) in H.
    split; [now apply atoll_unparsable|split; [exact H|]].
    intros Hok ticks argv0. rewrite main_set_position, H, Hok. reflexivity.
  - intros Hn.
    pose proof (atof_unparsable str Hn) as Hz.
    split; [exact Hz|split; [now rewrite Hz|]].
    intros len Hlen Hpos offset.
    assert (Hr : out_of_percent_range (atof str) = false)
      by now rewrite Hz.
    pose proof (handle_set_position_percent_seek bus id str len cur
                  Hx Hs Hr Hlen Hpos Hp) as H.
    cbv zeta in H. rewrite Hz in H. fold offset in H.
    split; [exact H|split].
    + intros Hok ticks argv0.
      rewrite main_set_position_percent, H, Hok. reflexivity.
    + intros Hmax. unfold offset.
      now rewrite (zero_percent_target len (conj Hpos Hmax)).
Qed.

(** The argument [abc] on a player 10 s into a track of 200 s: both
    commands seek by -10,000,000 and exit with 0. *)
Lemma unparsable_argument_is_zero_witness :
  main (Some one_player) [] ["ndfr-media-helper"; "set-position"; P1; "abc"] =
    (Some (Exited 0), [EvProxyNew P1; EvCall P1 "Seek" [-10000000]]) /\
  main (Some one_player) []
       ["ndfr-media-helper"; "set-position-percent"; P1; "abc"] =
    (Some (Exited 0), [EvProxyNew P1; EvCall P1 "Seek" [-10000000]]).
Proof.
  destruct (unparsable_argument_is_zero one_player P1 "abc" 10000000
              eq_refl eq_refl eq_refl) as [Hpos Hpct].
  destruct (Hpos eq_refl) as (_ & Hrun & _).
  destruct (Hpct eq_refl) as (_ & _ & Hlen).
  assert (Hl : track_length_is one_player P1 200000000)
    by (eexists; split; reflexivity).
  destruct (Hlen 200000000 Hl eq_refl) as (Hrun' & _ & _).
  rewrite main_set_position, main_set_position_percent, Hrun, Hrun'.
  split; reflexivity.
Defined.

(** ** Aggregation *)

Lemma prefix_append (suffix : string) :
  g_str_has_prefix (mpris_prefix +++ suffix) mpris_prefix = true /\
  str_skip (String.length mpris_prefix) (mpris_prefix +++ suffix) = suffix.
Proof.
  split; cbn.
  - destruct suffix; reflexivity.
  - reflexivity.
Qed.

(** C7, as the code has it: for a player whose proxy can be created and
    which has neither [PlaybackStatus] nor [Metadata], the loop body does
    not fail and reports title, artist and status as empty strings, length
    0, position 0 when [Position] is absent too, and as icon the part of
    the name after the MPRIS prefix.  The status is the empty string: the
    code has no value [Unknown]. *)
Theorem aggregate_bare_player (bus : Bus) (suffix : string) :
  let name := mpris_prefix +++ suffix in
  bus_proxy bus name = true ->
  bus_property bus name "PlaybackStatus" = None ->
  bus_property bus name "Metadata" = None ->
  exists st,
    aggregate bus name = (Some (Some st), [EvProxyNew name]) /\
    player_id st = name /\
    status st = Some "" /\
    length st = 0 /\
    title st = Some "" /\
    artist st = "" /\
    icon st = suffix /\
    (bus_property bus name "Position" = None ->
     position st = 0 /\
     player_json st =
       "{" +++ json_string "player_id" name +++
       "," +++ json_string "status" "" +++
       "," +++ json_number "position" 0 +++
       "," +++ json_number "length" 0 +++
       "," +++ json_string "title" "" +++
       "," +++ json_string "artist" "" +++
       "," +++ json_string "icon" suffix +++ "}").
Proof.
  intros name Hx Hs Hm.
  destruct (prefix_append suffix) as [Hpre Hskip]. fold name in Hpre, Hskip.
  unfold aggregate, g_dbus_proxy_new_for_bus_sync,
    g_dbus_proxy_get_cached_property.
  rewrite Hx. cbn [bind emit ret]. rewrite Hs, Hm, Hpre, Hskip.
  cbn [bind ret app md_length md_title md_artist].
  eexists. split; [reflexivity|].
  cbn [player_id status length title artist icon position].
  repeat split.
  - now rewrite H.
  - unfold player_json. cbn [player_id status length title artist icon position].
    now rewrite H.
Qed.

(** A player named [org.mpris.MediaPlayer2.mpv] without any property. *)
Lemma aggregate_bare_player_witness :
  exists st,
    aggregate bare_player P4 = (Some (Some st), [EvProxyNew P4]) /\
    status st = Some "" /\
    length st = 0 /\
    title st = Some "" /\
    artist st = "" /\
    icon st = "mpv".
Proof.
  destruct (aggregate_bare_player bare_player "mpv" eq_refl eq_refl eq_refl)
    as (st & Hrun & _ & Hs & Hl & Ht & Ha & Hi & _).
  exists st. split; [exact Hrun|]. auto.
Defined.

(** The claim as worded has the status [Unknown]; the record of a player
    without any property has the empty string there, and so has the
    serialized snapshot. *)
Lemma aggregate_status_counterexample :
  exists st,
    aggregate bare_player P4 = (Some (Some st), [EvProxyNew P4]) /\
    status st = Some "" /\
    status st <> Some "Unknown" /\
    json_string "status" (fmt_s (status st)) <> json_string "status" "Unknown".
Proof.
  eexists. split; [reflexivity|]. cbn.
  repeat split; discriminate.
Qed.

(** ** Boundary cases *)

(** A [PlaybackStatus] that is not a string makes [find_players] pass NULL
    to [strcmp]. *)
Example find_players_status_not_a_string :
  value (find_players
           (make_bus (Some [P1]) [(P1, [("PlaybackStatus", VBool true)])] []))
  = None.
Proof. reflexivity. Qed.

(** The product is computed in binary64: 29.0 / 100.0 is just below
    29/100, and so 29 percent of 100,000,000 is 28,999,999. *)
Example percent_product_in_binary64 :
  Double.to_int64
    (Double.mul (Double.div (atof "29") (Double.of_Z 100))
                (Double.of_Z 100000000)) = 28999999.
Proof. reflexivity. Qed.

(** NaN is neither below 0 nor above 100, so the range check lets it
    through. *)
Example nan_passes_the_range_check :
  in_percent_range (atof "nan") = false /\
  out_of_percent_range (atof "nan") = false.
Proof. split; reflexivity. Qed.

(** The seek commands read [Position] with [g_variant_get_int64] only: an
    unsigned [Position], which [get_players_json] accepts, counts as 0. *)
Example unsigned_position_in_set_position :
  let bus := make_bus (Some [P1])
               [(P1, [("PlaybackStatus", VString "Playing");
                      ("CanSeek", VBool true);
                      ("Position", VUInt64 5000000)])] [] in
  match value (aggregate bus P1) with
  | Some (Some st) => position st = 5000000
  | _ => False
  end /\
  method_calls (events (handle_set_position bus (Some P1) "8000000")) =
  [(P1, "Seek", [8000000])].
Proof. split; reflexivity. Qed.

(** * Further properties *)

(** ** Discovery and snapshots touch the bus read-only *)

Lemma Forall_bind {A B : Type} (P : Event -> Prop) (m : Run A)
    (k : A -> Run B) :
  Forall P (events m) ->
  (forall a, value m = Some a -> Forall P (events (k a))) ->
  Forall P (events (bind m k)).
Proof.
  intros Hm Hk. rewrite bind_events.
  destruct (value m) as [a|] eqn:E; [|exact Hm].
  apply Forall_app. split; [exact Hm|now apply Hk].
Qed.

Lemma aggregate_events (bus : Bus) (name : string) :
  events (aggregate bus name) = [EvProxyNew name].
Proof.
  unfold aggregate, g_dbus_proxy_new_for_bus_sync,
    g_dbus_proxy_get_cached_property.
  destruct (bus_proxy bus name); [|reflexivity]. cbn [bind emit ret].
  destruct (bus_property bus name "Metadata") as [[]|]; reflexivity.
Qed.

Section DiscoveryTraffic.

Variable bus : Bus.

Lemma find_players_loop_traffic (names : list string) :
  forall playing paused,
    Forall prefixed playing -> Forall prefixed paused ->
    Forall discovery (events (find_players_loop bus names playing paused)) /\
    (forall a b,
        value (find_players_loop bus names playing paused) = Some (a, b) ->
        Forall prefixed a /\ Forall prefixed b).
Proof.
  induction names as [|name rest IH]; intros playing paused Hpl Hpa.
  - split; [constructor|]. cbn. intros a b [= <- <-]. now split.
  - cbn [find_players_loop].
    destruct (g_str_has_prefix name mpris_prefix) eqn:Hp; [|now apply IH].
    unfold g_dbus_proxy_new_for_bus_sync, g_dbus_proxy_get_cached_property.
    cbn [bind emit ret].
    assert (Hstep : forall r : Run (list string * list string),
      Forall discovery (events r) /\
      (forall a b, value r = Some (a, b) ->
                   Forall prefixed a /\ Forall prefixed b) ->
      Forall discovery
        (events (let (v, log') := r in (v, ([EvProxyNew name] ++ []) ++ log')))
      /\ (forall a b,
            value (let (v, log') := r in (v, ([EvProxyNew name] ++ []) ++ log'))
            = Some (a, b) ->
            Forall prefixed a /\ Forall prefixed b)).
    { intros [v log'] [He Hv]. split; [|exact Hv].
      cbn. constructor; [exact Hp|exact He]. }
    apply Hstep.
    destruct (bus_proxy bus name); [|now apply IH].
    destruct (bus_property bus name "PlaybackStatus") as [v|];
      [|now apply IH].
    destruct (g_variant_get_string v) as [s|].
    2: { split; [constructor|]. cbn. discriminate. }
    assert (Hname : Forall prefixed [name]) by (constructor; [exact Hp|constructor]).
    destruct (streq s "Playing").
    { apply IH; [apply Forall_app; now split|exact Hpa]. }
    destruct (streq s "Paused").
    { apply IH; [exact Hpl|apply Forall_app; now split]. }
    now apply IH.
Qed.

Lemma find_players_traffic :
  Forall discovery (events (find_players bus)) /\
  (forall players, value (find_players bus) = Some players ->
                   Forall prefixed players).
Proof.
  unfold find_players, list_names. cbn [bind emit ret].
  destruct (bus_names bus) as [names|].
  2: { cbn. split; [repeat constructor|]. intros players [= <-]. constructor. }
  destruct (find_players_loop_traffic names [] [] (Forall_nil _) (Forall_nil _))
    as [He Hv].
  destruct (find_players_loop bus names [] []) as [[[a b]|] log]; cbn in *.
  - rewrite app_nil_r. split; [constructor; [reflexivity|exact He]|].
    intros players [= <-]. destruct (Hv a b eq_refl).
    apply Forall_app. now split.
  - split; [constructor; [reflexivity|exact He]|]. discriminate.
Qed.

Lemma get_players_json_loop_traffic (l : list string) :
  Forall prefixed l ->
  forall json_str,
    Forall discovery (events (get_players_json_loop bus l json_str)).
Proof.
  induction l as [|name next IH]; intros Hl json_str; [constructor|].
  inversion Hl as [|? ? Hname Hnext]; subst.
  cbn [get_players_json_loop].
  apply Forall_bind.
  - rewrite aggregate_events. constructor; [exact Hname|constructor].
  - intros [st|] _; now apply IH.
Qed.

End DiscoveryTraffic.

(** X1: building a snapshot only reads the bus.  Whatever the bus holds,
    and also when the run faults, the events of [find_players] and of
    [get_players_json] are the name listing and proxy creations for names
    with the MPRIS prefix: no method is called on any player, no proxy is
    opened on another name, and nothing is written. *)
Theorem snapshot_is_read_only (bus : Bus) :
  Forall discovery (events (find_players bus)) /\
  Forall discovery (events (get_players_json bus)) /\
  method_calls (events (get_players_json bus)) = [] /\
  stdout_of (events (get_players_json bus)) = [].
Proof.
  destruct (find_players_traffic bus) as [He Hv].
  destruct (get_players_json_quiet bus) as [Hout Hcalls].
  split; [exact He|split; [|split; assumption]].
  unfold get_players_json. apply Forall_bind; [exact He|].
  intros players Hp. specialize (Hv players Hp).
  destruct players as [|p players]; [constructor|].
  apply Forall_bind; [now apply get_players_json_loop_traffic|].
  intros; constructor.
Qed.

(** ** The ranking *)

Lemma find_players_loop_faults (bus : Bus) (names : list string) :
  forall playing paused,
    value (find_players_loop bus names playing paused) <> None ->
    statuses_typed bus names.
Proof.
  induction names as [|name rest IH]; intros playing paused Hv n Hin Hc.
  - destruct Hin.
  - cbn [find_players_loop] in Hv.
    assert (Hrest : forall pl pa,
               value (find_players_loop bus rest pl pa) <> None ->
               status_typed bus n = true).
    { intros pl pa Hr. destruct Hin as [<-|Hin].
      - clear IH.
        revert Hv. unfold candidate in Hc. apply andb_prop in Hc.
        destruct Hc as [Hp Hx]. rewrite Hp.
        unfold g_dbus_proxy_new_for_bus_sync, g_dbus_proxy_get_cached_property,
          status_typed.
        rewrite Hx. cbn [bind emit ret].
        destruct (bus_property bus name "PlaybackStatus") as [[]|];
          try reflexivity; cbn; intros Hv; now contradiction Hv.
      - exact (IH pl pa Hr n Hin Hc). }
    revert Hv.
    destruct (g_str_has_prefix name mpris_prefix); [|apply Hrest].
    unfold g_dbus_proxy_new_for_bus_sync, g_dbus_proxy_get_cached_property.
    cbn [bind emit ret].
    assert (Hlift : forall r : Run (list string * list string),
               value (let (v, log') := r in
                      (v, ([EvProxyNew name] ++ []) ++ log')) = value r)
      by (intros [v log']; reflexivity).
    rewrite Hlift.
    destruct (bus_proxy bus name); [|apply Hrest].
    destruct (bus_property bus name "PlaybackStatus") as [v|]; [|apply Hrest].
    destruct (g_variant_get_string v) as [s|] eqn:Es.
    + destruct (streq s "Playing"); [apply Hrest|].
      destruct (streq s "Paused"); apply Hrest.
    + cbn. intros Hv. now contradiction Hv.
Qed.

Lemma find_players_value_typed (bus : Bus) (names : list string) :
  bus_names bus = Some names ->
  value (find_players bus) <> None -> statuses_typed bus names.
Proof.
  intros Hn. unfold find_players, list_names. cbn [bind emit ret]. rewrite Hn.
  intros Hv. apply (find_players_loop_faults bus names [] []).
  destruct (find_players_loop bus names [] []) as [[b|] log];
    [discriminate|]. cbn in Hv. now contradiction Hv.
Qed.

(** X2: once the names are listed, [find_players] completes exactly when
    every name it classifies has a string [PlaybackStatus] or none;
    otherwise the run faults at the [strcmp] on the NULL status. *)
Theorem find_players_completes_iff (bus : Bus) (names : list string) :
  bus_names bus = Some names ->
  (value (find_players bus) <> None <-> statuses_typed bus names).
Proof.
  intros Hn. split.
  - now apply find_players_value_typed.
  - intros Hty. rewrite (find_players_spec bus names Hn Hty). discriminate.
Qed.

(** Both directions on two buses: one with well-typed statuses, one whose
    only player has a Boolean status. *)
Lemma find_players_completes_iff_witness :
  value (find_players three_players) <> None /\
  ~ statuses_typed
      (make_bus (Some [P1]) [(P1, [("PlaybackStatus", VBool true)])] [])
      [P1].
Proof.
  split.
  - apply (proj2 (find_players_completes_iff three_players _ eq_refl)).
    typed_statuses.
  - intros Hty.
    apply (proj2 (find_players_completes_iff
                    (make_bus (Some [P1])
                       [(P1, [("PlaybackStatus", VBool true)])] [])
                    [P1] eq_refl)) in Hty.
    now apply Hty.
Defined.

Lemma has_status_exclusive (bus : Bus) (s t name : string) :
  has_status bus s name = true -> has_status bus t name = true -> s = t.
Proof.
  intros Hs Ht.
  apply has_status_inv in Hs. apply has_status_inv in Ht.
  destruct Hs as (_ & _ & Hs). destruct Ht as (_ & _ & Ht).
  congruence.
Qed.

Lemma filter_two_length {A : Type} (f g : A -> bool) (l : list A) :
  (forall x, f x = true -> g x = true -> False) ->
  (List.length (filter f l) + List.length (filter g l) <= List.length l)%nat.
Proof.
  intros Hfg. induction l as [|a l IH]; [reflexivity|].
  cbn. destruct (f a) eqn:Ef, (g a) eqn:Eg; cbn; try lia.
  exfalso. now apply (Hfg a).
Qed.

(** X3: the ranking never lists a player twice unless the bus does: when
    the listed names are pairwise distinct, so are the ranked players, and
    there are never more ranked players than listed names. *)
Theorem ranking_has_no_duplicates (bus : Bus) (names players : list string) :
  bus_names bus = Some names ->
  value (find_players bus) = Some players ->
  (List.length players <= List.length names)%nat /\
  (NoDup names -> NoDup players).
Proof.
  intros Hn Hv.
  assert (Hty : statuses_typed bus names).
  { apply (find_players_value_typed bus names Hn). rewrite Hv. discriminate. }
  rewrite (find_players_spec bus names Hn Hty) in Hv.
  injection Hv as <-.
  assert (Hex : forall x, has_status bus "Playing" x = true ->
                          has_status bus "Paused" x = true -> False).
  { intros x H1 H2. now pose proof (has_status_exclusive bus _ _ x H1 H2). }
  split.
  - rewrite length_app. now apply filter_two_length.
  - intros Hnd. apply NoDup_app; try now apply NoDup_filter.
    intros a Ha Hb. apply filter_In in Ha. apply filter_In in Hb.
    apply (Hex a); tauto.
Qed.

Lemma ranking_has_no_duplicates_witness :
  NoDup [P2; P3; P1].
Proof.
  apply (proj2 (ranking_has_no_duplicates three_players
                  ["org.freedesktop.DBus"; ":1.7"; P1; "org.gnome.Shell";
                   P2; P4; P3] [P2; P3; P1] eq_refl eq_refl)).
  repeat (constructor; [cbn; intuition discriminate|]). constructor.
Defined.

Lemma hd_error_filter {A : Type} (f : A -> bool) (l : list A) :
  hd_error (filter f l) = find f l.
Proof.
  induction l as [|a l IH]; [reflexivity|].
  cbn. destruct (f a); [reflexivity|exact IH].
Qed.

Lemma hd_error_app {A : Type} (l1 l2 : list A) :
  hd_error (l1 ++ l2) =
  match hd_error l1 with
  | Some x => Some x
  | None => hd_error l2
  end.
Proof. destruct l1; reflexivity. Qed.

(** X4: the player that a command without a player argument acts on is
    the first listed name that is playing, and only when none is playing
    the first one that is paused; [play-pause] without argument sends its
    one call to that player, and makes no call when there is none. *)
Theorem default_target_prefers_playing (bus : Bus) (names : list string) :
  bus_names bus = Some names ->
  statuses_typed bus names ->
  option_map (@hd_error string) (value (find_players bus)) =
    Some (default_player bus names) /\
  forall ticks argv0,
    method_calls (events (main (Some bus) ticks [argv0; "play-pause"])) =
    match default_player bus names with
    | Some p => [(p, "PlayPause", [])]
    | None => []
    end.
Proof.
  intros Hn Hty.
  pose proof (find_players_spec bus names Hn Hty) as Hf.
  assert (Hhd : hd_error (filter (has_status bus "Playing") names ++
                          filter (has_status bus "Paused") names) =
                default_player bus names).
  { rewrite hd_error_app, !hd_error_filter. reflexivity. }
  split.
  - rewrite Hf. cbn. now rewrite Hhd.
  - intros ticks argv0.
    rewrite (main_play_pause_default bus ticks argv0 _ _ Hf).
    rewrite <- Hhd.
    pose proof (find_players_calls bus _ _ Hf) as Hq.
    destruct (filter (has_status bus "Playing") names ++
              filter (has_status bus "Paused") names) as [|p rest];
      cbn [hd_error events snd].
    + exact Hq.
    + now rewrite method_calls_app, Hq.
Qed.

(** P1 is listed first but paused; P2 is the first playing player. *)
Lemma default_target_prefers_playing_witness :
  method_calls
    (events (main (Some three_players) [] ["ndfr-media-helper"; "play-pause"]))
  = [(P2, "PlayPause", [])].
Proof.
  exact (proj2 (default_target_prefers_playing three_players
                  ["org.freedesktop.DBus"; ":1.7"; P1; "org.gnome.Shell";
                   P2; P4; P3] eq_refl ltac:(typed_statuses))
               [] "ndfr-media-helper").
Defined.

(** ** The record of one player *)

Lemma append_assoc (a b c : string) : (a +++ b) +++ c = a +++ (b +++ c).
Proof. induction a as [|x a IH]; cbn; [reflexivity|now rewrite IH]. Qed.

Lemma prefix_skip (p s : string) :
  String.prefix p s = true -> p +++ str_skip (String.length p) s = s.
Proof.
  revert s. induction p as [|x p IH]; intros s H; [reflexivity|].
  destruct s as [|y s]; [discriminate|]. cbn in H |- *.
  destruct (Ascii.ascii_dec x y) as [->|Hxy]; [|discriminate].
  now rewrite (IH s H).
Qed.

Lemma icon_name_spec (name : string) :
  let icon_name :=
    if g_str_has_prefix name mpris_prefix
    then str_skip (String.length mpris_prefix) name
    else "" in
  (g_str_has_prefix name mpris_prefix = true ->
   mpris_prefix +++ icon_name = name) /\
  (g_str_has_prefix name mpris_prefix = false -> icon_name = "").
Proof.
  cbv zeta. destruct (g_str_has_prefix name mpris_prefix) eqn:Hp.
  - split; [intros _|discriminate].
    exact (prefix_skip mpris_prefix name Hp).
  - split; [discriminate|reflexivity].
Qed.

(** X5: the identity fields of a record come from the bus name alone:
    [player_id] is the name, and [icon] is what follows the MPRIS prefix, so
    that prefix and icon together give the name back; a name without the
    prefix gets an empty icon. *)
Theorem icon_is_the_name_suffix (bus : Bus) (name : string) (st : PlayerState) :
  value (aggregate bus name) = Some (Some st) ->
  player_id st = name /\
  (g_str_has_prefix name mpris_prefix = true ->
   mpris_prefix +++ icon st = name) /\
  (g_str_has_prefix name mpris_prefix = false -> icon st = "").
Proof.
  unfold aggregate, g_dbus_proxy_new_for_bus_sync,
    g_dbus_proxy_get_cached_property.
  destruct (bus_proxy bus name); cbn [bind emit ret];
    [|cbn; discriminate].
  destruct (bus_property bus name "Metadata") as [[]|];
    cbn [bind ret fault value fst]; try discriminate;
    intros [= <-]; cbn [player_id icon];
    (split; [reflexivity|apply icon_name_spec]).
Qed.

(** P3 has no metadata; its record carries the icon
    [firefox.instance_1_42]. *)
Lemma icon_is_the_name_suffix_witness :
  mpris_prefix +++ "firefox.instance_1_42" = P3.
Proof.
  exact (proj1 (proj2 (icon_is_the_name_suffix three_players P3
           {| player_id := P3; status := Some "Playing"; position := 0;
              length := 0; title := Some ""; artist := "";
              icon := "firefox.instance_1_42" |} eq_refl)) eq_refl).
Defined.

(** ** Metadata *)

Lemma lookup_entry_absent (key : string) (entries : list (string * GVariant)) :
  ~ In key (map fst entries) -> lookup_entry key entries = None.
Proof.
  induction entries as [|[k v] rest IH]; intros H; [reflexivity|].
  cbn in H |- *. unfold streq.
  destruct (String.eqb_spec k key) as [->|_]; [tauto|].
  apply IH. tauto.
Qed.

Lemma metadata_fold_lookup (entries : list (string * GVariant)) :
  NoDup (map fst entries) ->
  forall md,
    let md' := fold_left metadata_entry entries md in
    md_length md' =
      length_of_entry (lookup_entry "mpris:length" entries) (md_length md) /\
    md_title md' =
      title_of_entry (lookup_entry "xesam:title" entries) (md_title md) /\
    md_artist md' =
      artist_of_entry (lookup_entry "xesam:artist" entries) (md_artist md).
Proof.
  induction entries as [|[k v] rest IH]; intros Hnd md; [now cbn|].
  cbn [map fst] in Hnd. inversion Hnd as [|? ? Hk Hrest]; subst.
  specialize (IH Hrest).
  cbn [fold_left lookup_entry]. cbv zeta in IH |- *.
  destruct (IH (metadata_entry md (k, v))) as (Hl & Ht & Ha).
  rewrite Hl, Ht, Ha. clear Hl Ht Ha IH.
  unfold metadata_entry, streq.
  destruct (String.eqb_spec k "mpris:length") as [->|_].
  { rewrite (lookup_entry_absent _ rest Hk). cbn [String.eqb Ascii.eqb].
    destruct v; cbn; repeat split; reflexivity. }
  destruct (String.eqb_spec k "xesam:title") as [->|_].
  { rewrite (lookup_entry_absent _ rest Hk).
    cbn; repeat split; reflexivity. }
  destruct (String.eqb_spec k "xesam:artist") as [->|_].
  { rewrite (lookup_entry_absent _ rest Hk).
    destruct v as [| | | |[|first others]| |]; cbn; repeat split; reflexivity. }
  repeat split; reflexivity.
Qed.

Lemma aggregate_total (bus : Bus) (name : string) :
  bus_proxy bus name = true ->
  metadata_typed bus name = true ->
  exists st, aggregate bus name = (Some (Some st), [EvProxyNew name]).
Proof.
  intros Hx Hm. unfold metadata_typed in Hm.
  unfold aggregate, g_dbus_proxy_new_for_bus_sync,
    g_dbus_proxy_get_cached_property.
  rewrite Hx. cbn [bind emit ret].
  destruct (bus_property bus name "Metadata") as [[]|];
    try discriminate Hm; cbn; eexists; reflexivity.
Qed.

Lemma metadata_read_by_key_aux (bus : Bus) (name : string)
    (entries : list (string * GVariant)) :
  bus_proxy bus name = true ->
  bus_property bus name "Metadata" = Some (VDict entries) ->
  NoDup (map fst entries) ->
  exists st,
    value (aggregate bus name) = Some (Some st) /\
    length st = length_of_entry (lookup_entry "mpris:length" entries) 0 /\
    title st = title_of_entry (lookup_entry "xesam:title" entries) (Some "") /\
    artist st =
      match artist_of_entry (lookup_entry "xesam:artist" entries) None with
      | Some first => first
      | None => ""
      end.
Proof.
  intros Hx Hm Hnd.
  destruct (metadata_fold_lookup entries Hnd
              {| md_length := 0; md_title := Some ""; md_artist := None |})
    as (Hl & Ht & Ha).
  cbv zeta in Hl, Ht, Ha. cbn [md_length md_title md_artist] in Hl, Ht, Ha.
  unfold aggregate, g_dbus_proxy_new_for_bus_sync,
    g_dbus_proxy_get_cached_property.
  rewrite Hx. cbn [bind emit ret]. rewrite Hm. cbn [bind ret value fst].
  eexists. split; [reflexivity|].
  cbn [length title artist]. rewrite Hl, Ht, Ha. repeat split.
Qed.

(** X6: from a metadata dictionary without repeated keys each field is
    read under its own key, whatever else the dictionary holds: the length
    from [mpris:length] in either 64-bit encoding, the title from
    [xesam:title], the artist as the first element of the [xesam:artist]
    string list.  A missing key, a length or artist of another type and an
    empty artist list leave the default (0 and the empty string); a title
    of another type leaves NULL. *)
Theorem metadata_read_by_key (bus : Bus) (name : string)
    (entries : list (string * GVariant)) :
  bus_proxy bus name = true ->
  bus_property bus name "Metadata" = Some (VDict entries) ->
  NoDup (map fst entries) ->
  exists st,
    value (aggregate bus name) = Some (Some st) /\
    length st = length_of_entry (lookup_entry "mpris:length" entries) 0 /\
    title st = title_of_entry (lookup_entry "xesam:title" entries) (Some "") /\
    artist st =
      match artist_of_entry (lookup_entry "xesam:artist" entries) None with
      | Some first => first
      | None => ""
      end.
Proof. exact (metadata_read_by_key_aux bus name entries). Qed.

(** The metadata of P1: length, title and the first of two artists. *)
Lemma metadata_read_by_key_witness :
  exists st,
    value (aggregate three_players P1) = Some (Some st) /\
    length st = 200000000 /\
    title st = Some "Intro" /\
    artist st = "A".
Proof.
  exact (metadata_read_by_key three_players P1
           [("mpris:length", VInt64 200000000);
            ("xesam:title", VString "Intro");
            ("xesam:artist", VStrv ["A"; "B"])]
           eq_refl eq_refl
           ltac:(repeat (constructor; [cbn; intuition discriminate|]);
                 constructor)).
Defined.

Lemma handle_set_position_percent_no_length (bus : Bus) (id str : string) :
  (forall dict,
      bus_property bus id "Metadata" = Some dict ->
      g_variant_lookup_value dict "mpris:length" G_VARIANT_TYPE_INT64 = None) ->
  handle_set_position_percent bus (Some id) str = (Some 1, [EvProxyNew id]).
Proof.
  intros Hm.
  unfold handle_set_position_percent, g_dbus_proxy_new_for_bus_sync,
    g_dbus_proxy_get_cached_property.
  destruct (bus_proxy bus id); cbn [bind emit ret]; [|reflexivity].
  destruct (bus_property bus id "CanSeek") as [v|]; [|reflexivity].
  destruct (negb (g_variant_get_boolean v)); [reflexivity|].
  destruct (_ || _); [reflexivity|].
  destruct (bus_property bus id "Metadata") as [dict|]; [|reflexivity].
  now rewrite (Hm dict eq_refl).
Qed.

(** X7: the length shown in the snapshot and the length used by
    [set-position-percent] are read differently.  For a dictionary without
    repeated keys they agree when [mpris:length] is a signed 64-bit value;
    when it is unsigned, the snapshot still reports it, but
    [set-position-percent] finds no length and fails with 1 without
    seeking. *)
Theorem length_in_snapshot_and_percent_seek (bus : Bus) (id : string)
    (entries : list (string * GVariant)) (st : PlayerState) :
  bus_property bus id "Metadata" = Some (VDict entries) ->
  NoDup (map fst entries) ->
  value (aggregate bus id) = Some (Some st) ->
  (forall len,
      lookup_entry "mpris:length" entries = Some (VInt64 len) ->
      length st = len /\ track_length_is bus id len) /\
  (forall t str,
      lookup_entry "mpris:length" entries = Some (VUInt64 t) ->
      length st = Int64.of_uint64 t /\
      handle_set_position_percent bus (Some id) str =
      (Some 1, [EvProxyNew id])).
Proof.
  intros Hm Hnd Hst.
  assert (Hlen : length st =
                 length_of_entry (lookup_entry "mpris:length" entries) 0).
  { destruct (bus_proxy bus id) eqn:Hx.
    - destruct (metadata_read_by_key_aux bus id entries Hx Hm Hnd)
        as (st' & Hst' & Hl & _).
      rewrite Hst in Hst'. injection Hst' as <-. exact Hl.
    - unfold aggregate, g_dbus_proxy_new_for_bus_sync in Hst.
      rewrite Hx in Hst. discriminate Hst. }
  split.
  - intros len Hl. rewrite Hl in Hlen. split; [exact Hlen|].
    exists entries. now split.
  - intros t str Hl. rewrite Hl in Hlen. split; [exact Hlen|].
    apply handle_set_position_percent_no_length.
    intros dict Hd. rewrite Hm in Hd. injection Hd as <-.
    unfold g_variant_lookup_value. now rewrite Hl.
Qed.

(** A track length published as unsigned: shown by [get], refused by
    [set-position-percent]. *)
Lemma length_in_snapshot_and_percent_seek_witness :
  handle_set_position_percent unsigned_length_player (Some P1) "50.0" =
  (Some 1, [EvProxyNew P1]).
Proof.
  exact (proj2 (proj2 (length_in_snapshot_and_percent_seek
           unsigned_length_player P1 [("mpris:length", VUInt64 200000000)]
           {| player_id := P1; status := Some "Playing"; position := 10000000;
              length := 200000000; title := Some ""; artist := "";
              icon := "vlc" |}
           eq_refl
           ltac:(repeat (constructor; [cbn; intuition discriminate|]);
                 constructor)
           eq_refl) 200000000 "50.0" eq_refl)).
Defined.

(** X8: [Position] is reported in either 64-bit encoding.  A signed value
    is reported as it is; an unsigned value below 2^63 too, and an unsigned
    value from 2^63 on comes out negative, lowered by 2^64.  Without a
    [Position], or with one of another type, 0 is reported. *)
Theorem position_in_either_encoding (bus : Bus) (name : string)
    (st : PlayerState) :
  value (aggregate bus name) = Some (Some st) ->
  (forall x, bus_property bus name "Position" = Some (VInt64 x) ->
             position st = x) /\
  (forall t, bus_property bus name "Position" = Some (VUInt64 t) ->
             0 <= t < 2 ^ 64 ->
             position st = if t <? 2 ^ 63 then t else t - 2 ^ 64) /\
  (bus_property bus name "Position" = None -> position st = 0).
Proof.
  unfold aggregate, g_dbus_proxy_new_for_bus_sync,
    g_dbus_proxy_get_cached_property.
  destruct (bus_proxy bus name); cbn [bind emit ret]; [|cbn; discriminate].
  intros Hst.
  assert (Hpos : position st =
                 match bus_property bus name "Position" with
                 | Some prop =>
                     if g_variant_is_of_type prop G_VARIANT_TYPE_INT64
                     then g_variant_get_int64 prop
                     else if g_variant_is_of_type prop G_VARIANT_TYPE_UINT64
                          then Int64.of_uint64 (g_variant_get_uint64 prop)
                          else 0
                 | None => 0
                 end).
  { destruct (bus_property bus name "Metadata") as [[]|];
      cbn [bind ret fault value fst] in Hst; try discriminate Hst;
      injection Hst as <-; reflexivity. }
  rewrite Hpos. clear Hpos Hst.
  split; [|split].
  - now intros x ->.
  - intros t -> Ht. cbn [g_variant_is_of_type g_variant_get_uint64].
    unfold Int64.of_uint64, Int64.wrap, Int64.modulus.
    destruct (Z.ltb_spec t (2 ^ 63)).
    + rewrite Z.mod_small; lia.
    + replace (t + 2 ^ 63) with ((t - 2 ^ 63) + 1 * 2 ^ 64) by lia.
      rewrite Z.mod_add by lia. rewrite Z.mod_small; lia.
  - now intros ->.
Qed.

(** An unsigned position of 10 s is reported as 10,000,000. *)
Lemma position_in_either_encoding_witness :
  exists st,
    value (aggregate unsigned_length_player P1) = Some (Some st) /\
    position st = 10000000.
Proof.
  eexists. split; [reflexivity|].
  exact (proj1 (proj2 (position_in_either_encoding unsigned_length_player P1
           _ eq_refl)) 10000000 eq_refl ltac:(lia)).
Defined.

(** ** The serialized snapshot *)

Lemma append_empty_r (s : string) : s +++ "" = s.
Proof. induction s as [|c s IH]; cbn; [reflexivity|now rewrite IH]. Qed.

Lemma get_players_json_loop_form (bus : Bus) (l : list string) :
  (forall p, In p l ->
     bus_proxy bus p = true /\ metadata_typed bus p = true) ->
  forall json_str,
  exists states,
    Forall2 (fun p st => value (aggregate bus p) = Some (Some st)) l states /\
    value (get_players_json_loop bus l json_str) =
    Some (json_str +++ String.concat "," (map player_json states)).
Proof.
  induction l as [|p next IH]; intros Hl json_str.
  - exists []. split; [constructor|]. cbn. now rewrite append_empty_r.
  - destruct (Hl p (or_introl eq_refl)) as [Hx Hm].
    destruct (aggregate_total bus p Hx Hm) as [st Hst].
    cbn [get_players_json_loop]. rewrite Hst.
    assert (Hnext : forall q, In q next ->
               bus_proxy bus q = true /\ metadata_typed bus q = true)
      by (intros q Hq; apply Hl; now right).
    destruct next as [|q next'].
    + exists [st]. split.
      * constructor; [now rewrite Hst|constructor].
      * cbn. reflexivity.
    + destruct (IH Hnext ((json_str +++ player_json st) +++ ","))
        as (states & Hall & Hv).
      exists (st :: states). split.
      * constructor; [now rewrite Hst|exact Hall].
      * cbn [bind].
        destruct (get_players_json_loop bus (q :: next')
                    ((json_str +++ player_json st) +++ ","))
          as [v log] eqn:E.
        cbn [value fst] in Hv |- *. rewrite Hv.
        inversion Hall as [|? s' ? states' ? ? Heq]; subst.
        cbn [map String.concat].
        now rewrite !append_assoc.
Qed.

Lemma get_players_json_loop_events (bus : Bus) (l : list string) :
  (forall p, In p l ->
     bus_proxy bus p = true /\ metadata_typed bus p = true) ->
  forall json_str,
    events (get_players_json_loop bus l json_str) = map EvProxyNew l.
Proof.
  induction l as [|p next IH]; intros Hl json_str; [reflexivity|].
  destruct (Hl p (or_introl eq_refl)) as [Hx Hm].
  destruct (aggregate_total bus p Hx Hm) as [st Hst].
  cbn [get_players_json_loop]. rewrite Hst.
  rewrite bind_events. cbn [value events fst snd map app].
  f_equal. apply IH. intros q Hq. apply Hl. now right.
Qed.

Lemma get_stdout (bus : Bus) (ticks : list Bus) (argv0 json : string) :
  value (get_players_json bus) = Some json ->
  value (main (Some bus) ticks [argv0; "get"]) = Some (Exited 0) /\
  stdout_of (events (main (Some bus) ticks [argv0; "get"])) =
  [json +++ newline].
Proof.
  intros Hj. rewrite main_get. unfold handle_get.
  destruct (get_players_json_quiet bus) as [Hq _].
  rewrite (run_eta (get_players_json bus)), Hj. cbn.
  rewrite app_nil_r, stdout_of_app, Hq. split; reflexivity.
Qed.

(** X9: the loop of [get_players_json] writes one record per player.  For
    any list of players whose proxies can be created when the loop reaches
    them and whose metadata are dictionaries, the loop creates one proxy per
    player, in list order, and appends to the text the records of the
    players in that order, separated by commas and with no comma after the
    last; every record carries the name of its player. *)
Theorem loop_writes_one_record_per_player (bus : Bus) (l : list string)
    (json_str : string) :
  (forall p, In p l ->
     bus_proxy bus p = true /\ metadata_typed bus p = true) ->
  exists states,
    Forall2 (fun p st => value (aggregate bus p) = Some (Some st) /\
                         player_id st = p) l states /\
    get_players_json_loop bus l json_str =
    (Some (json_str +++ String.concat "," (map player_json states)),
     map EvProxyNew l).
Proof.
  intros Hl.
  destruct (get_players_json_loop_form bus l Hl json_str)
    as (states & Hall & Hv).
  pose proof (get_players_json_loop_events bus l Hl json_str) as He.
  exists states. split.
  - clear Hv He. induction Hall as [|p st l' states' Hst _ IH];
      constructor.
    + split; [exact Hst|].
      destruct (Hl p (or_introl eq_refl)) as [Hx _].
      revert Hst. unfold aggregate, g_dbus_proxy_new_for_bus_sync.
      rewrite Hx. cbn [bind emit ret].
      destruct (match g_dbus_proxy_get_cached_property bus p "Metadata" with
                | Some (VDict entries) => _ | Some _ => _ | None => _ end)
        as [[md|] log]; cbn; [|discriminate].
      intros [= <-]. reflexivity.
    + apply IH. intros q Hq. apply Hl. now right.
  - rewrite (run_eta (get_players_json_loop bus l json_str)).
    now rewrite Hv, He.
Qed.

(** The loop over P2, P3, P1 from the opening bracket: three proxies and
    three records. *)
Lemma loop_writes_one_record_per_player_witness :
  exists s2 s3 s1,
    player_id s2 = P2 /\ player_id s3 = P3 /\ player_id s1 = P1 /\
    get_players_json_loop three_players [P2; P3; P1] "[" =
    (Some ("[" +++ player_json s2 +++ "," +++ player_json s3 +++ "," +++
           player_json s1),
     [EvProxyNew P2; EvProxyNew P3; EvProxyNew P1]).
Proof.
  destruct (loop_writes_one_record_per_player three_players [P2; P3; P1] "[")
    as (states & Hall & Hv).
  { intros p Hp. cbn in Hp.
    repeat (destruct Hp as [<-|Hp]; [split; reflexivity|]). contradiction. }
  inversion Hall as [|? s2 ? r2 [_ H2] Hall2]; subst.
  inversion Hall2 as [|? s3 ? r3 [_ H3] Hall3]; subst.
  inversion Hall3 as [|? s1 ? r1 [_ H1] Hall1]; subst.
  inversion Hall1; subst.
  exists s2, s3, s1.
  split; [exact H2|]. split; [exact H3|]. split; [exact H1|].
  rewrite Hv. reflexivity.
Defined.

(** ** Players that cannot be reached while the snapshot is built *)

Lemma aggregate_unreachable (bus : Bus) (name : string) :
  bus_proxy bus name = false ->
  aggregate bus name = (Some None, [EvProxyNew name]).
Proof.
  intros Hx. unfold aggregate, g_dbus_proxy_new_for_bus_sync.
  now rewrite Hx.
Qed.

Lemma get_players_json_loop_skips (bus : Bus) (l : list string) :
  Forall (fun p => bus_proxy bus p = false) l ->
  forall json_str,
    get_players_json_loop bus l json_str = (Some json_str, map EvProxyNew l).
Proof.
  induction 1 as [|p l Hp _ IH]; intros json_str; [reflexivity|].
  cbn [get_players_json_loop]. rewrite (aggregate_unreachable bus p Hp).
  cbn [bind]. now rewrite IH.
Qed.

(** X10: in the loop of [get_players_json] a player whose proxy cannot be
    created is passed over without a record and without a fault.  The
    comma after a record is written as soon as any player follows it, so
    when all the players that follow are passed over, the text ends with
    that comma. *)
Theorem unreachable_players_are_skipped (bus : Bus) (skipped : list string) :
  Forall (fun p => bus_proxy bus p = false) skipped ->
  (forall json_str,
      get_players_json_loop bus skipped json_str =
      (Some json_str, map EvProxyNew skipped)) /\
  (forall good st json_str,
      value (aggregate bus good) = Some (Some st) ->
      skipped <> [] ->
      value (get_players_json_loop bus (good :: skipped) json_str) =
      Some (json_str +++ player_json st +++ ",")).
Proof.
  intros Hs. split; [now apply get_players_json_loop_skips|].
  intros good st json_str Hst Hne.
  cbn [get_players_json_loop].
  rewrite (run_eta (aggregate bus good)), Hst. cbn [bind].
  destruct skipped as [|q rest]; [contradiction|].
  rewrite (get_players_json_loop_skips bus (q :: rest) Hs).
  cbn. now rewrite append_assoc.
Qed.

(** P1 aggregated, P2 unreachable: the text built from the opening bracket
    ends with a comma. *)
Lemma unreachable_players_are_skipped_witness :
  exists st,
    value (get_players_json_loop (with_unreachable three_players [P2])
                                 [P1; P2] "[") =
    Some ("[" +++ player_json st +++ ",").
Proof.
  eexists.
  refine (proj2 (unreachable_players_are_skipped
                   (with_unreachable three_players [P2]) [P2] _)
                P1 _ "[" eq_refl _).
  - repeat constructor.
  - discriminate.
Defined.

(** ** The seek commands, case by case *)

Lemma handle_set_position_cases (bus : Bus) (player_id : option string)
    (pos_str : string) :
  (method_calls (events (handle_set_position bus player_id pos_str)) = [] /\
   stdout_of (events (handle_set_position bus player_id pos_str)) = [] /\
   value (handle_set_position bus player_id pos_str) = Some 1) \/
  (exists id v pos,
      player_id = Some id /\
      bus_proxy bus id = true /\
      bus_property bus id "CanSeek" = Some v /\
      g_variant_get_boolean v = true /\
      bus_property bus id "Position" = Some pos /\
      handle_set_position bus player_id pos_str =
      (Some (if bus_call bus id "Seek"
                   [Int64.sub (atoll pos_str) (g_variant_get_int64 pos)]
             then 0 else 1),
       [EvProxyNew id;
        EvCall id "Seek"
               [Int64.sub (atoll pos_str) (g_variant_get_int64 pos)]])).
Proof.
  unfold handle_set_position, g_dbus_proxy_new_for_bus_sync,
    g_dbus_proxy_get_cached_property, call_sync.
  destruct player_id as [id|]; [|left; repeat split].
  destruct (bus_proxy bus id) eqn:Hx; cbn [bind emit ret];
    [|left; repeat split].
  destruct (bus_property bus id "CanSeek") as [v|] eqn:Hs;
    [|left; repeat split].
  destruct (g_variant_get_boolean v) eqn:Hb; cbn [negb];
    [|left; repeat split].
  destruct (bus_property bus id "Position") as [pos|] eqn:Hp;
    [|left; repeat split].
  right. exists id, v, pos. repeat split; try assumption.
  cbn. destruct (bus_call bus id "Seek" _); reflexivity.
Qed.

(** X11: [set-position] never faults and never prints; it makes at most
    one method call, a [Seek] on the given player, and only after it has
    created the proxy and found [CanSeek] true and a [Position]; it exits
    with 0 exactly when that call was made and returned without error, and
    with 1 otherwise. *)
Theorem set_position_outcomes (bus : Bus) (player_id : option string)
    (pos_str : string) :
  (value (handle_set_position bus player_id pos_str) = Some 0 \/
   value (handle_set_position bus player_id pos_str) = Some 1) /\
  stdout_of (events (handle_set_position bus player_id pos_str)) = [] /\
  (method_calls (events (handle_set_position bus player_id pos_str)) = [] \/
   exists id v pos,
     player_id = Some id /\
     bus_proxy bus id = true /\
     bus_property bus id "CanSeek" = Some v /\
     g_variant_get_boolean v = true /\
     bus_property bus id "Position" = Some pos /\
     method_calls (events (handle_set_position bus player_id pos_str)) =
     [(id, "Seek", [Int64.sub (atoll pos_str) (g_variant_get_int64 pos)])]) /\
  (value (handle_set_position bus player_id pos_str) = Some 0 <->
   exists id offset,
     method_calls (events (handle_set_position bus player_id pos_str)) =
     [(id, "Seek", [offset])] /\
     bus_call bus id "Seek" [offset] = true).
Proof.
  destruct (handle_set_position_cases bus player_id pos_str)
    as [(Hc & Ho & Hv)|(id & v & pos & Hid & Hx & Hs & Hb & Hp & Hr)].
  - rewrite Hc, Ho, Hv. repeat split; auto.
    + discriminate.
    + intros (id & offset & H & _). discriminate H.
  - rewrite Hr. cbn [value events fst snd method_calls stdout_of].
    split; [destruct (bus_call bus id "Seek" _); auto|].
    split; [reflexivity|].
    split; [right; exists id, v, pos; repeat split; assumption|].
    split.
    + intros H0. exists id, (Int64.sub (atoll pos_str) (g_variant_get_int64 pos)).
      split; [reflexivity|].
      destruct (bus_call bus id "Seek" _); [reflexivity|discriminate H0].
    + intros (id' & offset & [= <- <-] & Hcall). now rewrite Hcall.
Qed.

(** On a player that refuses the call the exit code is 1 although the
    [Seek] was sent. *)
Lemma set_position_outcomes_witness :
  value (handle_set_position deaf_player (Some P1) "8000000") = Some 1 /\
  method_calls (events (handle_set_position deaf_player (Some P1) "8000000")) =
  [(P1, "Seek", [-2000000])].
Proof.
  destruct (set_position_outcomes deaf_player (Some P1) "8000000")
    as ([H|H] & _ & _ & _).
  - discriminate H.
  - split; [exact H|reflexivity].
Defined.

Lemma handle_set_position_percent_cases (bus : Bus)
    (player_id : option string) (percent_str : string) :
  (method_calls
     (events (handle_set_position_percent bus player_id percent_str)) = [] /\
   stdout_of
     (events (handle_set_position_percent bus player_id percent_str)) = [] /\
   value (handle_set_position_percent bus player_id percent_str) = Some 1) \/
  (exists id v len pos,
      player_id = Some id /\
      bus_proxy bus id = true /\
      bus_property bus id "CanSeek" = Some v /\
      g_variant_get_boolean v = true /\
      out_of_percent_range (atof percent_str) = false /\
      track_length_is bus id len /\
      0 < len /\
      bus_property bus id "Position" = Some pos /\
      let offset :=
        Int64.sub
          (Double.to_int64
             (Double.mul (Double.div (atof percent_str) (Double.of_Z 100))
                         (Double.of_Z len)))
          (g_variant_get_int64 pos) in
      handle_set_position_percent bus player_id percent_str =
      (Some (if bus_call bus id "Seek" [offset] then 0 else 1),
       [EvProxyNew id; EvCall id "Seek" [offset]])).
Proof.
  unfold handle_set_position_percent, g_dbus_proxy_new_for_bus_sync,
    g_dbus_proxy_get_cached_property, call_sync.
  destruct player_id as [id|]; [|left; repeat split].
  destruct (bus_proxy bus id) eqn:Hx; cbn [bind emit ret];
    [|left; repeat split].
  destruct (bus_property bus id "CanSeek") as [v|] eqn:Hs;
    [|left; repeat split].
  destruct (g_variant_get_boolean v) eqn:Hb; cbn [negb];
    [|left; repeat split].
  destruct (Double.ltb (atof percent_str) Double.zero
            || Double.ltb (Double.of_Z 100) (atof percent_str)) eqn:Hr;
    [left; repeat split|].
  destruct (bus_property bus id "Metadata") as [dict|] eqn:Hm;
    [|left; repeat split].
  unfold g_variant_lookup_value.
  destruct dict as [| | | | |entries|]; try solve [left; repeat split].
  destruct (lookup_entry "mpris:length" entries) as [lv|] eqn:Hl;
    [|left; repeat split].
  destruct lv as [| |len| | | |]; cbn [g_variant_is_of_type];
    try solve [left; repeat split].
  cbn [g_variant_get_int64].
  destruct (Z.leb_spec len 0) as [Hle|Hlt]; [left; repeat split|].
  destruct (bus_property bus id "Position") as [pos|] eqn:Hp;
    [|left; repeat split].
  right. exists id, v, len, pos.
  repeat split; try assumption.
  - exists entries. now split.
  - cbn. destruct (bus_call bus id "Seek" _); reflexivity.
Qed.

(** X12: [set-position-percent] never faults and never prints; it makes
    at most one method call, a [Seek] on the given player, and only after
    it has created the proxy and found [CanSeek] true, the percentage
    neither below 0 nor above 100, a positive signed [mpris:length] in the
    metadata and a [Position]; it exits with 0 exactly when that call was
    made and returned without error, and with 1 otherwise. *)
Theorem set_position_percent_outcomes (bus : Bus) (player_id : option string)
    (percent_str : string) :
  (value (handle_set_position_percent bus player_id percent_str) = Some 0 \/
   value (handle_set_position_percent bus player_id percent_str) = Some 1) /\
  stdout_of
    (events (handle_set_position_percent bus player_id percent_str)) = [] /\
  (method_calls
     (events (handle_set_position_percent bus player_id percent_str)) = [] \/
   exists id v len pos offset,
     player_id = Some id /\
     bus_proxy bus id = true /\
     bus_property bus id "CanSeek" = Some v /\
     g_variant_get_boolean v = true /\
     out_of_percent_range (atof percent_str) = false /\
     track_length_is bus id len /\
     0 < len /\
     bus_property bus id "Position" = Some pos /\
     method_calls
       (events (handle_set_position_percent bus player_id percent_str)) =
     [(id, "Seek", [offset])]) /\
  (value (handle_set_position_percent bus player_id percent_str) = Some 0 <->
   exists id offset,
     method_calls
       (events (handle_set_position_percent bus player_id percent_str)) =
     [(id, "Seek", [offset])] /\
     bus_call bus id "Seek" [offset] = true).
Proof.
  destruct (handle_set_position_percent_cases bus player_id percent_str)
    as [(Hc & Ho & Hv)
       |(id & v & len & pos & Hid & Hx & Hs & Hb & Hr & Hl & Hlen & Hp & Hrun)].
  - rewrite Hc, Ho, Hv. repeat split; auto.
    + discriminate.
    + intros (id & offset & H & _). discriminate H.
  - cbv zeta in Hrun. set (off := Int64.sub _ _) in Hrun. rewrite Hrun.
    cbn [value events fst snd method_calls stdout_of].
    split; [destruct (bus_call bus id "Seek" [off]); auto|].
    split; [reflexivity|].
    split.
    { right. exists id, v, len, pos, off.
      repeat split; assumption. }
    split.
    + intros H0. exists id, off. split; [reflexivity|].
      destruct (bus_call bus id "Seek" [off]); [reflexivity|discriminate H0].
    + intros (id' & offset & [= <- <-] & Hcall). now rewrite Hcall.
Qed.

(** A length of zero: no seek, exit code 1. *)
Lemma set_position_percent_outcomes_witness :
  value (handle_set_position_percent zero_length_player (Some P1) "50") =
  Some 1.
Proof.
  destruct (set_position_percent_outcomes zero_length_player (Some P1) "50")
    as ([H|H] & _ & _ & _).
  - discriminate H.
  - exact H.
Defined.

(** ** The command line *)

Lemma main_without_command (session : option Bus) (ticks : list Bus)
    (argv : list string) :
  (List.length argv < 2)%nat ->
  main session ticks argv =
  bind (usage (fmt_s (nth_error argv 0))) (fun _ => ret (Exited 1)).
Proof.
  intros H. unfold main.
  destruct (Z.ltb_spec (Z.of_nat (List.length argv)) 2); [reflexivity|lia].
Qed.

Lemma main_with_command (argv0 command : string) (rest : list string) :
  (Z.of_nat (List.length (argv0 :: command :: rest)) <? 2) = false.
Proof. apply Z.ltb_ge. cbn [List.length]. lia. Qed.

(** X13: what [main] refuses.  With fewer than two arguments it writes
    the usage text to stderr; without a session bus, with a command it does
    not know, and with a seek command that lacks its argument, it does
    nothing at all.  In each case the exit code is 1, nothing is written to
    stdout and the bus is not used. *)
Theorem main_refusals (ticks : list Bus) :
  (forall session argv,
      (List.length argv < 2)%nat ->
      value (main session ticks argv) = Some (Exited 1) /\
      bus_operations (events (main session ticks argv)) = [] /\
      stdout_of (events (main session ticks argv)) = [] /\
      events (main session ticks argv) <> []) /\
  (forall argv0 command rest,
      main None ticks (argv0 :: command :: rest) = (Some (Exited 1), [])) /\
  (forall bus argv0 command rest,
      is_command command = false ->
      main (Some bus) ticks (argv0 :: command :: rest) =
      (Some (Exited 1), [])) /\
  (forall bus argv0,
      main (Some bus) ticks [argv0; "set-position"] = (Some (Exited 1), []) /\
      main (Some bus) ticks [argv0; "set-position-percent"] =
      (Some (Exited 1), [])).
Proof.
  split; [|split; [|split]].
  - intros session argv H. rewrite (main_without_command session ticks argv H).
    cbn. repeat split. discriminate.
  - intros argv0 command rest. unfold main.
    rewrite main_with_command. reflexivity.
  - intros bus argv0 command rest Hc. unfold main.
    rewrite main_with_command.
    unfold is_command in Hc. cbn [existsb] in Hc.
    repeat (apply orb_false_elim in Hc; destruct Hc as [? Hc]).
    cbn [arg nth].
    repeat match goal with H : streq _ _ = false |- _ => rewrite H; clear H end.
    reflexivity.
  - intros bus argv0. split; reflexivity.
Qed.

(** No arguments, no bus, a misspelt command. *)
Lemma main_refusals_witness :
  value (main (Some one_player) [] ["ndfr-media-helper"]) = Some (Exited 1) /\
  main (Some one_player) [] ["ndfr-media-helper"; "pause"; P1] =
  (Some (Exited 1), []).
Proof.
  destruct (main_refusals []) as (Hargs & _ & Hcmd & _).
  split.
  - exact (proj1 (Hargs (Some one_player) ["ndfr-media-helper"]
                        ltac:(cbn; lia))).
  - exact (Hcmd one_player "ndfr-media-helper" "pause" [P1] eq_refl).
Defined.

Lemma argc_at_least_4 (a b c d : string) (extra : list string) :
  (3 <? Z.of_nat (List.length (a :: b :: c :: d :: extra))) = true /\
  (2 <? Z.of_nat (List.length (a :: b :: c :: d :: extra))) = true /\
  (Z.of_nat (List.length (a :: b :: c :: d :: extra)) <? 2) = false.
Proof.
  cbn [List.length].
  repeat split; [apply Z.ltb_lt|apply Z.ltb_lt|apply Z.ltb_ge]; lia.
Qed.

(** X14: arguments beyond those a command reads are ignored: [get] and
    [listen] read none, and no command reads more than a player and one
    value, so a command line and the same line with further arguments give
    the same run. *)
Theorem surplus_arguments_are_ignored (session : option Bus)
    (ticks : list Bus) (argv0 : string) (extra : list string) :
  main session ticks (argv0 :: "get" :: extra) =
    main session ticks [argv0; "get"] /\
  main session ticks (argv0 :: "listen" :: extra) =
    main session ticks [argv0; "listen"] /\
  forall command a2 a3,
    main session ticks (argv0 :: command :: a2 :: a3 :: extra) =
    main session ticks [argv0; command; a2; a3].
Proof.
  split; [|split].
  - unfold main. rewrite !main_with_command. reflexivity.
  - unfold main. rewrite !main_with_command. reflexivity.
  - intros command a2 a3. unfold main.
    destruct (argc_at_least_4 argv0 command a2 a3 extra) as (H3 & H2 & H1).
    destruct (argc_at_least_4 argv0 command a2 a3 []) as (H3' & H2' & H1').
    rewrite H1, H1', H2, H2', H3, H3'. reflexivity.
Qed.

(** ** Seek commands without a player argument *)

Lemma main_seek_no_player (bus : Bus) (ticks : list Bus)
    (argv0 str : string) (log : list Event) :
  find_players bus = (Some [], log) ->
  main (Some bus) ticks [argv0; "set-position"; str] =
    (Some (Exited 1), log) /\
  main (Some bus) ticks [argv0; "set-position-percent"; str] =
    (Some (Exited 1), log).
Proof.
  intros Hf. unfold main. cbn -[find_players].
  rewrite Hf. cbn. rewrite !app_nil_r. split; reflexivity.
Qed.

(** X15: with one argument after a seek command, that argument is the
    value and the player is the head of the ranking: the run is the
    discovery followed by the very run the command makes when that player
    is named; with an empty ranking the command exits with 1 after the
    discovery alone. *)
Theorem seek_defaults_to_the_ranking_head (bus : Bus) (ticks : list Bus)
    (argv0 str : string) (players : list string) (log : list Event) :
  find_players bus = (Some players, log) ->
  match players with
  | id :: _ =>
      value (main (Some bus) ticks [argv0; "set-position"; str]) =
        value (main (Some bus) ticks [argv0; "set-position"; id; str]) /\
      events (main (Some bus) ticks [argv0; "set-position"; str]) =
        log ++ events (main (Some bus) ticks [argv0; "set-position"; id; str])
      /\
      value (main (Some bus) ticks [argv0; "set-position-percent"; str]) =
        value (main (Some bus) ticks
                    [argv0; "set-position-percent"; id; str]) /\
      events (main (Some bus) ticks [argv0; "set-position-percent"; str]) =
        log ++ events (main (Some bus) ticks
                            [argv0; "set-position-percent"; id; str])
  | [] =>
      main (Some bus) ticks [argv0; "set-position"; str] =
        (Some (Exited 1), log) /\
      main (Some bus) ticks [argv0; "set-position-percent"; str] =
        (Some (Exited 1), log)
  end.
Proof.
  intros Hf. destruct players as [|id rest].
  - now apply main_seek_no_player.
  - rewrite (main_set_position_default bus ticks argv0 str id rest log Hf).
    rewrite (main_set_position_percent_default bus ticks argv0 str id rest
               log Hf).
    rewrite main_set_position, main_set_position_percent.
    destruct (bind (handle_set_position bus (Some id) str) _) as [v1 l1].
    destruct (bind (handle_set_position_percent bus (Some id) str) _)
      as [v2 l2].
    cbn. repeat split.
Qed.

(** On the bus with one player, 10 s into its track, [set-position
    8000000] seeks that player back by 2 s. *)
Lemma seek_defaults_to_the_ranking_head_witness :
  events (main (Some one_player) [] ["ndfr-media-helper"; "set-position";
                                     "8000000"]) =
  [EvListNames; EvProxyNew P1] ++
  [EvProxyNew P1; EvCall P1 "Seek" [-2000000]].
Proof.
  exact (proj1 (proj2 (seek_defaults_to_the_ranking_head one_player []
           "ndfr-media-helper" "8000000" [P1] [EvListNames; EvProxyNew P1]
           eq_refl))).
Defined.

(** ** The [listen] loop *)

Lemma emissions_head (held : option string) (payloads : list string) :
  match emissions held payloads with
  | first :: _ => held <> Some first
  | [] => True
  end.
Proof.
  revert held. induction payloads as [|p rest IH]; intros held; [exact I|].
  cbn [emissions]. destruct held as [h|]; [|discriminate].
  destruct (String.eqb_spec h p) as [->|Hne].
  - apply IH.
  - congruence.
Qed.

Lemma emissions_distinct (held : option string) (payloads : list string) :
  distinct_neighbours (emissions held payloads).
Proof.
  revert held. induction payloads as [|p rest IH]; intros held; [exact I|].
  assert (Hcons : distinct_neighbours (p :: emissions (Some p) rest)).
  { pose proof (emissions_head (Some p) rest) as Hh.
    specialize (IH (Some p)).
    destruct (emissions (Some p) rest) as [|q more]; [exact I|].
    split; [congruence|exact IH]. }
  cbn [emissions]. destruct held as [h|]; [|exact Hcons].
  destruct (String.eqb h p); [apply IH|exact Hcons].
Qed.

Lemma emissions_length (held : option string) (payloads : list string) :
  (List.length (emissions held payloads) <= List.length payloads)%nat.
Proof.
  revert held. induction payloads as [|p rest IH]; intros held; [reflexivity|].
  cbn [emissions List.length].
  destruct held as [h|]; [destruct (String.eqb h p)|];
    cbn [List.length]; try apply le_n_S; try apply le_S; apply IH.
Qed.

Lemma emissions_constant (c : string) (payloads : list string) :
  Forall (eq c) payloads -> emissions (Some c) payloads = [].
Proof.
  induction 1 as [|p rest <- _ IH]; [reflexivity|].
  cbn [emissions]. now rewrite String.eqb_refl.
Qed.

Lemma append_newline_inj (a b : string) :
  a +++ newline = b +++ newline -> a = b.
Proof.
  revert b. induction a as [|x a IH]; intros [|y b] H; cbn in H.
  - reflexivity.
  - injection H as _ H. destruct b; discriminate H.
  - injection H as _ H. destruct a; discriminate H.
  - injection H as -> H. now rewrite (IH b H).
Qed.

Lemma distinct_neighbours_lines (l : list string) :
  distinct_neighbours l ->
  distinct_neighbours (map (fun p => p +++ newline) l).
Proof.
  induction l as [|a [|b rest] IH]; intros H; try exact I.
  destruct H as [Hab Hrest]. cbn [map]. split.
  - intros E. apply Hab. now apply append_newline_inj.
  - now apply IH.
Qed.

Lemma main_listen (bus : Bus) (ticks : list Bus) (argv0 : string) :
  main (Some bus) ticks [argv0; "listen"] =
  bind (g_main_loop_run ticks None) (fun _ => ret Killed).
Proof. reflexivity. Qed.

(** X16: [listen] coalesces.  When every tick yields a snapshot, the
    process does not exit by itself; it prints at most one line per tick and
    at least the first one, no printed line equals the line printed before
    it, and while the snapshot stays the same only the first tick prints. *)
Theorem listen_coalesces (bus : Bus) (ticks : list Bus)
    (payloads : list string) (argv0 : string) :
  Forall2 (fun b p => value (get_players_json b) = Some p) ticks payloads ->
  value (main (Some bus) ticks [argv0; "listen"]) = Some Killed /\
  (List.length (stdout_of (events (main (Some bus) ticks [argv0; "listen"])))
   <= List.length ticks)%nat /\
  (forall p rest, payloads = p :: rest ->
     hd_error (stdout_of (events (main (Some bus) ticks [argv0; "listen"]))) =
     Some (p +++ newline)) /\
  distinct_neighbours
    (stdout_of (events (main (Some bus) ticks [argv0; "listen"]))) /\
  (forall p rest, payloads = p :: rest -> Forall (eq p) rest ->
     stdout_of (events (main (Some bus) ticks [argv0; "listen"])) =
     [p +++ newline]).
Proof.
  intros Hall.
  destruct (g_main_loop_run_spec ticks payloads Hall None) as [Hv Hout].
  rewrite main_listen.
  assert (Hval : value (bind (g_main_loop_run ticks None)
                             (fun _ => ret Killed)) = Some Killed)
    by (rewrite bind_value, Hv; reflexivity).
  assert (Hlines : stdout_of (events (bind (g_main_loop_run ticks None)
                                           (fun _ => ret Killed))) =
                   map (fun p => p +++ newline) (emissions None payloads)).
  { rewrite bind_events, Hv. cbn [events snd ret].
    now rewrite app_nil_r. }
  rewrite Hlines.
  split; [exact Hval|]. split; [|split; [|split]].
  - rewrite length_map.
    rewrite (Forall2_length Hall). apply emissions_length.
  - intros p rest ->. reflexivity.
  - apply distinct_neighbours_lines, emissions_distinct.
  - intros p rest -> Hc. cbn [emissions map].
    now rewrite (emissions_constant p rest Hc).
Qed.

(** Three ticks on an unchanged bus print one line. *)
Lemma listen_coalesces_witness :
  stdout_of (events (main (Some no_players) [no_players; no_players; no_players]
                          ["ndfr-media-helper"; "listen"])) =
  ["[]" +++ newline].
Proof.
  refine (proj2 (proj2 (proj2 (proj2
            (listen_coalesces no_players [no_players; no_players; no_players]
               ["[]"; "[]"; "[]"] "ndfr-media-helper" _)))) "[]" ["[]"; "[]"]
            eq_refl _).
  - repeat (apply Forall2_cons; [reflexivity|]). apply Forall2_nil.
  - repeat constructor.
Defined.

(** X18: [get] is one tick of [listen]: on the same bus, [get] and the
    first tick of a fresh [listen] perform the same bus operations and print
    the same line, also when building the snapshot faults. *)
Theorem get_is_the_first_tick (bus : Bus) (argv0 : string) :
  events (main (Some bus) [] [argv0; "get"]) =
  events (main (Some bus) [bus] [argv0; "listen"]) /\
  (forall json, value (get_players_json bus) = Some json ->
     stdout_of (events (main (Some bus) [] [argv0; "get"])) =
     [json +++ newline]).
Proof.
  split.
  - rewrite main_get, main_listen.
    unfold handle_get. cbn [g_main_loop_run]. unfold high_frequency_poll.
    cbn [is_null orb].
    destruct (get_players_json bus) as [[json|] log]; cbn; [|reflexivity].
    now rewrite !app_nil_r.
  - intros json Hj. now apply get_stdout.
Qed.

Lemma get_is_the_first_tick_witness :
  stdout_of (events (main (Some no_players) [] ["ndfr-media-helper"; "get"])) =
  ["[]" +++ newline].
Proof.
  exact (proj2 (get_is_the_first_tick no_players "ndfr-media-helper")
               "[]" eq_refl).
Defined.

(** ** Numbers as printed and as read back *)

Lemma read_digits_stop (rest : string) (acc count : Z) :
  no_digit_ahead rest -> read_digits false rest acc count = (acc, count, rest).
Proof.
  destruct rest as [|c rest]; cbn; [reflexivity|]. now intros ->.
Qed.

Lemma read_digits_then_acc (d : Decimal.uint) (rest : string) :
  no_digit_ahead rest ->
  forall (acc : positive) (count : Z),
    read_digits false (NilEmpty.string_of_uint d +++ rest) (Zpos acc) count =
    (Zpos (Pos.of_uint_acc d acc),
     count + Z.of_nat (Decimal.nb_digits d), rest).
Proof.
  intros Hrest.
  induction d; intros acc count;
    cbn [NilEmpty.string_of_uint String.append Decimal.nb_digits
         Pos.of_uint_acc];
    [rewrite (read_digits_stop rest _ _ Hrest); f_equal; f_equal; lia|..];
    cbn [read_digits];
    change (digit_value false _) with (Some 0) ||
    change (digit_value false _) with (Some 1) ||
    change (digit_value false _) with (Some 2) ||
    change (digit_value false _) with (Some 3) ||
    change (digit_value false _) with (Some 4) ||
    change (digit_value false _) with (Some 5) ||
    change (digit_value false _) with (Some 6) ||
    change (digit_value false _) with (Some 7) ||
    change (digit_value false _) with (Some 8) ||
    change (digit_value false _) with (Some 9);
    cbv iota;
    match goal with
    | |- read_digits false _ ?a _ = (Zpos (Pos.of_uint_acc _ ?b), _, _) =>
        replace a with (Zpos b) by lia
    end;
    rewrite IHd; f_equal; f_equal; lia.
Qed.

Lemma read_digits_then (d : Decimal.uint) (rest : string) :
  no_digit_ahead rest ->
  forall count : Z,
    read_digits false (NilEmpty.string_of_uint d +++ rest) 0 count =
    (Z.of_N (Pos.of_uint d), count + Z.of_nat (Decimal.nb_digits d), rest).
Proof.
  intros Hrest.
  induction d; intros count;
    cbn [NilEmpty.string_of_uint String.append Decimal.nb_digits Pos.of_uint];
    [rewrite (read_digits_stop rest _ _ Hrest); f_equal; f_equal; lia|..];
    cbn [read_digits];
    change (digit_value false _) with (Some 0) ||
    change (digit_value false _) with (Some 1) ||
    change (digit_value false _) with (Some 2) ||
    change (digit_value false _) with (Some 3) ||
    change (digit_value false _) with (Some 4) ||
    change (digit_value false _) with (Some 5) ||
    change (digit_value false _) with (Some 6) ||
    change (digit_value false _) with (Some 7) ||
    change (digit_value false _) with (Some 8) ||
    change (digit_value false _) with (Some 9);
    cbv iota.
  - change (10 * 0 + 0) with 0. rewrite IHd. f_equal. f_equal. lia.
  - change (10 * 0 + 1) with (Zpos 1).
    rewrite (read_digits_then_acc d rest Hrest). f_equal. f_equal. lia.
  - change (10 * 0 + 2) with (Zpos 2).
    rewrite (read_digits_then_acc d rest Hrest). f_equal. f_equal. lia.
  - change (10 * 0 + 3) with (Zpos 3).
    rewrite (read_digits_then_acc d rest Hrest). f_equal. f_equal. lia.
  - change (10 * 0 + 4) with (Zpos 4).
    rewrite (read_digits_then_acc d rest Hrest). f_equal. f_equal. lia.
  - change (10 * 0 + 5) with (Zpos 5).
    rewrite (read_digits_then_acc d rest Hrest). f_equal. f_equal. lia.
  - change (10 * 0 + 6) with (Zpos 6).
    rewrite (read_digits_then_acc d rest Hrest). f_equal. f_equal. lia.
  - change (10 * 0 + 7) with (Zpos 7).
    rewrite (read_digits_then_acc d rest Hrest). f_equal. f_equal. lia.
  - change (10 * 0 + 8) with (Zpos 8).
    rewrite (read_digits_then_acc d rest Hrest). f_equal. f_equal. lia.
  - change (10 * 0 + 9) with (Zpos 9).
    rewrite (read_digits_then_acc d rest Hrest). f_equal. f_equal. lia.
Qed.

Lemma read_digits_of_uint (d : Decimal.uint) :
  forall count : Z,
    read_digits false (NilEmpty.string_of_uint d) 0 count =
    (Z.of_N (Pos.of_uint d), count + Z.of_nat (Decimal.nb_digits d), "").
Proof.
  intros count.
  rewrite <- (append_empty_r (NilEmpty.string_of_uint d)) at 1.
  now apply read_digits_then.
Qed.

Lemma digits_head (d : Decimal.uint) (rest : string) :
  d <> Decimal.Nil ->
  skip_space (NilEmpty.string_of_uint d +++ rest) =
    NilEmpty.string_of_uint d +++ rest /\
  read_sign (NilEmpty.string_of_uint d +++ rest) =
    (false, NilEmpty.string_of_uint d +++ rest) /\
  0 < Z.of_nat (Decimal.nb_digits d).
Proof.
  intros H. destruct d; try (now contradiction H);
    repeat split; cbn [Decimal.nb_digits]; lia.
Qed.

Lemma parse_integer_pos (p : positive) (rest : string) :
  no_digit_ahead rest ->
  parse_integer (NilEmpty.string_of_uint (Pos.to_uint p) +++ rest) =
  Some (Zpos p).
Proof.
  intros Hrest. unfold parse_integer.
  destruct (digits_head (Pos.to_uint p) rest
              (DecimalPos.Unsigned.to_uint_nonnil p)) as (Hs & Hg & Hn).
  rewrite Hs, Hg, (read_digits_then _ rest Hrest).
  destruct (Z.eqb_spec (0 + Z.of_nat (Decimal.nb_digits (Pos.to_uint p))) 0);
    [lia|].
  now rewrite DecimalPos.Unsigned.of_to.
Qed.

Lemma string_of_uint_nonnil (p : positive) :
  NilZero.string_of_uint (Pos.to_uint p) =
  NilEmpty.string_of_uint (Pos.to_uint p).
Proof.
  pose proof (DecimalPos.Unsigned.to_uint_nonnil p) as H.
  unfold NilZero.string_of_uint.
  destruct (Pos.to_uint p); [now contradiction H|..]; reflexivity.
Qed.

Lemma parse_integer_fmt_lld (z : Z) (rest : string) :
  no_digit_ahead rest ->
  parse_integer (fmt_lld z +++ rest) = Some z.
Proof.
  intros Hrest.
  unfold fmt_lld. destruct z as [|p|p]; cbn [Z.to_int NilZero.string_of_int].
  - unfold parse_integer.
    cbn [NilZero.string_of_uint NilEmpty.string_of_uint String.append].
    change (skip_space (String "0" ?s)) with (String "0" s).
    cbn [read_sign read_digits].
    change (digit_value false "0") with (Some 0). cbv iota.
    now rewrite (read_digits_stop rest _ _ Hrest).
  - rewrite string_of_uint_nonnil. now apply parse_integer_pos.
  - rewrite string_of_uint_nonnil.
    pose proof (parse_integer_pos p rest Hrest) as H.
    unfold parse_integer in *.
    destruct (digits_head (Pos.to_uint p) rest
                (DecimalPos.Unsigned.to_uint_nonnil p)) as (Hs & Hg & _).
    rewrite Hs, Hg in H.
    cbn [String.append].
    change (skip_space (String "-" ?s)) with (String "-" s).
    cbn [read_sign].
    destruct (read_digits false
                (NilEmpty.string_of_uint (Pos.to_uint p) +++ rest) 0 0)
      as [[n count] rest'].
    destruct (count =? 0); [discriminate|].
    injection H as ->. reflexivity.
Qed.

(** X19: a number printed with [%lld] reads back with [atoll]: any 64-bit
    value comes back as it was (and a longer number as the nearest 64-bit
    value), also when other text follows the digits.  So the position and
    the length that [get] prints are valid arguments of [set-position]:
    asked to go to the printed position [p], it seeks by [p - cur], and by
    0 when [p] is the current position. *)
Theorem printed_numbers_read_back (z : Z) :
  atoll (fmt_lld z) = Int64.saturate z /\
  (forall rest, no_digit_ahead rest ->
                atoll (fmt_lld z +++ rest) = Int64.saturate z) /\
  (Int64.in_range z = true -> atoll (fmt_lld z) = z) /\
  (forall bus id cur,
      bus_proxy bus id = true ->
      bus_property bus id "CanSeek" = Some (VBool true) ->
      bus_property bus id "Position" = Some (VInt64 cur) ->
      Int64.in_range z = true ->
      method_calls (events (handle_set_position bus (Some id) (fmt_lld z))) =
        [(id, "Seek", [Int64.sub z cur])] /\
      (z = cur ->
       method_calls (events (handle_set_position bus (Some id) (fmt_lld z))) =
       [(id, "Seek", [0])])).
Proof.
  assert (Hrest : forall rest, no_digit_ahead rest ->
                    atoll (fmt_lld z +++ rest) = Int64.saturate z)
    by (intros rest H; unfold atoll; now rewrite parse_integer_fmt_lld).
  assert (Hs : atoll (fmt_lld z) = Int64.saturate z).
  { rewrite <- (append_empty_r (fmt_lld z)). now apply Hrest. }
  assert (Hr : Int64.in_range z = true -> atoll (fmt_lld z) = z).
  { intros Hin. rewrite Hs. unfold Int64.in_range in Hin.
    apply andb_prop in Hin. destruct Hin as [H1 H2].
    apply Z.leb_le in H1. apply Z.leb_le in H2. unfold Int64.saturate.
    destruct (Z.ltb_spec z Int64.min_signed); [lia|].
    destruct (Z.ltb_spec Int64.max_signed z); [lia|reflexivity]. }
  split; [exact Hs|split; [exact Hrest|split; [exact Hr|]]].
  intros bus id cur Hx Hc Hp Hin.
  rewrite (handle_set_position_seek bus id (fmt_lld z) cur Hx Hc Hp).
  rewrite (Hr Hin). cbn [events snd method_calls].
  split; [reflexivity|].
  intros ->. unfold Int64.sub. now rewrite Z.sub_diag.
Qed.

(** The position 5,000,000 of P1, printed and fed back, is a seek by 0;
    the same digits followed by a unit still read as 5,000,000. *)
Lemma printed_numbers_read_back_witness :
  fmt_lld 5000000 = "5000000" /\
  atoll "5000000us" = 5000000 /\
  method_calls (events (handle_set_position three_players (Some P1) "5000000"))
  = [(P1, "Seek", [0])].
Proof.
  split; [reflexivity|]. split.
  - exact (proj1 (proj2 (printed_numbers_read_back 5000000)) "us" eq_refl).
  - exact (proj2 (proj2 (proj2 (proj2 (printed_numbers_read_back 5000000)))
                        three_players P1 5000000 eq_refl eq_refl eq_refl
                        eq_refl) eq_refl).
Defined.

Lemma digits_no_prefix (d : Decimal.uint) :
  has_prefix_nocase "inf" (NilEmpty.string_of_uint d) = false /\
  has_prefix_nocase "nan" (NilEmpty.string_of_uint d) = false /\
  has_prefix_nocase "0x" (NilEmpty.string_of_uint d) = false.
Proof.
  destruct d as [|d|d|d|d|d|d|d|d|d|d]; repeat split; try reflexivity.
  destruct d; reflexivity.
Qed.

Lemma parse_double_digits (neg : bool) (p : positive) :
  (let s := NilEmpty.string_of_uint (Pos.to_uint p) in
   if has_prefix_nocase "inf" s then Some (S754_infinity neg)
   else if has_prefix_nocase "nan" s then Some S754_nan
   else
     let hexadecimal :=
       if has_prefix_nocase "0x" s then
         let '(m, n, nf, rest) := read_mantissa true (str_skip 2 s) in
         if n =? 0 then None
         else Some (binary_value neg m (read_exponent "p" rest - 4 * nf))
       else None in
     match hexadecimal with
     | Some x => Some x
     | None =>
         let '(m, n, nf, rest) := read_mantissa false s in
         if n =? 0 then None
         else Some (decimal_value neg m (read_exponent "e" rest - nf))
     end) =
  Some (Double.of_scaled (Zpos p) 0 neg).
Proof.
  cbv zeta.
  destruct (digits_no_prefix (Pos.to_uint p)) as (-> & -> & ->).
  destruct (digits_head (Pos.to_uint p) ""
              (DecimalPos.Unsigned.to_uint_nonnil p)) as (_ & _ & Hn).
  unfold read_mantissa. rewrite read_digits_of_uint.
  rewrite DecimalPos.Unsigned.of_to. cbv iota beta.
  destruct (Z.eqb_spec (0 + Z.of_nat (Decimal.nb_digits (Pos.to_uint p))) 0);
    [lia|].
  cbn [read_exponent]. unfold decimal_value.
  change (Z.of_N (Npos p) =? 0) with false. cbv iota.
  change (0 <=? 0 - 0) with true. cbv iota.
  change (10 ^ (0 - 0)) with 1. now rewrite Z.mul_1_r.
Qed.

Lemma atof_fmt_lld (z : Z) : atof (fmt_lld z) = Double.of_Z z.
Proof.
  unfold atof, parse_double, fmt_lld.
  destruct z as [|p|p]; cbn [Z.to_int NilZero.string_of_int].
  - reflexivity.
  - rewrite string_of_uint_nonnil.
    destruct (digits_head (Pos.to_uint p) ""
                (DecimalPos.Unsigned.to_uint_nonnil p)) as (Hs & Hg & _).
    rewrite append_empty_r in Hs, Hg. rewrite Hs, Hg.
    now rewrite parse_double_digits.
  - rewrite string_of_uint_nonnil.
    change (skip_space (String "-" ?s)) with (String "-" s).
    cbn [read_sign].
    now rewrite parse_double_digits.
Qed.

Lemma whole_percentages_in_range (n : Z) :
  0 <= n <= 100 -> in_percent_range (Double.of_Z n) = true.
Proof.
  intros Hn.
  assert (Hall : forallb (fun k => in_percent_range (Double.of_Z (Z.of_nat k)))
                         (seq 0 101) = true) by (vm_compute; reflexivity).
  rewrite forallb_forall in Hall.
  specialize (Hall (Z.to_nat n)).
  rewrite Z2Nat.id in Hall by lia. apply Hall.
  apply in_seq. lia.
Qed.

(** X20: a whole number written in decimal reads with [atof] as that
    number converted to [double]; so every whole percentage from 0 to 100,
    both ends included, passes the range check of [set-position-percent]. *)
Theorem whole_percentages_are_accepted (n : Z) :
  atof (fmt_lld n) = Double.of_Z n /\
  (0 <= n <= 100 ->
   in_percent_range (atof (fmt_lld n)) = true /\
   out_of_percent_range (atof (fmt_lld n)) = false).
Proof.
  split; [apply atof_fmt_lld|].
  intros Hn. rewrite atof_fmt_lld.
  pose proof (whole_percentages_in_range n Hn) as Hin.
  split; [exact Hin|now apply in_range_not_out].
Qed.

(** 100 percent is within range. *)
Lemma whole_percentages_are_accepted_witness :
  fmt_lld 100 = "100" /\ out_of_percent_range (atof "100") = false.
Proof.
  split; [reflexivity|].
  exact (proj2 (proj2 (whole_percentages_are_accepted 100) ltac:(lia))).
Defined.

(** ** Percentages that binary64 holds exactly *)

(** Multiplying a 53-bit value by a power of two 2^-k only lowers the
    exponent. *)
Lemma mul_by_power_of_two (k : Z) (m : positive) (e : Z) :
  Zpos (digits2_pos m) = 53 ->
  -1074 <= e - k -> e - k <= 971 ->
  Double.mul (S754_finite false 4503599627370496 (-52 - k))
             (S754_finite false m e) =
  S754_finite false m (e - k).
Proof.
  intros Hd Hlo Hhi. unfold Double.mul, SFmul. cbn [xorb].
  change (Pos.mul 4503599627370496 m) with (Pos.iter xO m 52).
  replace (-52 - k + e) with ((e - k) - Zpos 52) by lia.
  apply binary_round_aux_exact; [exact Hd|lia].
Qed.

Lemma scaled_target (k len : Z) :
  0 <= k <= 2 -> 0 < len < 2 ^ 53 ->
  Double.to_int64
    (Double.mul (S754_finite false 4503599627370496 (-52 - k))
                (Double.of_Z len)) = len / 2 ^ k.
Proof.
  intros Hk Hlen.
  destruct (of_Z_exact len Hlen) as (m & d & -> & Hd & Hdr & Hm).
  rewrite mul_by_power_of_two by lia.
  assert (Hq : Double.truncate (S754_finite false m (- d - k)) =
               Some (len / 2 ^ k)).
  { unfold Double.truncate. f_equal.
    assert (H2d : 0 < 2 ^ d) by (apply Z.pow_pos_nonneg; lia).
    assert (H2k : 0 < 2 ^ k) by (apply Z.pow_pos_nonneg; lia).
    destruct (- d - k) as [|e|e] eqn:He; try lia.
    - assert (d = 0 /\ k = 0) as [-> ->] by lia.
      cbn [Z.shiftl]. rewrite Hm. change (2 ^ 0) with 1.
      rewrite Z.mul_1_r, Z.div_1_r. reflexivity.
    - rewrite Z.shiftr_div_pow2 by lia. rewrite Hm.
      replace (Zpos e) with (d + k) by lia.
      rewrite Z.pow_add_r by lia.
      rewrite (Z.mul_comm (2 ^ d) (2 ^ k)).
      rewrite Z.div_mul_cancel_r by lia. reflexivity. }
  unfold Double.to_int64. rewrite Hq.
  assert (Hr : Int64.in_range (len / 2 ^ k) = true).
  { assert (H2k : 0 < 2 ^ k) by (apply Z.pow_pos_nonneg; lia).
    pose proof (Z.div_pos len (2 ^ k) ltac:(lia) H2k).
    assert (len / 2 ^ k <= len) by (apply Z.div_le_upper_bound; nia).
    unfold Int64.in_range, Int64.min_signed, Int64.max_signed.
    apply andb_true_intro. split; apply Z.leb_le; lia. }
  now rewrite Hr.
Qed.

(** X21: the percentages whose hundredth is a power of two are served
    without rounding error.  For a track length below 2^53 microseconds,
    100 percent is the length itself, 50 percent half of it and 25 percent a
    quarter of it, rounded down, and 0 percent is 0; [set-position-percent
    100] seeks by [len - cur]. *)
Theorem exact_percentages (len : Z) :
  0 < len < 2 ^ 53 ->
  let target s :=
    Double.to_int64
      (Double.mul (Double.div (atof s) (Double.of_Z 100)) (Double.of_Z len)) in
  target "0" = 0 /\
  target "25" = len / 4 /\
  target "50" = len / 2 /\
  target "100" = len /\
  forall bus id cur,
    bus_proxy bus id = true ->
    bus_property bus id "CanSeek" = Some (VBool true) ->
    track_length_is bus id len ->
    bus_property bus id "Position" = Some (VInt64 cur) ->
    method_calls (events (handle_set_position_percent bus (Some id) "100")) =
    [(id, "Seek", [Int64.sub len cur])].
Proof.
  intros Hlen target.
  assert (H100 : target "100" = len).
  { unfold target.
    change (Double.div (atof "100") (Double.of_Z 100))
      with (S754_finite false 4503599627370496 (-52 - 0)).
    rewrite (scaled_target 0 len) by lia. apply Z.div_1_r. }
  split; [|split; [|split; [|split; [exact H100|]]]].
  - unfold target. change (atof "0") with Double.zero.
    apply zero_percent_target. unfold Int64.max_signed. lia.
  - unfold target.
    change (Double.div (atof "25") (Double.of_Z 100))
      with (S754_finite false 4503599627370496 (-52 - 2)).
    now rewrite (scaled_target 2 len) by lia.
  - unfold target.
    change (Double.div (atof "50") (Double.of_Z 100))
      with (S754_finite false 4503599627370496 (-52 - 1)).
    now rewrite (scaled_target 1 len) by lia.
  - intros bus id cur Hx Hs Hl Hp.
    rewrite (handle_set_position_percent_seek bus id "100" len cur Hx Hs
               eq_refl Hl ltac:(lia) Hp).
    cbn [events snd method_calls]. unfold target in H100. now rewrite H100.
Qed.

(** A track of 200 s: 100 percent is 200,000,000, and from 10 s in the
    seek is by 190,000,000. *)
Lemma exact_percentages_witness :
  method_calls (events (handle_set_position_percent one_player (Some P1) "100"))
  = [(P1, "Seek", [190000000])].
Proof.
  refine (proj2 (proj2 (proj2 (proj2
            (exact_percentages 200000000 ltac:(lia)))))
            one_player P1 10000000 eq_refl eq_refl _ eq_refl).
  eexists. split; reflexivity.
Defined.

(** ** What a snapshot costs and shows *)

Lemma ranked_is_candidate (bus : Bus) (names : list string) (p : string) :
  In p (filter (has_status bus "Playing") names ++
        filter (has_status bus "Paused") names) ->
  In p names /\ candidate bus p = true /\
  (has_status bus "Playing" p = true \/ has_status bus "Paused" p = true).
Proof.
  intros Hp. apply in_app_or in Hp.
  destruct Hp as [Hp|Hp]; apply filter_In in Hp; destruct Hp as [Hin Hs];
    pose proof Hs as Hc; unfold has_status in Hc; apply andb_prop in Hc;
    tauto.
Qed.

(** X22: the bus traffic of one snapshot.  Discovery lists the names once
    and creates one proxy for every listed name with the MPRIS prefix, in
    listing order, whatever its status; the snapshot then creates one more
    proxy for every ranked player, in ranking order; nothing else
    happens. *)
Theorem snapshot_bus_traffic (bus : Bus) (names : list string) :
  bus_names bus = Some names ->
  statuses_typed bus names ->
  (forall p, In p names -> candidate bus p = true ->
             metadata_typed bus p = true) ->
  events (find_players bus) =
    EvListNames ::
    map EvProxyNew (filter (fun n => g_str_has_prefix n mpris_prefix) names) /\
  events (get_players_json bus) =
    events (find_players bus) ++
    map EvProxyNew (filter (has_status bus "Playing") names ++
                    filter (has_status bus "Paused") names).
Proof.
  intros Hn Hty Hmd.
  pose proof (find_players_spec bus names Hn Hty) as Hf.
  split; [now rewrite Hf|].
  unfold get_players_json. rewrite Hf. cbn [bind events snd].
  set (ranking := filter (has_status bus "Playing") names ++
                  filter (has_status bus "Paused") names) in *.
  assert (Hok : forall p, In p ranking ->
                  bus_proxy bus p = true /\ metadata_typed bus p = true).
  { intros p Hp. destruct (ranked_is_candidate bus names p Hp) as (Hin & Hc & _).
    split; [|now apply Hmd].
    unfold candidate in Hc. apply andb_prop in Hc. tauto. }
  pose proof (get_players_json_loop_events bus ranking Hok "[") as He.
  destruct ranking as [|p rest]; [reflexivity|].
  destruct (get_players_json_loop bus (p :: rest) "[") as [[v|] log];
    cbn [events snd] in He; subst log; cbn; now rewrite ?app_nil_r.
Qed.

(** Seven names on the bus, four of them MPRIS players, three ranked:
    one listing and seven proxies. *)
Lemma snapshot_bus_traffic_witness :
  events (get_players_json three_players) =
  [EvListNames; EvProxyNew P1; EvProxyNew P2; EvProxyNew P4; EvProxyNew P3;
   EvProxyNew P2; EvProxyNew P3; EvProxyNew P1].
Proof.
  destruct (snapshot_bus_traffic three_players
              ["org.freedesktop.DBus"; ":1.7"; P1; "org.gnome.Shell";
               P2; P4; P3] eq_refl ltac:(typed_statuses)) as [Hd Hs].
  { intros p Hp _. cbn in Hp.
    repeat (destruct Hp as [<-|Hp]; [reflexivity|]). contradiction. }
  rewrite Hs, Hd. reflexivity.
Defined.

